(** * WithGames: event / participant lifecycle and capacity reconciliation

    A shallow embedding of the recruitment core of the WithGames bot
    (src/models, src/services, src/cogs/event_manager.py,
    src/cogs/notification_manager.py, src/utils/datetime_utils.py) and the
    properties of its specification that concern it.

    Conventions of the embedding.
    - Python [int] is [Z]; a [datetime] is the number of microseconds since
      the epoch, a [Z]; [timedelta(minutes=m)] is [m * 60_000_000].
    - Every function that reads the clock ([datetime.utcnow()],
      [datetime.now()]) takes the reading as an argument [now]; one
      operation reads one value.
    - A Firestore collection is the list of its documents in the order in
      which the store streams the result of a query that has no [order_by].
      The store ties that order to no field of the documents, so the
      theorems quantify over every listing.
    - The store is reliable: a call fails only where Firestore itself
      refuses it ([update] of a document that does not exist).  The
      [try/except] blocks of the services are modelled by the value they
      return in that case. *)

From Stdlib Require Import ZArith List Bool String Ascii DecimalString Lia.
From Stdlib Require Import Permutation Sorted.
Import ListNotations.
Open Scope Z_scope.

Definition datetime := Z.

(** [timedelta(minutes=m)], in microseconds. *)
Definition timedelta_minutes (m : Z) : Z := m * 60000000.

(** Python's [str(n)] / f-string rendering of an [int]. *)
Definition str_of_int (z : Z) : string := NilZero.string_of_int (Z.to_int z).

Definition newline : string := String (ascii_of_nat 10) EmptyString.

Infix "+++" := String.append (right associativity, at level 60).

(** ** src/models/event.py *)

Inductive EventStatus : Type :=
| ACTIVE
| FULL
| CLOSED
| CANCELLED
| COMPLETED.

Definition EventStatus_eqb (a b : EventStatus) : bool :=
  match a, b with
  | ACTIVE, ACTIVE | FULL, FULL | CLOSED, CLOSED
  | CANCELLED, CANCELLED | COMPLETED, COMPLETED => true
  | _, _ => false
  end.

Module Event.

Record t : Type := mk {
  title : string;
  description : string;
  game_type : string;
  start_time : datetime;
  max_participants : Z;
  creator_id : string;
  creator_name : string;
  guild_id : string;
  channel_id : string;
  game_emoji : string;
  game_icon_url : option string;
  message_id : option string;
  current_participants : Z;
  status : EventStatus;
  reminder_sent : bool;
  created_at : datetime;
  updated_at : datetime;
  id : string
}.

Definition set_status (s : EventStatus) (e : t) : t :=
  mk (title e) (description e) (game_type e) (start_time e)
     (max_participants e) (creator_id e) (creator_name e) (guild_id e)
     (channel_id e) (game_emoji e) (game_icon_url e) (message_id e)
     (current_participants e) s (reminder_sent e) (created_at e)
     (updated_at e) (id e).

Definition set_current_participants (n : Z) (e : t) : t :=
  mk (title e) (description e) (game_type e) (start_time e)
     (max_participants e) (creator_id e) (creator_name e) (guild_id e)
     (channel_id e) (game_emoji e) (game_icon_url e) (message_id e)
     n (status e) (reminder_sent e) (created_at e)
     (updated_at e) (id e).

Definition set_reminder_sent (b : bool) (e : t) : t :=
  mk (title e) (description e) (game_type e) (start_time e)
     (max_participants e) (creator_id e) (creator_name e) (guild_id e)
     (channel_id e) (game_emoji e) (game_icon_url e) (message_id e)
     (current_participants e) (status e) b (created_at e)
     (updated_at e) (id e).

Definition set_updated_at (d : datetime) (e : t) : t :=
  mk (title e) (description e) (game_type e) (start_time e)
     (max_participants e) (creator_id e) (creator_name e) (guild_id e)
     (channel_id e) (game_emoji e) (game_icon_url e) (message_id e)
     (current_participants e) (status e) (reminder_sent e) (created_at e)
     d (id e).

(** [is_full]: [current_participants >= max_participants]. *)
Definition is_full (self : t) : bool :=
  max_participants self <=? current_participants self.

(** [update_status]: the [if/elif] on occupancy, then the [if] on the
    start time, then the refresh of [updated_at]. *)
Definition update_status (now : datetime) (self : t) : t :=
  let self1 :=
    if is_full self && EventStatus_eqb (status self) ACTIVE
    then set_status FULL self
    else if negb (is_full self) && EventStatus_eqb (status self) FULL
    then set_status ACTIVE self
    else self in
  let self2 :=
    if (start_time self1 <? now)
       && (EventStatus_eqb (status self1) ACTIVE
           || EventStatus_eqb (status self1) FULL)
    then set_status COMPLETED self1
    else self1 in
  set_updated_at now self2.

End Event.

(** ** src/models/participant.py *)

Inductive ParticipantStatus : Type :=
| JOINED
| WAITLIST.

Definition ParticipantStatus_eqb (a b : ParticipantStatus) : bool :=
  match a, b with
  | JOINED, JOINED | WAITLIST, WAITLIST => true
  | _, _ => false
  end.

Module Participant.

(** [id] is the Firestore document id; a record read back from the store
    always carries it ([from_dict (data, doc_id=data.get("id"))]).  The
    attribute [updated_at] that the service assigns before a write is not
    a dataclass field, [asdict] drops it, and it is never stored. *)
Record t : Type := mk {
  event_id : string;
  user_id : string;
  user_name : string;
  status : ParticipantStatus;
  position : Z;
  joined_at : datetime;
  id : string
}.

Definition set_status (s : ParticipantStatus) (p : t) : t :=
  mk (event_id p) (user_id p) (user_name p) s (position p) (joined_at p)
     (id p).

Definition set_position (n : Z) (p : t) : t :=
  mk (event_id p) (user_id p) (user_name p) (status p) n (joined_at p)
     (id p).

End Participant.

(** ** Python's stable sorts

    [list.sort(key=...)] and [sorted(..., key=..., reverse=True)] are both
    stable: records with equal keys keep the order they had.  [insert_by le]
    puts a record in front of the first one it is [le] to, so the insertion
    sort built on it is stable for a record that came first. *)

Section StableSort.

Context {A : Type}.
Variable le : A -> A -> bool.

Fixpoint insert_by (x : A) (l : list A) : list A :=
  match l with
  | [] => [x]
  | y :: l' => if le x y then x :: y :: l' else y :: insert_by x l'
  end.

Fixpoint sort_by (l : list A) : list A :=
  match l with
  | [] => []
  | x :: l' => insert_by x (sort_by l')
  end.

(** Every record is [le] to the ones after it. *)
Definition ordered : list A -> Prop :=
  StronglySorted (fun a b => le a b = true).

(** No record is [le] to one before it. *)
Definition strictly_ordered : list A -> Prop :=
  StronglySorted (fun a b => le b a = false).

End StableSort.

(** [l.sort(key=key)] *)
Definition sort_key {A : Type} (key : A -> Z) (l : list A) : list A :=
  sort_by (fun a b => key a <=? key b) l.

(** [sorted(l, key=key, reverse=True)] *)
Definition sorted_key_reverse {A : Type} (key : A -> Z) (l : list A) : list A :=
  sort_by (fun a b => key b <=? key a) l.

(** ** src/services/firestore_service.py *)

(** The two collections, and the [update_document] calls issued against the
    participants collection, oldest first. *)
Record Store : Type := mkStore {
  events : list Event.t;
  participants : list Participant.t;
  update_log : list Participant.t
}.

Definition with_events (es : list Event.t) (st : Store) : Store :=
  mkStore es (participants st) (update_log st).

Definition with_participants (ps : list Participant.t) (st : Store) : Store :=
  mkStore (events st) ps (update_log st).

(** The filters the services pass to [query_documents]: each is
    [(field, "==", value)]. *)
Inductive Filter : Type :=
| event_id_eq (v : string)
| user_id_eq (v : string)
| status_eq (v : ParticipantStatus).

Definition matches (p : Participant.t) (f : Filter) : bool :=
  match f with
  | event_id_eq v => String.eqb (Participant.event_id p) v
  | user_id_eq v => String.eqb (Participant.user_id p) v
  | status_eq v => ParticipantStatus_eqb (Participant.status p) v
  end.

(** [if limit: query = query.limit(limit)]: [None] and [0] do not limit. *)
Definition apply_limit {A : Type} (limit : option nat) (l : list A) : list A :=
  match limit with
  | None => l
  | Some O => l
  | Some n => firstn n l
  end.

(** [query_documents] on the participants collection, without [order_by]. *)
Definition query_documents (st : Store) (filters : list Filter)
    (limit : option nat) : list Participant.t :=
  apply_limit limit
    (filter (fun p => forallb (matches p) filters) (participants st)).

(** [create_document] without [doc_id]: Firestore generates the id
    [new_id]; [slot] is the place the new document takes in the stream
    order of the collection. *)
Definition create_document (st : Store) (slot : nat) (new_id : string)
    (data : Participant.t) : Store :=
  let doc := Participant.mk (Participant.event_id data)
               (Participant.user_id data) (Participant.user_name data)
               (Participant.status data) (Participant.position data)
               (Participant.joined_at data) new_id in
  with_participants
    (firstn slot (participants st) ++ doc :: skipn slot (participants st)) st.

Definition has_id (doc_id : string) (p : Participant.t) : bool :=
  String.eqb (Participant.id p) doc_id.

Definition replace_doc (doc_id : string) (doc p : Participant.t)
    : Participant.t :=
  if has_id doc_id p then doc else p.

(** [update_document] on the participants collection: every field of the
    document is overwritten with [data] ([to_dict] lists them all);
    Firestore raises [NotFound] ([None]) when the document does not exist. *)
Definition update_document (st : Store) (doc_id : string)
    (data : Participant.t) : option Store :=
  if existsb (has_id doc_id) (participants st) then
    let doc := Participant.mk (Participant.event_id data)
                 (Participant.user_id data) (Participant.user_name data)
                 (Participant.status data) (Participant.position data)
                 (Participant.joined_at data) doc_id in
    Some (mkStore (events st)
            (map (replace_doc doc_id doc) (participants st))
            (update_log st ++ [doc]))
  else None.

(** [delete_document] on the participants collection; deleting a document
    that does not exist is not an error. *)
Definition delete_document (st : Store) (doc_id : string) : Store :=
  with_participants
    (filter (fun p => negb (has_id doc_id p)) (participants st)) st.

Definition event_has_id (doc_id : string) (e : Event.t) : bool :=
  String.eqb (Event.id e) doc_id.

(** [get_document] on the events collection. *)
Definition get_event_document (st : Store) (doc_id : string) : option Event.t :=
  find (event_has_id doc_id) (events st).

(** [update_document] on the events collection. *)
Definition update_event_document (st : Store) (doc_id : string)
    (data : Event.t) : option Store :=
  if existsb (event_has_id doc_id) (events st) then
    Some (with_events
            (map (fun e => if event_has_id doc_id e then data else e)
                 (events st)) st)
  else None.

(** ** src/services/event_service.py *)

(** [get_event]: [None] when the document does not exist. *)
Definition get_event (st : Store) (event_id : string) : option Event.t :=
  get_event_document st event_id.

(** [update_event]: stamps [updated_at], writes every field; [False] when
    the write raises. *)
Definition update_event (st : Store) (event : Event.t) (now : datetime)
    : Store * bool :=
  let event' := Event.set_updated_at now event in
  match update_event_document st (Event.id event') event' with
  | Some st' => (st', true)
  | None => (st, false)
  end.

Definition guild_is (guild_id : string) (e : Event.t) : bool :=
  String.eqb (Event.guild_id e) guild_id.

(** [get_all_events]: the events of a guild, [order_by="created_at"]. *)
Definition get_all_events (st : Store) (guild_id : string) : list Event.t :=
  sort_key Event.created_at (filter (guild_is guild_id) (events st)).

Definition increment_participant_count (st : Store) (event_id : string)
    (now : datetime) : Store * bool :=
  match get_event st event_id with
  | None => (st, false)
  | Some event =>
      let event1 :=
        Event.set_current_participants (Event.current_participants event + 1)
          event in
      update_event st (Event.update_status now event1) now
  end.

Definition decrement_participant_count (st : Store) (event_id : string)
    (now : datetime) : Store * bool :=
  match get_event st event_id with
  | None => (st, false)
  | Some event =>
      let event1 :=
        Event.set_current_participants
          (Z.max 0 (Event.current_participants event - 1)) event in
      update_event st (Event.update_status now event1) now
  end.

Definition msg_event_not_found : string := "イベントが見つかりません".
Definition msg_recruitment_closed : string := "このイベントの募集は終了しました".
Definition msg_event_cancelled : string := "このイベントはキャンセルされました".
Definition msg_event_completed : string := "このイベントは既に終了しました".

Definition can_user_join (st : Store) (event_id : string) : bool * string :=
  match get_event st event_id with
  | None => (false, msg_event_not_found)
  | Some event =>
      match Event.status event with
      | CLOSED => (false, msg_recruitment_closed)
      | CANCELLED => (false, msg_event_cancelled)
      | COMPLETED => (false, msg_event_completed)
      | _ => (true, EmptyString)
      end
  end.

(** ** src/services/participant_service.py *)

(** [get_participants]: the JOINED records of the event, fetched without
    [order_by] and sorted by [joined_at] afterwards. *)
Definition get_participants (st : Store) (event_id : string)
    (limit : option nat) : list Participant.t :=
  sort_key Participant.joined_at
    (query_documents st [event_id_eq event_id; status_eq JOINED] limit).

(** [get_waitlist]: the WAITLIST records of the event, fetched without
    [order_by] and sorted by [position] afterwards.  The limit is applied
    by the query, before the sort. *)
Definition get_waitlist (st : Store) (event_id : string)
    (limit : option nat) : list Participant.t :=
  sort_key Participant.position
    (query_documents st [event_id_eq event_id; status_eq WAITLIST] limit).

Definition get_participant_by_user (st : Store) (event_id user_id : string)
    : option Participant.t :=
  match query_documents st [event_id_eq event_id; user_id_eq user_id]
          (Some 1%nat) with
  | p :: _ => Some p
  | [] => None
  end.

Definition is_user_participating (st : Store) (event_id user_id : string)
    : bool :=
  match get_participant_by_user st event_id user_id with
  | Some _ => true
  | None => false
  end.

(** The loop of [_update_waitlist_positions]:
    [for index, participant in enumerate(waitlist, start=1)].  A write that
    raises ends the loop with [False]; the writes already made stay. *)
Fixpoint renumber (st : Store) (index : Z) (waitlist : list Participant.t)
    : Store * bool :=
  match waitlist with
  | [] => (st, true)
  | participant :: rest =>
      if Participant.position participant =? index
      then renumber st (index + 1) rest
      else
        match update_document st (Participant.id participant)
                (Participant.set_position index participant) with
        | Some st' => renumber st' (index + 1) rest
        | None => (st, false)
        end
  end.

Definition _update_waitlist_positions (st : Store) (event_id : string)
    : Store * bool :=
  renumber st 1 (get_waitlist st event_id None).

Definition promoted (p : Participant.t) : Participant.t :=
  Participant.set_position 0 (Participant.set_status JOINED p).

(** [_promote_from_waitlist]: [get_waitlist(event_id, limit=1)], then the
    head of the result. *)
Definition _promote_from_waitlist (st : Store) (event_id : string)
    (now : datetime) : Store * option string :=
  match get_waitlist st event_id (Some 1%nat) with
  | [] => (st, None)
  | first_in_line :: _ =>
      match update_document st (Participant.id first_in_line)
              (promoted first_in_line) with
      | None => (st, None)
      | Some st1 =>
          let st2 := fst (increment_participant_count st1 event_id now) in
          let st3 := fst (_update_waitlist_positions st2 event_id) in
          (st3, Some (Participant.user_id first_in_line))
      end
  end.

Definition promote_from_waitlist (st : Store) (event_id user_id : string)
    (now : datetime) : Store * bool :=
  match get_participant_by_user st event_id user_id with
  | None => (st, false)
  | Some participant =>
      match Participant.status participant with
      | JOINED => (st, false)
      | WAITLIST =>
          match update_document st (Participant.id participant)
                  (promoted participant) with
          | None => (st, false)
          | Some st1 =>
              let st2 := fst (increment_participant_count st1 event_id now) in
              let st3 := fst (_update_waitlist_positions st2 event_id) in
              (st3, true)
          end
      end
  end.

Definition demoted (new_position : Z) (p : Participant.t) : Participant.t :=
  Participant.set_position new_position (Participant.set_status WAITLIST p).

Definition demote_to_waitlist (st : Store) (event_id user_id : string)
    (now : datetime) : Store * bool :=
  match get_participant_by_user st event_id user_id with
  | None => (st, false)
  | Some participant =>
      match Participant.status participant with
      | WAITLIST => (st, false)
      | JOINED =>
          let waitlist := get_waitlist st event_id None in
          let new_position := Z.of_nat (List.length waitlist) + 1 in
          match update_document st (Participant.id participant)
                  (demoted new_position participant) with
          | None => (st, false)
          | Some st1 =>
              (fst (decrement_participant_count st1 event_id now), true)
          end
      end
  end.

Definition msg_already_participating : string :=
  "既にこのイベントに参加しています。" +++ newline
  +++ "参加をやめる場合は「❌ 参加をやめる」ボタンを押してください。".
Definition msg_not_participating : string := "このイベントに参加していません".

Definition msg_joined (title : string) : string :=
  "✅ イベント「" +++ title +++ "」に参加しました！".
Definition msg_waitlisted (position : Z) : string :=
  "⏳ 定員に達しているため、キャンセル待ちリスト（" +++ str_of_int position
  +++ "番目）に追加しました".
Definition msg_left (title : string) : string :=
  "❌ 「" +++ title +++ "」への参加をキャンセルしました".

(** [join_event].  [new_id] and [slot] are what the store chooses for the
    new document (see [create_document]). *)
Definition join_event (st : Store) (event_id user_id user_name : string)
    (now : datetime) (new_id : string) (slot : nat)
    : Store * (bool * string * option Participant.t) :=
  match get_event st event_id with
  | None => (st, (false, msg_event_not_found, None))
  | Some event =>
      let (can_join, reason) := can_user_join st event_id in
      if negb can_join then (st, (false, reason, None))
      else if is_user_participating st event_id user_id
      then (st, (false, msg_already_participating, None))
      else
        let participants := get_participants st event_id None in
        let current_count := Z.of_nat (List.length participants) in
        let '(status, position, message) :=
          if current_count <? Event.max_participants event
          then (JOINED, 0, msg_joined (Event.title event))
          else
            let waitlist := get_waitlist st event_id None in
            let position := Z.of_nat (List.length waitlist) + 1 in
            (WAITLIST, position, msg_waitlisted position) in
        let participant :=
          Participant.mk event_id user_id user_name status position now
            new_id in
        let st1 := create_document st slot new_id participant in
        let st2 :=
          match status with
          | JOINED => fst (increment_participant_count st1 event_id now)
          | WAITLIST => st1
          end in
        (st2, (true, message, Some participant))
  end.

Definition leave_event (st : Store) (event_id user_id : string)
    (now : datetime) : Store * (bool * string * option string) :=
  match get_participant_by_user st event_id user_id with
  | None => (st, (false, msg_not_participating, None))
  | Some participant =>
      let st1 := delete_document st (Participant.id participant) in
      let (st2, promoted_user_id) :=
        match Participant.status participant with
        | JOINED =>
            _promote_from_waitlist
              (fst (decrement_participant_count st1 event_id now))
              event_id now
        | WAITLIST => (fst (_update_waitlist_positions st1 event_id), None)
        end in
      let event_title :=
        match get_event st2 event_id with
        | Some event => Event.title event
        | None => "イベント"%string
        end in
      (st2, (true, msg_left event_title, promoted_user_id))
  end.

(** ** src/cogs/event_manager.py *)

(** [for i in range(to_promote): promote_from_waitlist(.., waitlist[i].user_id)]
    over the records [waitlist[0 .. to_promote - 1]]; the result of a
    promotion is not looked at. *)
Definition promote_each (st : Store) (event_id : string) (now : datetime)
    (to_promote : list Participant.t) : Store :=
  fold_left
    (fun st p =>
       fst (promote_from_waitlist st event_id (Participant.user_id p) now))
    to_promote st.

(** [for i in range(excess_count): if i < len(participants_sorted):
    demote_to_waitlist(.., participants_sorted[i].user_id)]. *)
Definition demote_each (st : Store) (event_id : string) (now : datetime)
    (to_demote : list Participant.t) : Store :=
  fold_left
    (fun st p =>
       fst (demote_to_waitlist st event_id (Participant.user_id p) now))
    to_demote st.

(** [_handle_capacity_change]: [event] is the edited event, not yet saved,
    that carries the new capacity; the result is the store and the event
    with its counter re-read from the ledger. *)
Definition _handle_capacity_change (st : Store) (event : Event.t)
    (old_max_participants : Z) (now : datetime) : Store * Event.t :=
  let new_max := Event.max_participants event in
  let participants := get_participants st (Event.id event) None in
  let waitlist := get_waitlist st (Event.id event) None in
  let current_count := Z.of_nat (List.length participants) in
  let st1 :=
    if old_max_participants <? new_max then
      let available_spots := new_max - current_count in
      if (0 <? available_spots)
         && negb (Nat.eqb (List.length waitlist) 0)
      then
        let to_promote :=
          Z.min available_spots (Z.of_nat (List.length waitlist)) in
        promote_each st (Event.id event) now
          (firstn (Z.to_nat to_promote) waitlist)
      else st
    else if new_max <? old_max_participants then
      if new_max <? current_count then
        let excess_count := current_count - new_max in
        let participants_sorted :=
          sorted_key_reverse Participant.joined_at participants in
        demote_each st (Event.id event) now
          (firstn (Z.to_nat excess_count) participants_sorted)
      else st
    else st in
  let updated_participants := get_participants st1 (Event.id event) None in
  (st1,
   Event.set_current_participants
     (Z.of_nat (List.length updated_participants)) event).

(** ** src/utils/datetime_utils.py *)

Definition get_reminder_time (event_time : datetime) (minutes_before : Z)
    : datetime :=
  event_time - timedelta_minutes minutes_before.

Definition should_send_reminder (now : datetime) (event_time : datetime)
    (reminder_sent : bool) (minutes_before : Z) : bool :=
  if reminder_sent then false
  else
    let reminder_time := get_reminder_time event_time minutes_before in
    (reminder_time <=? now) && (now <? event_time).

(** ** src/cogs/notification_manager.py *)

(** One call of [_send_reminder]: the event, and the users a direct
    message is addressed to (none on the no-participants path). *)
Inductive Attempt : Type :=
| reminder (event_id : string) (recipients : list string).

Definition attempt_event (a : Attempt) : string :=
  match a with reminder event_id _ => event_id end.

(** [_send_reminder].  With no participant the event is marked and nothing
    is sent.  Otherwise a direct message goes to each participant (a
    delivery that fails is logged and the loop goes on), the channel is
    told, and the event is marked.  Building the embeds is taken not to
    raise. *)
Definition _send_reminder (st : Store) (event : Event.t) (now : datetime)
    : Store * Attempt :=
  let participants := get_participants st (Event.id event) None in
  match participants with
  | [] =>
      (fst (update_event st (Event.set_reminder_sent true event) now),
       reminder (Event.id event) [])
  | _ :: _ =>
      (fst (update_event st (Event.set_reminder_sent true event) now),
       reminder (Event.id event) (map Participant.user_id participants))
  end.

Definition reminder_status (s : EventStatus) : bool :=
  match s with
  | ACTIVE | FULL | CLOSED => true
  | _ => false
  end.

(** The body of [for event in events] in [check_reminders]. *)
Definition check_reminder (reminder_minutes : Z) (now : datetime)
    (acc : Store * list Attempt) (event : Event.t) : Store * list Attempt :=
  let (st, sent) := acc in
  if Event.reminder_sent event then acc
  else if negb (reminder_status (Event.status event)) then acc
  else if should_send_reminder now (Event.start_time event)
            (Event.reminder_sent event) reminder_minutes
  then
    let (st', a) := _send_reminder st event now in
    (st', sent ++ [a])
  else acc.

(** [check_reminders]: [for guild in self.bot.guilds], the events of the
    guild are fetched once and walked. *)
Definition check_reminders (reminder_minutes : Z) (guilds : list string)
    (now : datetime) (st : Store) : Store * list Attempt :=
  fold_left
    (fun acc guild =>
       fold_left (check_reminder reminder_minutes now)
         (get_all_events (fst acc) guild) acc)
    guilds (st, []).



(** ** The transition function as the specification words it *)

(** Section 4.2 of the specification: step 1, else step 2, then step 3, on
    the status alone. *)
Definition recompute_status_spec (now start_time : datetime)
    (max_participants current_participants : Z) (s : EventStatus)
    : EventStatus :=
  let s1 :=
    match s with
    | ACTIVE => if current_participants >=? max_participants then FULL else s
    | FULL => if current_participants <? max_participants then ACTIVE else s
    | _ => s
    end in
  match s1 with
  | ACTIVE | FULL => if start_time <? now then COMPLETED else s1
  | _ => s1
  end.

(** ** Sequences of operations *)

Inductive CounterOp : Type :=
| Increment
| Decrement.

Definition counter_step (event_id : string) (st : Store)
    (op : CounterOp * datetime) : Store :=
  match fst op with
  | Increment => fst (increment_participant_count st event_id (snd op))
  | Decrement => fst (decrement_participant_count st event_id (snd op))
  end.

Definition counter_run (event_id : string) (ops : list (CounterOp * datetime))
    (st : Store) : Store :=
  fold_left (counter_step event_id) ops st.


(** ** Well-formed stores *)

Fixpoint distinct {A : Type} (eqb : A -> A -> bool) (l : list A) : bool :=
  match l with
  | [] => true
  | x :: l' => negb (existsb (eqb x) l') && distinct eqb l'
  end.

(** Document ids are keys of their collection. *)
Definition unique_ids (st : Store) : bool :=
  distinct String.eqb (map Participant.id (participants st)).


Definition user_key (p : Participant.t) : string * string :=
  (Participant.event_id p, Participant.user_id p).

Definition key_eqb (a b : string * string) : bool :=
  String.eqb (fst a) (fst b) && String.eqb (snd a) (snd b).

(** Section 3 of the specification: at most one record per user and
    event. *)
Definition one_record_per_user (st : Store) : bool :=
  distinct key_eqb (map user_key (participants st)).

Definition ledger_ok (st : Store) : bool :=
  unique_ids st && one_record_per_user st.

(** ** Vocabulary of the statements *)

(** The two filter lists of the service, as predicates. *)
Definition of_user (event_id user_id : string) (p : Participant.t) : bool :=
  forallb (matches p) [event_id_eq event_id; user_id_eq user_id].

Definition of_status (event_id : string) (s : ParticipantStatus)
    (p : Participant.t) : bool :=
  forallb (matches p) [event_id_eq event_id; status_eq s].

(** The statuses that accept joins. *)
Definition open_status (s : EventStatus) : Prop := s = ACTIVE \/ s = FULL.

Definition is_joined (p : Participant.t) : bool :=
  ParticipantStatus_eqb (Participant.status p) JOINED.

(** [q] is none of the records [chosen], by document id. *)
Definition not_among (chosen : list Participant.t) (q : Participant.t) : bool :=
  negb (existsb (has_id (Participant.id q)) chosen).

(** The waitlist with positions [index], [index + 1], ... in its order. *)
Fixpoint enumerate_positions (index : Z) (waitlist : list Participant.t)
    : list Participant.t :=
  match waitlist with
  | [] => []
  | p :: rest =>
      Participant.set_position index p :: enumerate_positions (index + 1) rest
  end.

(** The position [enumerate_positions] gives to the document [doc_id]. *)
Fixpoint new_position (index : Z) (waitlist : list Participant.t)
    (doc_id : string) : option Z :=
  match waitlist with
  | [] => None
  | p :: rest =>
      if has_id doc_id p then Some index
      else new_position (index + 1) rest doc_id
  end.

Definition renumbered (index : Z) (waitlist : list Participant.t)
    (q : Participant.t) : Participant.t :=
  match new_position index waitlist (Participant.id q) with
  | Some i => Participant.set_position i q
  | None => q
  end.

(** The documents the loop of [renumber] writes. *)
Fixpoint rewritten (index : Z) (waitlist : list Participant.t)
    : list Participant.t :=
  match waitlist with
  | [] => []
  | p :: rest =>
      if Participant.position p =? index then rewritten (index + 1) rest
      else Participant.set_position index p :: rewritten (index + 1) rest
  end.

Definition position_changed (pr : Participant.t * Participant.t) : bool :=
  negb (Participant.position (fst pr) =? Participant.position (snd pr)).

(** A record with its position blanked: what stays of it when the
    waitlist is resequenced. *)
Definition unpositioned (p : Participant.t) : Participant.t :=
  Participant.set_position 0 p.

(** The reminder gate of [check_reminder], as a predicate on the event. *)
Definition due (reminder_minutes : Z) (now : datetime) (e : Event.t) : bool :=
  negb (Event.reminder_sent e)
  && reminder_status (Event.status e)
  && should_send_reminder now (Event.start_time e) (Event.reminder_sent e)
       reminder_minutes.


(** ** Sample data *)

Definition sample_event (max_participants current : Z) (s : EventStatus)
    : Event.t :=
  Event.mk "raid" "weekly raid" "mmo" 1000 max_participants "C" "creator"
    "G" "ch" "e" None None current s false 0 0 "E".

Definition sample_record (user : string) (s : ParticipantStatus)
    (position : Z) (joined_at : datetime) (doc_id : string)
    : Participant.t :=
  Participant.mk "E" user user s position joined_at doc_id.

(** A new event. *)
Definition sample_store : Store :=
  mkStore [sample_event 2 0 ACTIVE] [] [].

Definition sample_ops : list (CounterOp * datetime) :=
  [(Decrement, 5); (Increment, 6); (Decrement, 7); (Decrement, 8)].

(** An event at capacity: two joined users, one waiting. *)
Definition full_store : Store :=
  mkStore [sample_event 2 2 FULL]
    [sample_record "U1" JOINED 0 10 "p1";
     sample_record "U2" JOINED 0 20 "p2";
     sample_record "U3" WAITLIST 1 30 "p3"]
    [].

Definition closed_store : Store :=
  mkStore [sample_event 2 1 CLOSED] [sample_record "U1" JOINED 0 10 "p1"] [].

(** A waitlist with gaps in its positions. *)
Definition gapped_store : Store :=
  mkStore [sample_event 2 2 FULL]
    [sample_record "U5" WAITLIST 7 50 "p5";
     sample_record "U1" JOINED 0 10 "p1";
     sample_record "U3" WAITLIST 1 30 "p3";
     sample_record "U4" WAITLIST 4 40 "p4"]
    [].

(** A store that streams the second in line before the first. *)
Definition streamed_store : Store :=
  mkStore [sample_event 2 2 FULL]
    [sample_record "U4" WAITLIST 2 40 "a4";
     sample_record "U1" JOINED 0 10 "p1";
     sample_record "U2" JOINED 0 20 "p2";
     sample_record "U3" WAITLIST 1 30 "p3"]
    [].

(** The same ledger, reached by four joins on the new event: the store
    files the document of the fourth user, "a4", ahead of the others. *)
Definition four_joins : Store :=
  let st1 := fst (join_event sample_store "E" "U1" "U1" 10 "p1" 0) in
  let st2 := fst (join_event st1 "E" "U2" "U2" 20 "p2" 1) in
  let st3 := fst (join_event st2 "E" "U3" "U3" 30 "p3" 2) in
  fst (join_event st3 "E" "U4" "U4" 40 "a4" 0).

(** Two joined users and three waiting, A@1, B@2, C@3. *)
Definition waiting_store : Store :=
  mkStore [sample_event 2 2 FULL]
    [sample_record "U1" JOINED 0 10 "p1";
     sample_record "C" WAITLIST 3 50 "p5";
     sample_record "U2" JOINED 0 20 "p2";
     sample_record "A" WAITLIST 1 30 "p3";
     sample_record "B" WAITLIST 2 40 "p4"]
    [].

(** Three joined users, A(t1), B(t2), C(t3), and one waiting. *)
Definition joined_store : Store :=
  mkStore [sample_event 3 3 FULL]
    [sample_record "A" JOINED 0 10 "p1";
     sample_record "C" JOINED 0 30 "p3";
     sample_record "W" WAITLIST 1 40 "p4";
     sample_record "B" JOINED 0 20 "p2"]
    [].

(** An event that starts at 3_000_000_000 microseconds; with a window of
    30 minutes its reminder is due from 1_200_000_000 on. *)
Definition reminder_store : Store :=
  mkStore
    [Event.mk "raid" "weekly raid" "mmo" 3000000000 2 "C" "creator" "G" "ch"
       "e" None None 1 ACTIVE false 0 0 "E"]
    [sample_record "U1" JOINED 0 10 "p1"]
    [].

(** ** More of src/models/event.py *)

(** [Event.can_accept_participants]. *)
Definition can_accept_participants (now : datetime) (self : Event.t) : bool :=
  EventStatus_eqb (Event.status self) ACTIVE
  && negb (Event.is_full self)
  && (now <? Event.start_time self).

(** ** More of the services *)

Definition of_event (event_id : string) (p : Participant.t) : bool :=
  String.eqb (Participant.event_id p) event_id.

(** [status.value]. *)
Definition EventStatus_value (s : EventStatus) : string :=
  match s with
  | ACTIVE => "active"
  | FULL => "full"
  | CLOSED => "closed"
  | CANCELLED => "cancelled"
  | COMPLETED => "completed"
  end.

(** [delete_document] on the events collection. *)
Definition delete_event_document (st : Store) (doc_id : string) : Store :=
  with_events (filter (fun e => negb (event_has_id doc_id e)) (events st)) st.

(** [EventService.delete_event]. *)
Definition delete_event (st : Store) (event_id : string) : Store * bool :=
  (delete_event_document st event_id, true).

(** [delete_all_participants]: every document of the event is fetched;
    [if participant_id: delete_document(...)] skips an empty id. *)
Definition delete_all_participants (st : Store) (event_id : string)
    : Store * bool :=
  (fold_left
     (fun st participant_data =>
        if String.eqb (Participant.id participant_data) EmptyString then st
        else delete_document st (Participant.id participant_data))
     (query_documents st [event_id_eq event_id] None) st,
   true).

(** ** src/utils/permissions.py *)

(** What the checks read of a guild: [get_member(user.id)], [None] for a
    user who is no member, and the [guild_permissions.administrator] of
    the member. *)
Definition Guild : Type := string -> option bool.

Definition msg_no_permission : string :=
  "このイベントを編集する権限がありません（作成者または管理者のみ）".

Definition can_manage_event (user_id : string) (event : Event.t)
    (guild : option Guild) : bool * string :=
  if String.eqb user_id (Event.creator_id event) then (true, EmptyString)
  else
    match guild with
    | Some g =>
        match g user_id with
        | Some true => (true, EmptyString)
        | _ => (false, msg_no_permission)
        end
    | None => (false, msg_no_permission)
    end.

Definition can_delete_event (user_id : string) (event : Event.t)
    (guild : option Guild) : bool * string :=
  can_manage_event user_id event guild.

(** ** The commands of src/cogs/event_manager.py

    What the commands do to the store, and the title and description of
    the embed they answer with.  The posted message of the event, which
    they also edit or delete, is outside the store. *)



Module EventManager.

Definition Reply : Type := (string * string)%type.

Definition reply_not_found : Reply :=
  ("エラー"%string, "指定されたイベントが見つかりません。"%string).

(** [delete_event]: the participants go first, then the event. *)
Definition delete_event (st : Store) (user_id : string)
    (guild : option Guild) (event_id : string) : Store * Reply :=
  match get_event st event_id with
  | None => (st, reply_not_found)
  | Some event =>
      let (can_delete, reason) := can_delete_event user_id event guild in
      if negb can_delete then (st, ("権限エラー"%string, reason))
      else
        let st1 := fst (delete_all_participants st event_id) in
        let (st2, success) := delete_event st1 event_id in
        if negb success
        then (st2, ("エラー"%string, "イベントの削除に失敗しました。"%string))
        else
          (st2,
           ("イベント削除完了"%string,
            "イベント「" +++ Event.title event +++ "」を削除しました。"))
  end.

Definition close_event (st : Store) (user_id : string)
    (guild : option Guild) (event_id : string) (now : datetime)
    : Store * Reply :=
  match get_event st event_id with
  | None => (st, reply_not_found)
  | Some event =>
      let (can_manage, reason) := can_manage_event user_id event guild in
      if negb can_manage then (st, ("権限エラー"%string, reason))
      else
        match Event.status event with
        | CLOSED =>
            (st,
             ("募集終了済み"%string,
              "このイベントは既に募集が終了しています。"%string))
        | CANCELLED | COMPLETED =>
            (st,
             ("エラー"%string,
              "このイベントは既に"
              +++ EventStatus_value (Event.status event) +++ "状態です。"))
        | ACTIVE | FULL =>
            let event1 :=
              Event.set_updated_at now (Event.set_status CLOSED event) in
            let (st1, success) := update_event st event1 now in
            if negb success
            then (st1, ("エラー"%string, "募集終了処理に失敗しました。"%string))
            else
              (st1,
               ("募集終了完了"%string,
                "イベント「" +++ Event.title event1
                +++ "」の募集を終了しました。" +++ newline
                +++ "参加者は確定し、新規参加はできなくなります。"))
        end
  end.


End EventManager.



(** Two events and their participants. *)
Definition two_events_store : Store :=
  mkStore
    [sample_event 2 2 FULL;
     Event.mk "scrim" "" "fps" 500 4 "D" "other" "G" "ch" "e" None None 1
       CLOSED false 0 0 "F"]
    [sample_record "U1" JOINED 0 10 "p1";
     Participant.mk "F" "U1" "U1" JOINED 0 15 "q1";
     sample_record "U2" JOINED 0 20 "p2";
     sample_record "U3" WAITLIST 1 30 "p3"]
    [].

(** A document read from the store carries its id. *)
Definition has_doc_id (p : Participant.t) : bool :=
  negb (String.eqb (Participant.id p) EmptyString).

(** Who [can_manage_event] lets through: the creator of the event, and a
    member of the guild who is an administrator. *)
Definition may_manage (user_id : string) (event : Event.t)
    (guild : option Guild) : Prop :=
  user_id = Event.creator_id event
  \/ exists g, guild = Some g /\ g user_id = Some true.



(** * Properties *)

(** ** Strings and small facts *)

Lemma EventStatus_eqb_eq (a b : EventStatus) :
  EventStatus_eqb a b = true <-> a = b.
Proof. destruct a, b; simpl; split; congruence. Qed.

Lemma ParticipantStatus_eqb_eq (a b : ParticipantStatus) :
  ParticipantStatus_eqb a b = true <-> a = b.
Proof. destruct a, b; simpl; split; congruence. Qed.

(** ** The events collection *)

Lemma get_event_id (st : Store) (event_id : string) (e : Event.t) :
  get_event st event_id = Some e -> Event.id e = event_id.
Proof.
  unfold get_event, get_event_document. intros H.
  apply find_some in H. destruct H as [_ H].
  now apply String.eqb_eq in H.
Qed.

Lemma get_event_In (st : Store) (event_id : string) (e : Event.t) :
  get_event st event_id = Some e -> In e (events st).
Proof.
  unfold get_event, get_event_document. intros H.
  now apply find_some in H.
Qed.

Lemma find_map_replace (doc_id : string) (data : Event.t) (es : list Event.t) :
  Event.id data = doc_id ->
  find (event_has_id doc_id)
       (map (fun e => if event_has_id doc_id e then data else e) es)
  = match find (event_has_id doc_id) es with
    | Some _ => Some data
    | None => None
    end.
Proof.
  intros Hid. induction es as [|e es IH]; simpl; [reflexivity|].
  destruct (event_has_id doc_id e) eqn:He.
  - unfold event_has_id at 1. rewrite Hid, String.eqb_refl. reflexivity.
  - rewrite He. exact IH.
Qed.

Lemma find_map_other (doc_id other : string) (data : Event.t)
    (es : list Event.t) :
  other <> doc_id -> Event.id data = doc_id ->
  find (event_has_id other)
       (map (fun e => if event_has_id doc_id e then data else e) es)
  = find (event_has_id other) es.
Proof.
  intros Hne Hid. induction es as [|e es IH]; simpl; [reflexivity|].
  destruct (event_has_id doc_id e) eqn:He.
  - assert (H1 : event_has_id other data = false).
    { unfold event_has_id. rewrite Hid. apply String.eqb_neq. congruence. }
    assert (H2 : event_has_id other e = false).
    { unfold event_has_id in *. apply String.eqb_eq in He.
      rewrite He. apply String.eqb_neq. congruence. }
    rewrite H1, H2. exact IH.
  - destruct (event_has_id other e); [reflexivity | exact IH].
Qed.

Lemma find_existsb (doc_id : string) (es : list Event.t) (e : Event.t) :
  find (event_has_id doc_id) es = Some e ->
  existsb (event_has_id doc_id) es = true.
Proof.
  intros H. apply find_some in H. apply existsb_exists. now exists e.
Qed.

(** What a successful [update_event] leaves behind. *)
Lemma update_event_found (st : Store) (e0 e : Event.t) (now : datetime) :
  get_event st (Event.id e) = Some e0 ->
  exists st',
    update_event st e now = (st', true)
    /\ get_event st' (Event.id e) = Some (Event.set_updated_at now e)
    /\ participants st' = participants st
    /\ update_log st' = update_log st
    /\ map Event.id (events st') = map Event.id (events st)
    /\ forall other, other <> Event.id e ->
         get_event st' other = get_event st other.
Proof.
  intros H. unfold update_event, update_event_document.
  change (Event.id (Event.set_updated_at now e)) with (Event.id e).
  unfold get_event, get_event_document in *.
  rewrite (find_existsb _ _ _ H).
  eexists. split; [reflexivity|]. simpl.
  repeat split.
  - rewrite find_map_replace by reflexivity. now rewrite H.
  - rewrite map_map. apply map_ext_in. intros a _.
    destruct (event_has_id (Event.id e) a) eqn:Ha; [|reflexivity].
    simpl. apply String.eqb_eq in Ha. now symmetry.
  - intros other Hne. now apply find_map_other.
Qed.

(** [update_event] never touches the participants collection or its log. *)
Lemma update_event_ledger (st : Store) (e : Event.t) (now : datetime) :
  participants (fst (update_event st e now)) = participants st
  /\ update_log (fst (update_event st e now)) = update_log st.
Proof.
  unfold update_event, update_event_document.
  destruct (existsb _ _); simpl; auto.
Qed.

Lemma increment_ledger (st : Store) (event_id : string) (now : datetime) :
  participants (fst (increment_participant_count st event_id now))
  = participants st
  /\ update_log (fst (increment_participant_count st event_id now))
     = update_log st.
Proof.
  unfold increment_participant_count.
  destruct (get_event st event_id); [apply update_event_ledger|simpl; auto].
Qed.

Lemma decrement_ledger (st : Store) (event_id : string) (now : datetime) :
  participants (fst (decrement_participant_count st event_id now))
  = participants st
  /\ update_log (fst (decrement_participant_count st event_id now))
     = update_log st.
Proof.
  unfold decrement_participant_count.
  destruct (get_event st event_id); [apply update_event_ledger|simpl; auto].
Qed.

(** ** The status state machine *)

Lemma update_status_fields (now : datetime) (e : Event.t) :
  Event.set_updated_at 0 (Event.set_status ACTIVE (Event.update_status now e))
  = Event.set_updated_at 0 (Event.set_status ACTIVE e).
Proof.
  unfold Event.update_status.
  repeat match goal with |- context [if ?c then _ else _] => destruct c end;
    reflexivity.
Qed.

Lemma update_status_current (now : datetime) (e : Event.t) :
  Event.current_participants (Event.update_status now e)
  = Event.current_participants e.
Proof.
  unfold Event.update_status.
  repeat match goal with |- context [if ?c then _ else _] => destruct c end;
    reflexivity.
Qed.

Lemma update_status_id (now : datetime) (e : Event.t) :
  Event.id (Event.update_status now e) = Event.id e.
Proof.
  unfold Event.update_status.
  repeat match goal with |- context [if ?c then _ else _] => destruct c end;
    reflexivity.
Qed.

Lemma update_status_status (now : datetime) (e : Event.t) :
  Event.status (Event.update_status now e)
  = recompute_status_spec now (Event.start_time e) (Event.max_participants e)
      (Event.current_participants e) (Event.status e).
Proof.
  unfold Event.update_status, recompute_status_spec, Event.is_full.
  destruct e as [? ? ? start mx ? ? ? ? ? ? ? cur s ? ? ? ?]; simpl.
  destruct s; simpl;
    destruct (mx <=? cur) eqn:Hf; simpl;
    destruct (start <? now) eqn:Hs; simpl;
    try rewrite Hs;
    repeat match goal with
      | |- context [?a >=? ?b] =>
          let H := fresh in destruct (a >=? b) eqn:H
      | |- context [?a <? ?b] =>
          let H := fresh in destruct (a <? b) eqn:H
      end; simpl; try rewrite Hs; try reflexivity; lia.
Qed.

(** Once the start time is past, an open event comes out COMPLETED. *)
Lemma update_status_past (now : datetime) (e : Event.t) :
  Event.start_time e < now -> open_status (Event.status e) ->
  Event.status (Event.update_status now e) = COMPLETED.
Proof.
  intros Hp Hs. rewrite update_status_status. unfold recompute_status_spec.
  apply Z.ltb_lt in Hp.
  destruct Hs as [-> | ->];
    repeat match goal with
      | |- context [?a >=? ?b] => destruct (a >=? b)
      | |- context [?a <? ?b] =>
          lazymatch b with
          | now => fail
          | _ => destruct (a <? b)
          end
      end; now rewrite Hp.
Qed.

(** C2. [update_status] moves the status exactly as the three-step
    transition function of the specification does (ACTIVE to FULL at
    capacity, else FULL back to ACTIVE below capacity, then ACTIVE or FULL
    to COMPLETED once the start time is in the past), it changes no field
    but [status] and the [updated_at] stamp, and an event that is CLOSED or
    CANCELLED comes out with its status, and every field but the stamp,
    as it went in. *)
Theorem update_status_is_recompute_status (now : datetime) (e : Event.t) :
  Event.status (Event.update_status now e)
  = recompute_status_spec now (Event.start_time e) (Event.max_participants e)
      (Event.current_participants e) (Event.status e)
  /\ Event.update_status now e
     = Event.set_updated_at now
         (Event.set_status (Event.status (Event.update_status now e)) e)
  /\ Event.update_status now (Event.set_status CLOSED e)
     = Event.set_updated_at now (Event.set_status CLOSED e)
  /\ Event.update_status now (Event.set_status CANCELLED e)
     = Event.set_updated_at now (Event.set_status CANCELLED e).
Proof.
  repeat split.
  - apply update_status_status.
  - unfold Event.update_status.
    repeat match goal with |- context [if ?c then _ else _] => destruct c end;
      destruct e; reflexivity.
  - unfold Event.update_status, Event.is_full; simpl.
    destruct (_ <=? _); simpl; destruct (_ <? _); reflexivity.
  - unfold Event.update_status, Event.is_full; simpl.
    destruct (_ <=? _); simpl; destruct (_ <? _); reflexivity.
Qed.

(** ** The joined counter *)

Lemma decrement_found (st : Store) (event_id : string) (e : Event.t)
    (now : datetime) :
  get_event st event_id = Some e ->
  exists e',
    get_event (fst (decrement_participant_count st event_id now)) event_id
    = Some e'
    /\ Event.current_participants e'
       = Z.max 0 (Event.current_participants e - 1).
Proof.
  intros H. unfold decrement_participant_count. rewrite H.
  pose proof (get_event_id _ _ _ H) as Hid.
  set (e1 := Event.update_status now _).
  assert (Hid1 : Event.id e1 = event_id).
  { unfold e1. rewrite update_status_id. exact Hid. }
  destruct (update_event_found st e e1 now) as (st' & Hu & Hg & _).
  { now rewrite Hid1. }
  rewrite Hu. simpl. rewrite Hid1 in Hg. eexists. split; [exact Hg|].
  unfold e1.
  change (Event.current_participants (Event.set_updated_at now ?x))
    with (Event.current_participants x).
  now rewrite update_status_current.
Qed.

Lemma increment_found (st : Store) (event_id : string) (e : Event.t)
    (now : datetime) :
  get_event st event_id = Some e ->
  exists e',
    get_event (fst (increment_participant_count st event_id now)) event_id
    = Some e'
    /\ Event.current_participants e' = Event.current_participants e + 1.
Proof.
  intros H. unfold increment_participant_count. rewrite H.
  pose proof (get_event_id _ _ _ H) as Hid.
  set (e1 := Event.update_status now _).
  assert (Hid1 : Event.id e1 = event_id).
  { unfold e1. rewrite update_status_id. exact Hid. }
  destruct (update_event_found st e e1 now) as (st' & Hu & Hg & _).
  { now rewrite Hid1. }
  rewrite Hu. simpl. rewrite Hid1 in Hg. eexists. split; [exact Hg|].
  unfold e1.
  change (Event.current_participants (Event.set_updated_at now ?x))
    with (Event.current_participants x).
  now rewrite update_status_current.
Qed.

Lemma increment_stored (st : Store) (event_id : string) (e : Event.t)
    (now : datetime) :
  get_event st event_id = Some e ->
  get_event (fst (increment_participant_count st event_id now)) event_id
  = Some (Event.set_updated_at now
            (Event.update_status now
               (Event.set_current_participants
                  (Event.current_participants e + 1) e))).
Proof.
  intros H. unfold increment_participant_count. rewrite H.
  pose proof (get_event_id _ _ _ H) as Hid.
  set (e1 := Event.update_status now _).
  assert (Hid1 : Event.id e1 = event_id).
  { unfold e1. rewrite update_status_id. exact Hid. }
  destruct (update_event_found st e e1 now) as (st' & Hu & Hg & _).
  { now rewrite Hid1. }
  rewrite Hu. cbn [fst]. now rewrite Hid1 in Hg.
Qed.

Lemma counter_run_nonneg (event_id : string)
    (ops : list (CounterOp * datetime)) :
  forall (st : Store) (e : Event.t),
    get_event st event_id = Some e ->
    0 <= Event.current_participants e ->
    exists e',
      get_event (counter_run event_id ops st) event_id = Some e'
      /\ 0 <= Event.current_participants e'.
Proof.
  induction ops as [|[op now] ops IH]; intros st e He Hc.
  - exists e. now split.
  - unfold counter_run in *. simpl. unfold counter_step at 2. simpl.
    destruct op.
    + destruct (increment_found st event_id e now He) as (e' & Hg & Hv).
      apply (IH _ e' Hg). lia.
    + destruct (decrement_found st event_id e now He) as (e' & Hg & Hv).
      apply (IH _ e' Hg). lia.
Qed.

(** C9. [decrement_participant_count] stores [max(0, current - 1)], which
    is never negative, and no sequence of increments and decrements of the
    counter of an event takes it below zero once it is not negative (a new
    event starts at 0), however many decrements there are. *)
Theorem current_participants_never_negative
    (st : Store) (event_id : string) (e : Event.t) (now : datetime) :
  get_event st event_id = Some e ->
  (exists e',
     get_event (fst (decrement_participant_count st event_id now)) event_id
     = Some e'
     /\ Event.current_participants e'
        = Z.max 0 (Event.current_participants e - 1)
     /\ 0 <= Event.current_participants e')
  /\ forall ops : list (CounterOp * datetime),
       0 <= Event.current_participants e ->
       exists e',
         get_event (counter_run event_id ops st) event_id = Some e'
         /\ 0 <= Event.current_participants e'.
Proof.
  intros He. split.
  - destruct (decrement_found st event_id e now He) as (e' & Hg & Hv).
    exists e'. repeat split; [exact Hg | exact Hv | lia].
  - intros ops Hc. now apply (counter_run_nonneg event_id ops st e).
Qed.

Lemma current_participants_never_negative_witness :
  get_event sample_store "E" = Some (sample_event 2 0 ACTIVE)
  /\ 0 <= Event.current_participants (sample_event 2 0 ACTIVE)
  /\ exists e',
       get_event (counter_run "E" sample_ops sample_store) "E" = Some e'
       /\ 0 <= Event.current_participants e'.
Proof.
  split; [reflexivity|]. split; [simpl; lia|].
  apply (proj2 (current_participants_never_negative sample_store "E"
                  (sample_event 2 0 ACTIVE) 5 eq_refl) sample_ops).
  simpl; lia.
Defined.

(** ** Lists *)

Lemma in_skipn {A : Type} (x : A) (n : nat) (l : list A) :
  In x (skipn n l) -> In x l.
Proof.
  intros H. rewrite <- (firstn_skipn n l). apply in_or_app. now right.
Qed.

Lemma in_firstn {A : Type} (x : A) (n : nat) (l : list A) :
  In x (firstn n l) -> In x l.
Proof.
  intros H. rewrite <- (firstn_skipn n l). apply in_or_app. now left.
Qed.

(** ** Stable insertion sort *)

Section SortFacts.

Context {A : Type}.
Variable le : A -> A -> bool.

Lemma insert_by_perm (x : A) (l : list A) :
  Permutation (insert_by le x l) (x :: l).
Proof.
  induction l as [|y l IH]; simpl; [reflexivity|].
  destruct (le x y); [reflexivity|].
  rewrite IH. apply perm_swap.
Qed.

Lemma sort_by_perm (l : list A) : Permutation (sort_by le l) l.
Proof.
  induction l as [|x l IH]; simpl; [reflexivity|].
  rewrite insert_by_perm. now apply perm_skip.
Qed.

Lemma sort_by_length (l : list A) :
  List.length (sort_by le l) = List.length l.
Proof. apply Permutation_length, sort_by_perm. Qed.

Lemma sort_by_In (x : A) (l : list A) : In x (sort_by le l) <-> In x l.
Proof.
  split; apply Permutation_in;
    [apply sort_by_perm | apply Permutation_sym, sort_by_perm].
Qed.

Lemma insert_by_front (x : A) (l : list A) :
  (forall z, In z l -> le x z = true) -> insert_by le x l = x :: l.
Proof.
  destruct l as [|y l]; simpl; [reflexivity|].
  intros H. now rewrite (H y (or_introl eq_refl)).
Qed.

Lemma insert_by_middle (x : A) (l1 l2 : list A) :
  (forall y, In y l1 -> le x y = false) ->
  (forall z, In z l2 -> le x z = true) ->
  insert_by le x (l1 ++ l2) = l1 ++ x :: l2.
Proof.
  intros H1 H2. induction l1 as [|y l1 IH]; simpl.
  - now apply insert_by_front.
  - rewrite (H1 y (or_introl eq_refl)). f_equal. apply IH.
    intros y' Hy'. apply H1. now right.
Qed.

Lemma StronglySorted_middle (R : A -> A -> Prop) (l1 l2 : list A) (x : A) :
  StronglySorted R (l1 ++ x :: l2) ->
  (forall y, In y l1 -> R y x)
  /\ (forall z, In z l2 -> R x z)
  /\ StronglySorted R (l1 ++ l2).
Proof.
  induction l1 as [|y l1 IH]; simpl; intros H.
  - apply StronglySorted_inv in H. destruct H as [H1 H2].
    repeat split; [contradiction | | exact H1].
    intros z Hz. rewrite Forall_forall in H2. now apply H2.
  - apply StronglySorted_inv in H. destruct H as [H1 H2].
    destruct (IH H1) as (Ha & Hb & Hc).
    rewrite Forall_forall in H2.
    repeat split.
    + intros y' [<-|Hy'].
      * apply H2. apply in_or_app. right. now left.
      * now apply Ha.
    + exact Hb.
    + constructor; [exact Hc|].
      rewrite Forall_forall. intros z Hz. apply H2.
      apply in_app_or in Hz. apply in_or_app.
      destruct Hz; [now left | right; now right].
Qed.

Lemma ordered_firstn_skipn (l : list A) (n : nat) (a b : A) :
  ordered le l -> In a (firstn n l) -> In b (skipn n l) -> le a b = true.
Proof.
  intros Ho. revert n. induction Ho as [|x l Hl IH Hx]; intros n Ha Hb.
  - rewrite firstn_nil in Ha. contradiction.
  - destruct n as [|n]; simpl in *; [contradiction|].
    destruct Ha as [<-|Ha].
    + rewrite Forall_forall in Hx. apply Hx.
      apply (in_skipn _ _ _ Hb).
    + now apply (IH n).
Qed.

Hypothesis le_total : forall a b, le a b = true \/ le b a = true.

(** A list that lists the same records in strictly increasing order is
    what the sort returns. *)
Lemma sort_by_unique (l l' : list A) :
  Permutation l l' -> strictly_ordered le l' -> sort_by le l = l'.
Proof.
  revert l'. induction l as [|x l IH]; intros l' Hp Hs.
  - apply Permutation_nil in Hp. now subst.
  - assert (Hin : In x l').
    { apply (Permutation_in _ Hp). now left. }
    apply in_split in Hin. destruct Hin as (l1 & l2 & ->).
    apply Permutation_cons_app_inv in Hp.
    apply StronglySorted_middle in Hs. destruct Hs as (H1 & H2 & H3).
    simpl. rewrite (IH _ Hp H3).
    apply insert_by_middle; [exact H1|].
    intros z Hz. destruct (le_total x z) as [H|H]; [exact H|].
    rewrite (H2 z Hz) in H. discriminate.
Qed.

Hypothesis le_trans :
  forall a b c, le a b = true -> le b c = true -> le a c = true.

Lemma insert_by_ordered (x : A) (l : list A) :
  ordered le l -> ordered le (insert_by le x l).
Proof.
  intros Ho. induction Ho as [|y l Hl IH Hy]; simpl.
  - constructor; constructor.
  - destruct (le x y) eqn:Hxy.
    + constructor; [constructor; assumption|].
      constructor; [exact Hxy|].
      rewrite Forall_forall in *. intros z Hz.
      apply (le_trans _ y); [exact Hxy | now apply Hy].
    + constructor; [exact IH|].
      rewrite Forall_forall in *. intros z Hz.
      apply (Permutation_in _ (insert_by_perm x l)) in Hz.
      destruct Hz as [<-|Hz]; [|now apply Hy].
      destruct (le_total x y) as [H|H]; [congruence | exact H].
Qed.

Lemma sort_by_ordered (l : list A) : ordered le (sort_by le l).
Proof.
  induction l as [|x l IH]; simpl; [constructor|].
  now apply insert_by_ordered.
Qed.

Lemma insert_by_filter (P : A -> bool) (x : A) (l : list A) :
  ordered le l ->
  filter P (insert_by le x l)
  = if P x then insert_by le x (filter P l) else filter P l.
Proof.
  intros Ho. induction Ho as [|y l Hl IH Hy]; simpl.
  - now destruct (P x).
  - destruct (le x y) eqn:Hxy; simpl.
    + destruct (P x) eqn:Hx; [|reflexivity].
      symmetry. apply insert_by_front.
      intros z Hz.
      assert (Hz' : In z (y :: l)).
      { change (In z (filter P (y :: l))) in Hz.
        now apply filter_In in Hz. }
      destruct Hz' as [<-|Hz']; [exact Hxy|].
      rewrite Forall_forall in Hy.
      apply (le_trans _ y); [exact Hxy | now apply Hy].
    + rewrite IH. destruct (P y) eqn:Hpy; destruct (P x) eqn:Hx; simpl;
        try rewrite Hxy; reflexivity.
Qed.

(** Sorting and filtering commute: the sort is stable. *)
Lemma sort_by_filter (P : A -> bool) (l : list A) :
  filter P (sort_by le l) = sort_by le (filter P l).
Proof.
  induction l as [|x l IH]; simpl; [reflexivity|].
  rewrite insert_by_filter by apply sort_by_ordered.
  destruct (P x); simpl; now rewrite IH.
Qed.

End SortFacts.

Section KeySort.

Context {A : Type}.
Variable key : A -> Z.

Lemma key_le_total (a b : A) :
  (key a <=? key b) = true \/ (key b <=? key a) = true.
Proof. destruct (Z.leb_spec (key a) (key b)); [now left|right]. apply Z.leb_le. lia. Qed.

Lemma key_le_trans (a b c : A) :
  (key a <=? key b) = true -> (key b <=? key c) = true ->
  (key a <=? key c) = true.
Proof. rewrite !Z.leb_le. lia. Qed.

Lemma sort_key_perm (l : list A) : Permutation (sort_key key l) l.
Proof. apply sort_by_perm. Qed.

Lemma sort_key_length (l : list A) :
  List.length (sort_key key l) = List.length l.
Proof. apply sort_by_length. Qed.

Lemma sort_key_In (x : A) (l : list A) : In x (sort_key key l) <-> In x l.
Proof. apply sort_by_In. Qed.

Lemma sort_key_filter (P : A -> bool) (l : list A) :
  filter P (sort_key key l) = sort_key key (filter P l).
Proof.
  apply sort_by_filter.
  - intros a b. apply key_le_total.
  - intros a b c. apply key_le_trans.
Qed.

(** The result of [sort(key=key)] is in non-decreasing key order. *)
Lemma sort_key_sorted (l : list A) :
  StronglySorted (fun a b => key a <= key b) (sort_key key l).
Proof.
  pose proof (sort_by_ordered (fun a b => key a <=? key b)
                (fun a b => key_le_total a b)
                (fun a b c => key_le_trans a b c) l) as H.
  unfold ordered in H. unfold sort_key.
  induction H as [|x l0 Hl IH Hx]; [constructor|].
  constructor; [exact IH|].
  rewrite Forall_forall in *. intros z Hz. apply Z.leb_le. auto.
Qed.

Lemma sort_key_unique (l l' : list A) :
  Permutation l l' ->
  StronglySorted (fun a b => key a < key b) l' ->
  sort_key key l = l'.
Proof.
  intros Hp Hs. apply sort_by_unique; [apply key_le_total | exact Hp |].
  unfold strictly_ordered.
  clear Hp. induction Hs as [|x l0 Hl IH Hx]; [constructor|].
  constructor; [exact IH|].
  rewrite Forall_forall in *. intros z Hz. apply Z.leb_gt. auto.
Qed.

Lemma sorted_key_reverse_perm (l : list A) :
  Permutation (sorted_key_reverse key l) l.
Proof. apply sort_by_perm. Qed.

(** In [sorted(.., reverse=True)] no record of the first [n] has a smaller
    key than a record after them. *)
Lemma sorted_key_reverse_split (l : list A) (n : nat) (a b : A) :
  In a (firstn n (sorted_key_reverse key l)) ->
  In b (skipn n (sorted_key_reverse key l)) ->
  key b <= key a.
Proof.
  intros Ha Hb. apply Z.leb_le.
  apply (ordered_firstn_skipn (fun a b => key b <=? key a)
           (sorted_key_reverse key l) n a b); [|exact Ha|exact Hb].
  apply sort_by_ordered.
  - intros x y. apply key_le_total.
  - intros x y z H1 H2. apply (key_le_trans z y x); assumption.
Qed.

End KeySort.

(** ** Keys of the participants collection *)

Lemma distinct_map_inj {A B : Type} (eqb : B -> B -> bool) (f : A -> B)
    (l : list A) :
  (forall x y, eqb x y = eqb y x) ->
  distinct eqb (map f l) = true ->
  forall a b, In a l -> In b l -> eqb (f a) (f b) = true -> a = b.
Proof.
  intros Hsym. induction l as [|x l IH]; simpl; intros Hd a b Ha Hb Hab;
    [contradiction|].
  apply andb_true_iff in Hd. destruct Hd as [Hx Hd].
  apply negb_true_iff in Hx.
  assert (Hno : forall c, In c l -> eqb (f x) (f c) = false).
  { intros c Hc. destruct (eqb (f x) (f c)) eqn:E; [|reflexivity].
    rewrite <- Hx. symmetry. apply existsb_exists.
    exists (f c). split; [now apply in_map | exact E]. }
  destruct Ha as [<-|Ha], Hb as [<-|Hb].
  - reflexivity.
  - rewrite (Hno b Hb) in Hab. discriminate.
  - rewrite Hsym, (Hno a Ha) in Hab. discriminate.
  - now apply IH.
Qed.

Lemma key_eqb_sym (a b : string * string) : key_eqb a b = key_eqb b a.
Proof.
  unfold key_eqb. now rewrite (String.eqb_sym (fst a)), (String.eqb_sym (snd a)).
Qed.

Lemma ledger_ok_ids (st : Store) (p q : Participant.t) :
  ledger_ok st = true ->
  In p (participants st) -> In q (participants st) ->
  Participant.id p = Participant.id q -> p = q.
Proof.
  unfold ledger_ok, unique_ids. intros H Hp Hq Hid.
  apply andb_true_iff in H. destruct H as [H _].
  apply (distinct_map_inj String.eqb Participant.id (participants st)
           String.eqb_sym H p q Hp Hq).
  now apply String.eqb_eq.
Qed.

Lemma ledger_ok_users (st : Store) (p q : Participant.t) :
  ledger_ok st = true ->
  In p (participants st) -> In q (participants st) ->
  Participant.event_id p = Participant.event_id q ->
  Participant.user_id p = Participant.user_id q -> p = q.
Proof.
  unfold ledger_ok, one_record_per_user. intros H Hp Hq He Hu.
  apply andb_true_iff in H. destruct H as [_ H].
  apply (distinct_map_inj key_eqb user_key (participants st)
           key_eqb_sym H p q Hp Hq).
  unfold key_eqb, user_key. simpl.
  now rewrite He, Hu, !String.eqb_refl.
Qed.

(** A ledger is well formed as long as the ids and the (event, user) pairs
    of its records stay what they are. *)
Lemma ledger_ok_same_keys (st st' : Store) :
  map Participant.id (participants st') = map Participant.id (participants st) ->
  map user_key (participants st') = map user_key (participants st) ->
  ledger_ok st' = ledger_ok st.
Proof.
  unfold ledger_ok, unique_ids, one_record_per_user. now intros -> ->.
Qed.

(** ** Queries *)

Lemma of_user_iff (event_id user_id : string) (p : Participant.t) :
  of_user event_id user_id p = true
  <-> Participant.event_id p = event_id /\ Participant.user_id p = user_id.
Proof.
  unfold of_user. simpl. rewrite andb_true_r, andb_true_iff, !String.eqb_eq.
  reflexivity.
Qed.

Lemma of_status_iff (event_id : string) (s : ParticipantStatus)
    (p : Participant.t) :
  of_status event_id s p = true
  <-> Participant.event_id p = event_id /\ Participant.status p = s.
Proof.
  unfold of_status. simpl.
  rewrite andb_true_r, andb_true_iff, String.eqb_eq, ParticipantStatus_eqb_eq.
  reflexivity.
Qed.

Lemma first_of_filter {A : Type} (f : A -> bool) (l : list A) :
  match firstn 1 (filter f l) with
  | p :: _ => Some p
  | [] => None
  end = find f l.
Proof.
  induction l as [|x l IH]; simpl; [reflexivity|].
  destruct (f x); [reflexivity | exact IH].
Qed.

Lemma get_participant_by_user_find (st : Store) (event_id user_id : string) :
  get_participant_by_user st event_id user_id
  = find (of_user event_id user_id) (participants st).
Proof.
  unfold get_participant_by_user, query_documents, apply_limit.
  apply first_of_filter.
Qed.

Lemma get_participant_by_user_none (st : Store) (event_id user_id : string) :
  (forall p, In p (participants st) ->
     ~ (Participant.event_id p = event_id /\ Participant.user_id p = user_id)) ->
  get_participant_by_user st event_id user_id = None.
Proof.
  intros H. rewrite get_participant_by_user_find.
  destruct (find _ _) as [q|] eqn:E; [|reflexivity].
  apply find_some in E. destruct E as [Hq Hf].
  apply of_user_iff in Hf. now destruct (H q Hq).
Qed.

Lemma get_participant_by_user_some (st : Store) (event_id user_id : string)
    (p : Participant.t) :
  In p (participants st) ->
  Participant.event_id p = event_id -> Participant.user_id p = user_id ->
  exists q,
    get_participant_by_user st event_id user_id = Some q
    /\ In q (participants st)
    /\ Participant.event_id q = event_id /\ Participant.user_id q = user_id.
Proof.
  intros Hp He Hu. rewrite get_participant_by_user_find.
  destruct (find _ _) as [q|] eqn:E.
  - apply find_some in E. destruct E as [Hq Hf].
    apply of_user_iff in Hf. exists q. tauto.
  - exfalso. pose proof (find_none _ _ E p Hp) as Hn.
    assert (Ht : of_user event_id user_id p = true) by now apply of_user_iff.
    congruence.
Qed.

(** With one record per user the lookup returns that record. *)
Lemma get_participant_by_user_unique (st : Store) (p : Participant.t) :
  ledger_ok st = true -> In p (participants st) ->
  get_participant_by_user st (Participant.event_id p) (Participant.user_id p)
  = Some p.
Proof.
  intros Hok Hp.
  destruct (get_participant_by_user_some st _ _ p Hp eq_refl eq_refl)
    as (q & Hq & Hin & He & Hu).
  rewrite Hq. f_equal. now apply (ledger_ok_users st).
Qed.

Lemma get_participants_query (st : Store) (event_id : string) :
  get_participants st event_id None
  = sort_key Participant.joined_at
      (filter (of_status event_id JOINED) (participants st)).
Proof. reflexivity. Qed.

Lemma get_waitlist_query (st : Store) (event_id : string) :
  get_waitlist st event_id None
  = sort_key Participant.position
      (filter (of_status event_id WAITLIST) (participants st)).
Proof. reflexivity. Qed.

Lemma get_participants_In (st : Store) (event_id : string) (p : Participant.t) :
  In p (get_participants st event_id None)
  <-> In p (participants st)
      /\ Participant.event_id p = event_id /\ Participant.status p = JOINED.
Proof.
  rewrite get_participants_query, sort_key_In, filter_In, of_status_iff.
  reflexivity.
Qed.

Lemma get_waitlist_In (st : Store) (event_id : string) (p : Participant.t) :
  In p (get_waitlist st event_id None)
  <-> In p (participants st)
      /\ Participant.event_id p = event_id /\ Participant.status p = WAITLIST.
Proof.
  rewrite get_waitlist_query, sort_key_In, filter_In, of_status_iff.
  reflexivity.
Qed.

(** ** Joining *)

Lemma can_user_join_open (st : Store) (event_id : string) (e : Event.t) :
  get_event st event_id = Some e -> open_status (Event.status e) ->
  can_user_join st event_id = (true, EmptyString).
Proof.
  intros He Hs. unfold can_user_join. rewrite He.
  destruct Hs as [-> | ->]; reflexivity.
Qed.

Lemma join_event_existing (st : Store) (event_id user_id user_name : string)
    (now : datetime) (new_id : string) (slot : nat) (e : Event.t)
    (q : Participant.t) :
  get_event st event_id = Some e -> open_status (Event.status e) ->
  get_participant_by_user st event_id user_id = Some q ->
  join_event st event_id user_id user_name now new_id slot
  = (st, (false, msg_already_participating, None)).
Proof.
  intros He Hs Hq. unfold join_event. rewrite He.
  rewrite (can_user_join_open st event_id e He Hs).
  unfold is_user_participating. rewrite Hq. reflexivity.
Qed.

Lemma join_event_direct (st : Store) (event_id user_id user_name : string)
    (now : datetime) (new_id : string) (slot : nat) (e : Event.t) :
  get_event st event_id = Some e -> open_status (Event.status e) ->
  get_participant_by_user st event_id user_id = None ->
  Z.of_nat (List.length (get_participants st event_id None))
  < Event.max_participants e ->
  let p := Participant.mk event_id user_id user_name JOINED 0 now new_id in
  join_event st event_id user_id user_name now new_id slot
  = (fst (increment_participant_count (create_document st slot new_id p)
            event_id now),
     (true, msg_joined (Event.title e), Some p)).
Proof.
  intros He Hs Hq Hc p. unfold join_event. rewrite He.
  rewrite (can_user_join_open st event_id e He Hs).
  unfold is_user_participating. rewrite Hq.
  apply Z.ltb_lt in Hc. cbv beta iota zeta. rewrite Hc. reflexivity.
Qed.

Lemma join_event_waitlist (st : Store) (event_id user_id user_name : string)
    (now : datetime) (new_id : string) (slot : nat) (e : Event.t) :
  get_event st event_id = Some e -> open_status (Event.status e) ->
  get_participant_by_user st event_id user_id = None ->
  Event.max_participants e
  <= Z.of_nat (List.length (get_participants st event_id None)) ->
  let position := Z.of_nat (List.length (get_waitlist st event_id None)) + 1 in
  let p :=
    Participant.mk event_id user_id user_name WAITLIST position now new_id in
  join_event st event_id user_id user_name now new_id slot
  = (create_document st slot new_id p,
     (true, msg_waitlisted position, Some p)).
Proof.
  intros He Hs Hq Hc position p. unfold join_event. rewrite He.
  rewrite (can_user_join_open st event_id e He Hs).
  unfold is_user_participating. rewrite Hq.
  apply Z.ltb_ge in Hc. cbv beta iota zeta. rewrite Hc. reflexivity.
Qed.

Lemma create_document_In (st : Store) (slot : nat) (p : Participant.t) :
  In p (participants (create_document st slot (Participant.id p) p)).
Proof.
  unfold create_document. simpl. apply in_or_app. right. left.
  now destruct p.
Qed.

(** C5. A user with no record on an event that accepts joins gets a JOINED
    record with position 0, and the joined counter goes up by one, when the
    number of JOINED records is below [max_participants]; otherwise the
    user gets a WAITLIST record with position waitlist length + 1 and the
    event is left as it is.  With a record for (event_id, user_id) already
    there, JOINED or WAITLIST, the join fails with the already-participating
    message and the store is unchanged. *)
Theorem join_event_admission
    (st : Store) (event_id user_id user_name : string) (now : datetime)
    (new_id : string) (slot : nat) (e : Event.t) :
  get_event st event_id = Some e ->
  Event.status e = ACTIVE \/ Event.status e = FULL ->
  let r := join_event st event_id user_id user_name now new_id slot in
  let count := Z.of_nat (List.length (get_participants st event_id None)) in
  let position := Z.of_nat (List.length (get_waitlist st event_id None)) + 1 in
  let no_record :=
    forall p, In p (participants st) ->
      ~ (Participant.event_id p = event_id
         /\ Participant.user_id p = user_id) in
  (no_record -> count < Event.max_participants e ->
     let p := Participant.mk event_id user_id user_name JOINED 0 now new_id in
     snd r = (true, msg_joined (Event.title e), Some p)
     /\ participants (fst r)
        = firstn slot (participants st) ++ p :: skipn slot (participants st)
     /\ exists e',
          get_event (fst r) event_id = Some e'
          /\ Event.current_participants e'
             = Event.current_participants e + 1)
  /\ (no_record -> Event.max_participants e <= count ->
      let p :=
        Participant.mk event_id user_id user_name WAITLIST position now
          new_id in
      snd r = (true, msg_waitlisted position, Some p)
      /\ participants (fst r)
         = firstn slot (participants st) ++ p :: skipn slot (participants st)
      /\ events (fst r) = events st)
  /\ ((exists p, In p (participants st)
                 /\ Participant.event_id p = event_id
                 /\ Participant.user_id p = user_id) ->
      r = (st, (false, msg_already_participating, None)))
  /\ List.length (get_participants st event_id None)
     = List.length (filter (of_status event_id JOINED) (participants st)).
Proof.
  intros He Hs r count position no_record. repeat split.
  - unfold r. rewrite (join_event_direct st _ _ _ _ _ _ e He Hs); auto.
    now apply get_participant_by_user_none.
  - unfold r. rewrite (join_event_direct st _ _ _ _ _ _ e He Hs); auto.
    + simpl. now rewrite (proj1 (increment_ledger _ _ _)).
    + now apply get_participant_by_user_none.
  - unfold r. rewrite (join_event_direct st _ _ _ _ _ _ e He Hs); auto.
    + simpl. apply increment_found. exact He.
    + now apply get_participant_by_user_none.
  - unfold r. rewrite (join_event_waitlist st _ _ _ _ _ _ e He Hs); auto.
    now apply get_participant_by_user_none.
  - unfold r. rewrite (join_event_waitlist st _ _ _ _ _ _ e He Hs); auto.
    now apply get_participant_by_user_none.
  - unfold r. rewrite (join_event_waitlist st _ _ _ _ _ _ e He Hs); auto.
    now apply get_participant_by_user_none.
  - intros (p & Hp & Hpe & Hpu).
    destruct (get_participant_by_user_some st _ _ p Hp Hpe Hpu)
      as (q & Hq & _).
    apply (join_event_existing st _ _ _ _ _ _ e q He Hs Hq).
  - rewrite get_participants_query. apply sort_key_length.
Qed.

Lemma join_event_admission_witness :
  get_event full_store "E" = Some (sample_event 2 2 FULL)
  /\ (Event.status (sample_event 2 2 FULL) = ACTIVE
      \/ Event.status (sample_event 2 2 FULL) = FULL)
  /\ snd (join_event full_store "E" "U4" "Dana" 40 "p4" 3)
     = (true, msg_waitlisted 2,
        Some (Participant.mk "E" "U4" "Dana" WAITLIST 2 40 "p4"))
  /\ join_event full_store "E" "U3" "Cleo" 40 "p4" 3
     = (full_store, (false, msg_already_participating, None)).
Proof.
  pose proof (join_event_admission full_store "E" "U4" "Dana" 40 "p4" 3
                (sample_event 2 2 FULL) eq_refl (or_intror eq_refl))
    as (_ & Hw & _).
  pose proof (join_event_admission full_store "E" "U3" "Cleo" 40 "p4" 3
                (sample_event 2 2 FULL) eq_refl (or_intror eq_refl))
    as (_ & _ & Hx & _).
  split; [reflexivity|]. split; [now right|]. split.
  - apply Hw.
    + intros p Hp [_ Hu]. simpl in Hp.
      repeat (destruct Hp as [<-|Hp]; [discriminate Hu|]). exact Hp.
    + vm_compute. discriminate.
  - apply Hx. exists (sample_record "U3" WAITLIST 1 30 "p3").
    simpl. auto.
Defined.

(** C6. On a CLOSED, CANCELLED or COMPLETED event [join_event] fails with
    the message of that status and returns the store as it was: no record
    is created and no event field changes.  On an ACTIVE or FULL event the
    status check lets the request through, and a user with no record on a
    FULL event whose ledger is at capacity is put on the waitlist. *)
Theorem join_event_status_gate
    (st : Store) (event_id user_id user_name : string) (now : datetime)
    (new_id : string) (slot : nat) (e : Event.t) :
  get_event st event_id = Some e ->
  let r := join_event st event_id user_id user_name now new_id slot in
  match Event.status e with
  | CLOSED => r = (st, (false, msg_recruitment_closed, None))
  | CANCELLED => r = (st, (false, msg_event_cancelled, None))
  | COMPLETED => r = (st, (false, msg_event_completed, None))
  | ACTIVE | FULL =>
      can_user_join st event_id = (true, EmptyString)
      /\ ((forall p, In p (participants st) ->
             ~ (Participant.event_id p = event_id
                /\ Participant.user_id p = user_id)) ->
          fst (fst (snd r)) = true
          /\ (Event.max_participants e
              <= Z.of_nat (List.length (get_participants st event_id None)) ->
              exists p,
                snd (snd r) = Some p
                /\ Participant.status p = WAITLIST
                /\ Participant.position p
                   = Z.of_nat (List.length (get_waitlist st event_id None)) + 1
                /\ In p (participants (fst r))))
  end.
Proof.
  intros He r.
  assert (Hopen : open_status (Event.status e) ->
    can_user_join st event_id = (true, EmptyString)
    /\ ((forall p, In p (participants st) ->
           ~ (Participant.event_id p = event_id
              /\ Participant.user_id p = user_id)) ->
        fst (fst (snd r)) = true
        /\ (Event.max_participants e
            <= Z.of_nat (List.length (get_participants st event_id None)) ->
            exists p,
              snd (snd r) = Some p
              /\ Participant.status p = WAITLIST
              /\ Participant.position p
                 = Z.of_nat (List.length (get_waitlist st event_id None)) + 1
              /\ In p (participants (fst r))))).
  { intros Hs. split; [now apply (can_user_join_open st event_id e)|].
    intros Hno. apply get_participant_by_user_none in Hno. split.
    - destruct (Z.lt_ge_cases
                  (Z.of_nat (List.length (get_participants st event_id None)))
                  (Event.max_participants e)) as [Hc|Hc]; unfold r.
      + now rewrite (join_event_direct st _ _ _ _ _ _ e He Hs Hno Hc).
      + now rewrite (join_event_waitlist st _ _ _ _ _ _ e He Hs Hno Hc).
    - intros Hc. unfold r.
      rewrite (join_event_waitlist st _ _ _ _ _ _ e He Hs Hno Hc).
      eexists. split; [reflexivity|]. split; [reflexivity|].
      split; [reflexivity|]. cbn [fst].
      apply (create_document_In st slot
               (Participant.mk event_id user_id user_name WAITLIST _ now
                  new_id)). }
  destruct (Event.status e) eqn:Hs.
  - apply Hopen. now left.
  - apply Hopen. now right.
  - unfold r, join_event, can_user_join. rewrite He, Hs. reflexivity.
  - unfold r, join_event, can_user_join. rewrite He, Hs. reflexivity.
  - unfold r, join_event, can_user_join. rewrite He, Hs. reflexivity.
Qed.

Lemma join_event_status_gate_witness :
  get_event closed_store "E" = Some (sample_event 2 1 CLOSED)
  /\ join_event closed_store "E" "U2" "Bea" 40 "p2" 0
     = (closed_store, (false, msg_recruitment_closed, None)).
Proof.
  split; [reflexivity|].
  exact (join_event_status_gate closed_store "E" "U2" "Bea" 40 "p2" 0
           (sample_event 2 1 CLOSED) eq_refl).
Defined.

(** C10. The admission gate reads the stored status and nothing else: for
    an event stored as ACTIVE or FULL [can_user_join] answers yes, whatever
    the start time, and gives the same answer for any event stored with the
    same status; so [join_event] still records a user on such an event
    after its start time has passed.  A later change of the counter stores
    the event as COMPLETED, and from then on [can_user_join] refuses. *)
Theorem can_user_join_ignores_clock
    (st : Store) (event_id : string) (e : Event.t) :
  get_event st event_id = Some e ->
  Event.status e = ACTIVE \/ Event.status e = FULL ->
  can_user_join st event_id = (true, EmptyString)
  /\ (forall st2 e2,
        get_event st2 event_id = Some e2 ->
        Event.status e2 = Event.status e ->
        can_user_join st2 event_id = can_user_join st event_id)
  /\ forall user_id user_name now new_id slot,
       Event.start_time e < now ->
       (forall p, In p (participants st) ->
          ~ (Participant.event_id p = event_id
             /\ Participant.user_id p = user_id)) ->
       let r := join_event st event_id user_id user_name now new_id slot in
       (exists p message,
          snd r = (true, message, Some p)
          /\ In p (participants (fst r))
          /\ Participant.event_id p = event_id
          /\ Participant.user_id p = user_id)
       /\ can_user_join (fst (increment_participant_count st event_id now))
            event_id
          = (false, msg_event_completed).
Proof.
  intros He Hs. split; [now apply (can_user_join_open st event_id e)|]. split.
  - intros st2 e2 He2 Hs2. unfold can_user_join. now rewrite He, He2, Hs2.
  - intros user_id user_name now new_id slot Hpast Hno r. split; revgoals.
    { unfold can_user_join.
      rewrite (increment_stored st event_id e now He).
      change (Event.status (Event.set_updated_at now ?x))
        with (Event.status x).
      now rewrite update_status_past. }
    apply get_participant_by_user_none in Hno.
    destruct (Z.lt_ge_cases
                (Z.of_nat (List.length (get_participants st event_id None)))
                (Event.max_participants e)) as [Hc|Hc]; unfold r.
    + rewrite (join_event_direct st _ _ _ _ _ _ e He Hs Hno Hc).
      do 2 eexists. split; [reflexivity|]. cbn [fst].
      rewrite (proj1 (increment_ledger _ _ _)).
      split; [|split; reflexivity].
      apply (create_document_In st slot
               (Participant.mk event_id user_id user_name JOINED 0 now
                  new_id)).
    + rewrite (join_event_waitlist st _ _ _ _ _ _ e He Hs Hno Hc).
      do 2 eexists. split; [reflexivity|]. cbn [fst].
      split; [|split; reflexivity].
      apply (create_document_In st slot
               (Participant.mk event_id user_id user_name WAITLIST _ now
                  new_id)).
Qed.

Lemma can_user_join_ignores_clock_witness :
  get_event sample_store "E" = Some (sample_event 2 0 ACTIVE)
  /\ (Event.status (sample_event 2 0 ACTIVE) = ACTIVE
      \/ Event.status (sample_event 2 0 ACTIVE) = FULL)
  /\ Event.start_time (sample_event 2 0 ACTIVE) < 5000
  /\ can_user_join sample_store "E" = (true, EmptyString)
  /\ exists p message,
       snd (join_event sample_store "E" "U1" "Ann" 5000 "p1" 0)
       = (true, message, Some p)
       /\ In p (participants
                  (fst (join_event sample_store "E" "U1" "Ann" 5000 "p1" 0)))
       /\ Participant.event_id p = "E"%string
       /\ Participant.user_id p = "U1"%string.
Proof.
  pose proof (can_user_join_ignores_clock sample_store "E"
                (sample_event 2 0 ACTIVE) eq_refl (or_introl eq_refl))
    as (H1 & _ & H2).
  split; [reflexivity|]. split; [now left|]. split; [simpl; lia|].
  split; [exact H1|].
  apply (H2 "U1"%string "Ann"%string 5000 "p1"%string 0%nat).
  - simpl; lia.
  - intros p Hp. simpl in Hp. contradiction.
Defined.

(** ** Writes to the participants collection *)

Lemma distinct_NoDup (l : list string) :
  distinct String.eqb l = true -> NoDup l.
Proof.
  induction l as [|x l IH]; simpl; intros H; [constructor|].
  apply andb_true_iff in H. destruct H as [Hx Hd].
  constructor; [|now apply IH].
  intros Hin. apply negb_true_iff in Hx.
  assert (Ht : existsb (String.eqb x) l = true).
  { apply existsb_exists. exists x.
    split; [exact Hin | apply String.eqb_refl]. }
  congruence.
Qed.

Lemma NoDup_map_filter {A B : Type} (f : A -> B) (P : A -> bool)
    (l : list A) :
  NoDup (map f l) -> NoDup (map f (filter P l)).
Proof.
  induction l as [|x l IH]; simpl; intros H; [constructor|].
  apply NoDup_cons_iff in H. destruct H as [Hx Hl].
  destruct (P x); simpl; [|now apply IH].
  constructor; [|now apply IH].
  intros Hin. apply Hx. apply in_map_iff in Hin.
  destruct Hin as (y & Hy & Hin). apply filter_In in Hin.
  apply in_map_iff. exists y. tauto.
Qed.

Lemma unique_ids_inj (st : Store) (p q : Participant.t) :
  unique_ids st = true ->
  In p (participants st) -> In q (participants st) ->
  Participant.id p = Participant.id q -> p = q.
Proof.
  unfold unique_ids. intros H Hp Hq Hid.
  apply (distinct_map_inj String.eqb Participant.id (participants st)
           String.eqb_sym H p q Hp Hq).
  now apply String.eqb_eq.
Qed.

Lemma waitlist_ids_NoDup (st : Store) (event_id : string) :
  unique_ids st = true ->
  NoDup (map Participant.id (get_waitlist st event_id None)).
Proof.
  intros H. rewrite get_waitlist_query.
  apply (Permutation_NoDup
           (l := map Participant.id
                   (filter (of_status event_id WAITLIST) (participants st)))).
  - apply Permutation_map, Permutation_sym, sort_key_perm.
  - apply NoDup_map_filter. now apply distinct_NoDup.
Qed.

Lemma has_id_eq (doc_id : string) (p : Participant.t) :
  has_id doc_id p = true <-> Participant.id p = doc_id.
Proof. unfold has_id. apply String.eqb_eq. Qed.

Lemma has_id_neq (doc_id : string) (p : Participant.t) :
  has_id doc_id p = false <-> Participant.id p <> doc_id.
Proof. unfold has_id. apply String.eqb_neq. Qed.

Lemma replace_doc_ids (doc_id : string) (doc : Participant.t)
    (l : list Participant.t) :
  Participant.id doc = doc_id ->
  map Participant.id (map (replace_doc doc_id doc) l) = map Participant.id l.
Proof.
  intros Hd. rewrite map_map. apply map_ext. intros q. unfold replace_doc.
  destruct (has_id doc_id q) eqn:E; [|reflexivity].
  apply has_id_eq in E. congruence.
Qed.

Lemma replace_doc_other (doc_id : string) (doc q : Participant.t)
    (l : list Participant.t) :
  In q l -> Participant.id q <> doc_id ->
  In q (map (replace_doc doc_id doc) l).
Proof.
  intros Hq Hne. apply in_map_iff. exists q. split; [|exact Hq].
  unfold replace_doc. apply has_id_neq in Hne. now rewrite Hne.
Qed.

(** An update of a document that is there, with data that carries its id. *)
Lemma update_document_In (st : Store) (p data : Participant.t) :
  In p (participants st) -> Participant.id data = Participant.id p ->
  update_document st (Participant.id p) data
  = Some (mkStore (events st)
            (map (replace_doc (Participant.id p) data) (participants st))
            (update_log st ++ [data])).
Proof.
  intros Hp Hid. unfold update_document.
  assert (He : existsb (has_id (Participant.id p)) (participants st) = true).
  { apply existsb_exists. exists p. split; [exact Hp|now apply has_id_eq]. }
  rewrite He. rewrite <- Hid. now destruct data.
Qed.

(** ** Resequencing the waitlist *)

Lemma new_position_none (index : Z) (waitlist : list Participant.t)
    (doc_id : string) :
  ~ In doc_id (map Participant.id waitlist) ->
  new_position index waitlist doc_id = None.
Proof.
  revert index. induction waitlist as [|p rest IH]; intros index H;
    [reflexivity|].
  simpl in *. destruct (has_id doc_id p) eqn:E.
  - apply has_id_eq in E. tauto.
  - apply IH. tauto.
Qed.

Lemma renumbered_outside (index : Z) (waitlist : list Participant.t)
    (q : Participant.t) :
  ~ In (Participant.id q) (map Participant.id waitlist) ->
  renumbered index waitlist q = q.
Proof.
  intros H. unfold renumbered. now rewrite new_position_none.
Qed.

Lemma set_position_same (p : Participant.t) :
  Participant.set_position (Participant.position p) p = p.
Proof. now destruct p. Qed.

Lemma renumber_spec (waitlist : list Participant.t) :
  forall (st : Store) (index : Z),
    unique_ids st = true ->
    NoDup (map Participant.id waitlist) ->
    (forall p, In p waitlist -> In p (participants st)) ->
    exists st',
      renumber st index waitlist = (st', true)
      /\ participants st'
         = map (renumbered index waitlist) (participants st)
      /\ events st' = events st
      /\ update_log st' = update_log st ++ rewritten index waitlist.
Proof.
  induction waitlist as [|p rest IH]; intros st index Hu Hnd Hin.
  - exists st. simpl. repeat split.
    + rewrite <- (map_id (participants st)) at 1. now apply map_ext.
    + now rewrite app_nil_r.
  - apply NoDup_cons_iff in Hnd. destruct Hnd as [Hp Hnd].
    assert (Hpin : In p (participants st)) by (apply Hin; now left).
    simpl. destruct (Participant.position p =? index) eqn:Hpos.
    + destruct (IH st (index + 1) Hu Hnd) as (st' & Hr & Hps & Hes & Hlog).
      { intros r Hr. apply Hin. now right. }
      exists st'. repeat split; try assumption.
      rewrite Hps. apply map_ext_in. intros q Hq.
      unfold renumbered. simpl.
      destruct (has_id (Participant.id q) p) eqn:E; [|reflexivity].
      apply has_id_eq in E.
      assert (q = p) by now apply (unique_ids_inj st).
      subst q. rewrite new_position_none by exact Hp.
      apply Z.eqb_eq in Hpos. rewrite <- Hpos. now rewrite set_position_same.
    + set (p1 := Participant.set_position index p).
      rewrite (update_document_In st p p1 Hpin eq_refl).
      set (st1 := mkStore _ _ _).
      destruct (IH st1 (index + 1)) as (st' & Hr & Hps & Hes & Hlog).
      * unfold unique_ids, st1. simpl.
        rewrite replace_doc_ids by reflexivity. exact Hu.
      * exact Hnd.
      * intros r Hr. unfold st1. simpl. apply replace_doc_other.
        -- apply Hin. now right.
        -- intros Heq. apply Hp. rewrite <- Heq. now apply in_map.
      * exists st'. repeat split; try assumption.
        -- rewrite Hps. unfold st1. simpl. rewrite map_map.
           apply map_ext_in. intros q Hq.
           unfold replace_doc, renumbered at 2. simpl.
           unfold has_id at 1 2. rewrite (String.eqb_sym (Participant.id p)).
           destruct (String.eqb (Participant.id q) (Participant.id p)) eqn:E.
           ++ apply String.eqb_eq in E.
              assert (q = p) by now apply (unique_ids_inj st).
              subst q. now apply renumbered_outside.
           ++ reflexivity.
        -- rewrite Hlog. unfold st1. simpl. now rewrite <- app_assoc.
Qed.

Lemma renumbered_enumerate (waitlist : list Participant.t) :
  forall index,
    NoDup (map Participant.id waitlist) ->
    map (renumbered index waitlist) waitlist
    = enumerate_positions index waitlist.
Proof.
  induction waitlist as [|p rest IH]; intros index Hnd; [reflexivity|].
  apply NoDup_cons_iff in Hnd. destruct Hnd as [Hp Hnd].
  cbn [map enumerate_positions]. f_equal.
  - unfold renumbered. simpl. unfold has_id. now rewrite String.eqb_refl.
  - rewrite <- (IH (index + 1) Hnd). apply map_ext_in. intros r Hr.
    unfold renumbered. simpl.
    destruct (has_id (Participant.id r) p) eqn:E; [|reflexivity].
    apply has_id_eq in E. exfalso. apply Hp. rewrite E. now apply in_map.
Qed.

Lemma enumerate_positions_lower (waitlist : list Participant.t) :
  forall index z,
    In z (enumerate_positions index waitlist) ->
    index <= Participant.position z.
Proof.
  induction waitlist as [|p rest IH]; intros index z Hz; [contradiction|].
  simpl in Hz. destruct Hz as [<-|Hz]; [simpl; lia|].
  apply IH in Hz. lia.
Qed.

Lemma enumerate_positions_sorted (waitlist : list Participant.t) :
  forall index,
    StronglySorted
      (fun a b => Participant.position a < Participant.position b)
      (enumerate_positions index waitlist).
Proof.
  induction waitlist as [|p rest IH]; intros index; simpl; constructor.
  - apply IH.
  - rewrite Forall_forall. intros z Hz.
    apply enumerate_positions_lower in Hz. simpl. lia.
Qed.

Lemma enumerate_positions_seq (waitlist : list Participant.t) :
  forall i : nat,
    map Participant.position (enumerate_positions (Z.of_nat i) waitlist)
    = map Z.of_nat (seq i (List.length waitlist)).
Proof.
  induction waitlist as [|p rest IH]; intros i; [reflexivity|].
  simpl. f_equal. rewrite <- IH. do 2 f_equal. lia.
Qed.

Lemma enumerate_positions_unpositioned (waitlist : list Participant.t) :
  forall index,
    map unpositioned (enumerate_positions index waitlist)
    = map unpositioned waitlist.
Proof.
  induction waitlist as [|p rest IH]; intros index; [reflexivity|].
  simpl. now rewrite IH.
Qed.

Lemma rewritten_changed (waitlist : list Participant.t) :
  forall index,
    rewritten index waitlist
    = map snd (filter position_changed
                 (combine waitlist (enumerate_positions index waitlist))).
Proof.
  induction waitlist as [|p rest IH]; intros index; [reflexivity|].
  simpl. unfold position_changed at 1. simpl.
  destruct (Participant.position p =? index); simpl; now rewrite IH.
Qed.

Lemma filter_map_commute {A : Type} (f : A -> bool) (g : A -> A)
    (l : list A) :
  (forall x, f (g x) = f x) -> filter f (map g l) = map g (filter f l).
Proof.
  intros H. induction l as [|x l IH]; simpl; [reflexivity|].
  rewrite H. destruct (f x); simpl; now rewrite IH.
Qed.

Lemma renumbered_of_status (index : Z) (waitlist : list Participant.t)
    (event_id : string) (s : ParticipantStatus) (q : Participant.t) :
  of_status event_id s (renumbered index waitlist q) = of_status event_id s q.
Proof.
  unfold renumbered. now destruct (new_position _ _ _).
Qed.

(** What [_update_waitlist_positions] does to a store whose document ids
    are distinct. *)
Lemma update_waitlist_positions_spec (st : Store) (event_id : string) :
  unique_ids st = true ->
  let waitlist := get_waitlist st event_id None in
  exists st',
    _update_waitlist_positions st event_id = (st', true)
    /\ participants st' = map (renumbered 1 waitlist) (participants st)
    /\ events st' = events st
    /\ update_log st' = update_log st ++ rewritten 1 waitlist
    /\ get_waitlist st' event_id None = enumerate_positions 1 waitlist.
Proof.
  intros Hu waitlist.
  pose proof (waitlist_ids_NoDup st event_id Hu) as Hnd.
  destruct (renumber_spec waitlist st 1 Hu Hnd)
    as (st' & Hr & Hps & Hes & Hlog).
  { intros p Hp. now apply get_waitlist_In in Hp. }
  exists st'. repeat split; try assumption.
  rewrite get_waitlist_query, Hps.
  rewrite filter_map_commute by (intros x; apply renumbered_of_status).
  apply sort_key_unique.
  - rewrite <- (renumbered_enumerate waitlist 1 Hnd).
    apply Permutation_map. unfold waitlist. rewrite get_waitlist_query.
    apply Permutation_sym, sort_key_perm.
  - apply enumerate_positions_sorted.
Qed.

(** C8. After [_update_waitlist_positions] the positions of the waitlist
    of the event are 1, 2, ..., N with no gap and no duplicate, the
    waitlisted records are the same records in the order they had before,
    and the documents written are exactly those of the records whose
    position changed. *)
Theorem update_waitlist_positions_contiguous
    (st : Store) (event_id : string) :
  unique_ids st = true ->
  let before := get_waitlist st event_id None in
  let r := _update_waitlist_positions st event_id in
  let after := get_waitlist (fst r) event_id None in
  snd r = true
  /\ map Participant.position after
     = map Z.of_nat (seq 1 (List.length before))
  /\ map unpositioned after = map unpositioned before
  /\ update_log (fst r)
     = update_log st
       ++ map snd (filter position_changed (combine before after))
  /\ events (fst r) = events st.
Proof.
  intros Hu before r after.
  destruct (update_waitlist_positions_spec st event_id Hu)
    as (st' & Hr & Hps & Hes & Hlog & Hw).
  unfold after, r. rewrite Hr. cbn [fst snd]. rewrite Hw.
  fold before. repeat split.
  - apply (enumerate_positions_seq before 1).
  - apply enumerate_positions_unpositioned.
  - rewrite Hlog. fold before. now rewrite rewritten_changed.
  - exact Hes.
Qed.

Lemma update_waitlist_positions_contiguous_witness :
  unique_ids gapped_store = true
  /\ map Participant.position
       (get_waitlist (fst (_update_waitlist_positions gapped_store "E"))
          "E" None)
     = [1; 2; 3]
  /\ map Participant.id
       (update_log (fst (_update_waitlist_positions gapped_store "E")))
     = ["p4"%string; "p5"%string].
Proof.
  pose proof (update_waitlist_positions_contiguous gapped_store "E" eq_refl)
    as (_ & H1 & _ & H2 & _).
  split; [reflexivity|]. split.
  - rewrite H1. reflexivity.
  - rewrite H2. reflexivity.
Defined.

(** ** Leaving

    [_promote_from_waitlist] asks the store for one waitlisted record
    ([limit=1]) and sorts what it gets: it promotes the record the store
    streams first, whatever its position. *)

Lemma get_waitlist_limit_one (st : Store) (event_id : string) :
  get_waitlist st event_id (Some 1%nat)
  = match find (of_status event_id WAITLIST) (participants st) with
    | Some p => [p]
    | None => []
    end.
Proof.
  unfold get_waitlist, query_documents, apply_limit.
  change (fun p => forallb (matches p) [event_id_eq event_id; status_eq WAITLIST])
    with (of_status event_id WAITLIST).
  induction (participants st) as [|x l IH]; [reflexivity|].
  cbn [filter find]. destruct (of_status event_id WAITLIST x); [|exact IH].
  reflexivity.
Qed.

(** C1, at a store that streams U4 (position 2) before U3 (position 1):
    when the joined user U1 leaves, [leave_event] promotes U4 and returns
    "U4", and U3, the front of the waitlist, stays on it. *)
Theorem leave_event_promotes_first_streamed :
  participants four_joins = participants streamed_store
  /\ map (fun p => (Participant.user_id p, Participant.position p))
       (get_waitlist streamed_store "E" None)
     = [("U3"%string, 1); ("U4"%string, 2)]
  /\ snd (snd (leave_event streamed_store "E" "U1" 50)) = Some "U4"%string
  /\ map (fun p => (Participant.user_id p, Participant.status p,
                    Participant.position p))
       (participants (fst (leave_event streamed_store "E" "U1" 50)))
     = [("U4"%string, JOINED, 0); ("U2"%string, JOINED, 0);
        ("U3"%string, WAITLIST, 1)].
Proof. repeat split. Qed.

(** ** Promotion and demotion: one document at a time *)

Lemma filter_all {A : Type} (P : A -> bool) (l : list A) :
  (forall x, In x l -> P x = true) -> filter P l = l.
Proof.
  induction l as [|x l IH]; simpl; intros H; [reflexivity|].
  rewrite (H x (or_introl eq_refl)). f_equal. apply IH.
  intros y Hy. apply H. now right.
Qed.

(** A document that leaves the range of a filter. *)
Lemma filter_replace_doc (f : Participant.t -> bool) (doc_id : string)
    (doc : Participant.t) (l : list Participant.t) :
  f doc = false ->
  filter f (map (replace_doc doc_id doc) l)
  = filter (fun q => negb (has_id doc_id q)) (filter f l).
Proof.
  intros Hd. induction l as [|x l IH]; [reflexivity|].
  cbn [map filter]. rewrite IH. unfold replace_doc.
  destruct (has_id doc_id x) eqn:E.
  - rewrite Hd. destruct (f x); [|reflexivity].
    cbn [filter]. now rewrite E.
  - destruct (f x); [|reflexivity].
    cbn [filter]. now rewrite E.
Qed.

Lemma replace_doc_keys (st : Store) (p doc : Participant.t) :
  unique_ids st = true -> In p (participants st) ->
  user_key doc = user_key p ->
  map user_key (map (replace_doc (Participant.id p) doc) (participants st))
  = map user_key (participants st).
Proof.
  intros Hu Hp Hk. rewrite map_map. apply map_ext_in. intros q Hq.
  unfold replace_doc. destruct (has_id (Participant.id p) q) eqn:E;
    [|reflexivity].
  apply has_id_eq in E.
  assert (q = p) by now apply (unique_ids_inj st).
  now subst q.
Qed.

Lemma replace_doc_In (p doc : Participant.t) (l : list Participant.t) :
  In p l -> In doc (map (replace_doc (Participant.id p) doc) l).
Proof.
  intros Hp. apply in_map_iff. exists p. split; [|exact Hp].
  unfold replace_doc, has_id. now rewrite String.eqb_refl.
Qed.

Lemma renumbered_id (index : Z) (waitlist : list Participant.t)
    (q : Participant.t) :
  Participant.id (renumbered index waitlist q) = Participant.id q.
Proof. unfold renumbered. now destruct (new_position _ _ _). Qed.

Lemma renumbered_key (index : Z) (waitlist : list Participant.t)
    (q : Participant.t) :
  user_key (renumbered index waitlist q) = user_key q.
Proof. unfold renumbered. now destruct (new_position _ _ _). Qed.

Lemma get_waitlist_participants (st st' : Store) (event_id : string)
    (limit : option nat) :
  participants st' = participants st ->
  get_waitlist st' event_id limit = get_waitlist st event_id limit.
Proof. unfold get_waitlist, query_documents. now intros ->. Qed.

Lemma get_participants_participants (st st' : Store) (event_id : string)
    (limit : option nat) :
  participants st' = participants st ->
  get_participants st' event_id limit = get_participants st event_id limit.
Proof. unfold get_participants, query_documents. now intros ->. Qed.

Lemma ledger_ok_unique_ids (st : Store) :
  ledger_ok st = true -> unique_ids st = true.
Proof. unfold ledger_ok. intros H. now apply andb_true_iff in H. Qed.

Lemma promoted_unpositioned (p : Participant.t) :
  promoted (unpositioned p) = promoted p.
Proof. reflexivity. Qed.

Lemma rewritten_not_joined (waitlist : list Participant.t) :
  (forall r, In r waitlist -> Participant.status r = WAITLIST) ->
  forall index, filter is_joined (rewritten index waitlist) = [].
Proof.
  induction waitlist as [|p rest IH]; intros H index; [reflexivity|].
  simpl. assert (Hp : Participant.status p = WAITLIST)
    by (apply H; now left).
  assert (Hr : filter is_joined (rewritten (index + 1) rest) = []).
  { apply IH. intros r Hr. apply H. now right. }
  destruct (Participant.position p =? index); [exact Hr|].
  simpl. unfold is_joined at 1. simpl. rewrite Hp. exact Hr.
Qed.

(** Promoting the user at the head of the waitlist. *)
Lemma promote_head (st : Store) (event_id : string) (now : datetime)
    (p : Participant.t) (rest : list Participant.t) :
  ledger_ok st = true ->
  get_waitlist st event_id None = p :: rest ->
  exists st',
    promote_from_waitlist st event_id (Participant.user_id p) now
    = (st', true)
    /\ map Participant.id (participants st')
       = map Participant.id (participants st)
    /\ map user_key (participants st') = map user_key (participants st)
    /\ get_waitlist st' event_id None = enumerate_positions 1 rest
    /\ update_log st' = update_log st ++ promoted p :: rewritten 1 rest
    /\ In (promoted p) (participants st')
    /\ (forall q, In q (participants st) ->
          Participant.status q = JOINED -> In q (participants st')).
Proof.
  intros Hok Hw.
  pose proof (ledger_ok_unique_ids st Hok) as Hu.
  assert (Hp : In p (get_waitlist st event_id None))
    by (rewrite Hw; now left).
  apply get_waitlist_In in Hp. destruct Hp as (Hpin & Hpe & Hps).
  pose proof (waitlist_ids_NoDup st event_id Hu) as Hnd.
  rewrite Hw in Hnd. simpl in Hnd.
  apply NoDup_cons_iff in Hnd. destruct Hnd as [Hpr Hnd].
  assert (Hrest : forall r, In r rest ->
            In r (participants st) /\ Participant.status r = WAITLIST
            /\ Participant.id r <> Participant.id p).
  { intros r Hr.
    assert (Hr' : In r (get_waitlist st event_id None))
      by (rewrite Hw; now right).
    apply get_waitlist_In in Hr'. destruct Hr' as (H1 & _ & H2).
    repeat split; try assumption.
    intros Heq. apply Hpr. rewrite <- Heq. now apply in_map. }
  unfold promote_from_waitlist.
  rewrite <- Hpe, (get_participant_by_user_unique st p Hok Hpin), Hps, Hpe.
  rewrite (update_document_In st p (promoted p) Hpin eq_refl).
  set (st1 := mkStore _ _ _).
  set (st2 := fst (increment_participant_count st1 event_id now)).
  assert (Hps2 : participants st2
                 = map (replace_doc (Participant.id p) (promoted p))
                     (participants st)).
  { unfold st2. now rewrite (proj1 (increment_ledger _ _ _)). }
  assert (Hlog2 : update_log st2 = update_log st ++ [promoted p]).
  { unfold st2. now rewrite (proj2 (increment_ledger _ _ _)). }
  assert (Hu2 : unique_ids st2 = true).
  { unfold unique_ids. rewrite Hps2, replace_doc_ids by reflexivity.
    exact Hu. }
  assert (Hw2 : get_waitlist st2 event_id None = rest).
  { rewrite get_waitlist_query, Hps2.
    rewrite filter_replace_doc
      by (unfold of_status; simpl; now rewrite andb_false_r).
    rewrite <- sort_key_filter, <- get_waitlist_query, Hw. simpl.
    unfold has_id at 1. rewrite String.eqb_refl. simpl.
    apply filter_all. intros r Hr. apply negb_true_iff, has_id_neq.
    now apply Hrest. }
  destruct (update_waitlist_positions_spec st2 event_id Hu2)
    as (st' & Hr & Hps' & Hes' & Hlog' & Hw').
  rewrite Hw2 in Hps', Hlog', Hw'.
  rewrite Hr. cbn [fst]. exists st'. split; [reflexivity|].
  assert (Hout : forall q,
            In q (participants st) ->
            ~ In (Participant.id q) (map Participant.id rest) ->
            Participant.id q <> Participant.id p \/ q = p ->
            In (renumbered 1 rest
                  (replace_doc (Participant.id p) (promoted p) q))
               (participants st')).
  { intros q Hq _ _. rewrite Hps', Hps2, map_map.
    apply in_map_iff. now exists q. }
  repeat split.
  - rewrite Hps', map_map.
    rewrite (map_ext _ Participant.id) by (intros q; apply renumbered_id).
    rewrite Hps2. now apply replace_doc_ids.
  - rewrite Hps', map_map.
    rewrite (map_ext _ user_key) by (intros q; apply renumbered_key).
    rewrite Hps2. now apply replace_doc_keys.
  - exact Hw'.
  - rewrite Hlog', Hlog2, <- app_assoc. reflexivity.
  - rewrite Hps'. apply in_map_iff. exists (promoted p). split.
    + now apply renumbered_outside.
    + rewrite Hps2. now apply replace_doc_In.
  - intros q Hq Hqs. rewrite Hps'. apply in_map_iff. exists q. split.
    + apply renumbered_outside. intros Hin.
      apply in_map_iff in Hin. destruct Hin as (r & Hid & Hr').
      destruct (Hrest r Hr') as (H1 & H2 & _).
      assert (r = q) by now apply (unique_ids_inj st).
      subst r. congruence.
    + rewrite Hps2. apply replace_doc_other; [exact Hq|].
      intros Heq. assert (q = p) by now apply (unique_ids_inj st).
      subst q. congruence.
Qed.

(** ** Capacity increase *)

Lemma enumerate_positions_ext (a : list Participant.t) :
  forall (b : list Participant.t) (index : Z),
    map unpositioned a = map unpositioned b ->
    enumerate_positions index a = enumerate_positions index b.
Proof.
  induction a as [|x a IH]; intros [|y b] index H; try discriminate;
    [reflexivity|].
  cbn [map] in H.
  assert (Hxy : unpositioned x = unpositioned y) by congruence.
  assert (Hab : map unpositioned a = map unpositioned b) by congruence.
  cbn [enumerate_positions]. f_equal.
  - change (Participant.set_position index (unpositioned x)
            = Participant.set_position index (unpositioned y)).
    now rewrite Hxy.
  - now apply IH.
Qed.

Lemma enumerate_positions_length (waitlist : list Participant.t) :
  forall index,
    List.length (enumerate_positions index waitlist) = List.length waitlist.
Proof.
  induction waitlist as [|p rest IH]; intros index; simpl; auto.
Qed.

Lemma promote_each_spec (event_id : string) (now : datetime)
    (chosen : list Participant.t) :
  forall (st : Store) (rest : list Participant.t),
    ledger_ok st = true ->
    map unpositioned (get_waitlist st event_id None)
    = map unpositioned (chosen ++ rest) ->
    let st' := promote_each st event_id now chosen in
    ledger_ok st' = true
    /\ map user_key (participants st') = map user_key (participants st)
    /\ map unpositioned (get_waitlist st' event_id None)
       = map unpositioned rest
    /\ (chosen <> [] ->
        get_waitlist st' event_id None = enumerate_positions 1 rest)
    /\ (exists new_log,
          update_log st' = update_log st ++ new_log
          /\ filter is_joined new_log = map promoted chosen)
    /\ (forall t, In t chosen -> In (promoted t) (participants st'))
    /\ (forall q, In q (participants st) ->
          Participant.status q = JOINED -> In q (participants st')).
Proof.
  induction chosen as [|t chosen IH]; intros st rest Hok Hw st'.
  - unfold st'. simpl. repeat split; auto.
    + congruence.
    + exists []. now rewrite app_nil_r.
    + contradiction.
  - destruct (get_waitlist st event_id None) as [|p tail] eqn:Hwc;
      [discriminate|].
    cbn [map app] in Hw.
    assert (Hpt : unpositioned p = unpositioned t) by congruence.
    assert (Htail : map unpositioned tail
                    = map unpositioned (chosen ++ rest)) by congruence.
    assert (Hut : Participant.user_id t = Participant.user_id p).
    { change (Participant.user_id (unpositioned t)
              = Participant.user_id (unpositioned p)). now rewrite Hpt. }
    assert (Hpp : promoted p = promoted t).
    { rewrite <- (promoted_unpositioned p), <- (promoted_unpositioned t).
      now rewrite Hpt. }
    destruct (promote_head st event_id now p tail Hok Hwc)
      as (st1 & Hr & Hids & Hkeys & Hw1 & Hlog1 & Hin1 & Hj1).
    assert (Hok1 : ledger_ok st1 = true).
    { now rewrite (ledger_ok_same_keys st st1 Hids Hkeys). }
    assert (Hst' : st' = promote_each st1 event_id now chosen).
    { unfold st', promote_each. simpl. now rewrite Hut, Hr. }
    assert (Hw1' : map unpositioned (get_waitlist st1 event_id None)
                   = map unpositioned (chosen ++ rest)).
    { now rewrite Hw1, enumerate_positions_unpositioned. }
    destruct (IH st1 rest Hok1 Hw1')
      as (Hok' & Hkeys' & Hw' & Hne' & (new_log & Hlog' & Hfil') & Hin' & Hj').
    rewrite <- Hst' in *.
    assert (Htailw : forall r, In r tail -> Participant.status r = WAITLIST).
    { intros r Hr'.
      assert (Hr2 : In r (get_waitlist st event_id None))
        by (rewrite Hwc; now right).
      now apply get_waitlist_In in Hr2. }
    repeat split.
    + exact Hok'.
    + now rewrite Hkeys'.
    + exact Hw'.
    + intros _. destruct chosen as [|c chosen'].
      * rewrite Hst'. unfold promote_each. simpl. rewrite Hw1.
        now apply enumerate_positions_ext.
      * apply Hne'. discriminate.
    + exists (promoted p :: rewritten 1 tail ++ new_log). split.
      * rewrite Hlog', Hlog1, <- app_assoc. reflexivity.
      * cbn [filter]. unfold is_joined at 1. cbn.
        rewrite filter_app, (rewritten_not_joined tail Htailw), Hfil', Hpp.
        reflexivity.
    + intros t' [<-|Ht'].
      * apply Hj'; [now rewrite <- Hpp | reflexivity].
      * now apply Hin'.
    + intros q Hq Hqs. apply Hj'; [|exact Hqs]. now apply Hj1.
Qed.

Lemma status_partition (event_id : string) (l : list Participant.t) :
  (List.length (filter (of_status event_id JOINED) l)
   + List.length (filter (of_status event_id WAITLIST) l))%nat
  = List.length (filter (fun k => String.eqb (fst k) event_id)
                   (map user_key l)).
Proof.
  induction l as [|p l IH]; [reflexivity|].
  cbn [map filter].
  replace (of_status event_id JOINED p)
    with (String.eqb (Participant.event_id p) event_id
          && ParticipantStatus_eqb (Participant.status p) JOINED)
    by (unfold of_status; simpl; now rewrite andb_true_r).
  replace (of_status event_id WAITLIST p)
    with (String.eqb (Participant.event_id p) event_id
          && ParticipantStatus_eqb (Participant.status p) WAITLIST)
    by (unfold of_status; simpl; now rewrite andb_true_r).
  replace (fst (user_key p)) with (Participant.event_id p) by reflexivity.
  destruct (String.eqb (Participant.event_id p) event_id);
    destruct (Participant.status p); cbn [andb ParticipantStatus_eqb List.length];
    lia.
Qed.

(** C3. On a capacity increase with [available = new_max - joined count]
    positive and a waitlist that is not empty, [_handle_capacity_change]
    promotes exactly [min(available, waitlist length)] users: the
    promotions it writes are, in this order, those of the first records of
    the waitlist sorted by position, each with status JOINED and position
    0; these records are in the store afterwards, the rest of the waitlist
    is renumbered from 1, and the joined count rises by that number. *)
Theorem capacity_increase_promotes_in_order
    (st : Store) (event : Event.t) (old_max_participants : Z)
    (now : datetime) :
  ledger_ok st = true ->
  let joined := get_participants st (Event.id event) None in
  let waitlist := get_waitlist st (Event.id event) None in
  let available :=
    Event.max_participants event - Z.of_nat (List.length joined) in
  old_max_participants < Event.max_participants event ->
  0 < available ->
  waitlist <> [] ->
  let k := Z.to_nat (Z.min available (Z.of_nat (List.length waitlist))) in
  let r := _handle_capacity_change st event old_max_participants now in
  List.length (firstn k waitlist) = k
  /\ StronglySorted
       (fun a b => Participant.position a <= Participant.position b)
       waitlist
  /\ (exists new_log,
        update_log (fst r) = update_log st ++ new_log
        /\ filter is_joined new_log = map promoted (firstn k waitlist))
  /\ (forall p, In p (firstn k waitlist) ->
        In (promoted p) (participants (fst r)))
  /\ get_waitlist (fst r) (Event.id event) None
     = enumerate_positions 1 (skipn k waitlist)
  /\ List.length (get_participants (fst r) (Event.id event) None)
     = (List.length joined + k)%nat
  /\ Event.current_participants (snd r)
     = Z.of_nat (List.length joined + k).
Proof.
  intros Hok joined waitlist available Hmax Hav Hne k r.
  assert (Hlen : (0 < List.length waitlist)%nat).
  { destruct waitlist; [congruence | simpl; lia]. }
  assert (Hk : (1 <= k <= List.length waitlist)%nat) by (unfold k; lia).
  assert (Hr : r = (promote_each st (Event.id event) now (firstn k waitlist),
                    Event.set_current_participants
                      (Z.of_nat
                         (List.length
                            (get_participants
                               (promote_each st (Event.id event) now
                                  (firstn k waitlist))
                               (Event.id event) None))) event)).
  { unfold r, _handle_capacity_change.
    fold joined. fold waitlist. fold available.
    rewrite (proj2 (Z.ltb_lt _ _) Hmax), (proj2 (Z.ltb_lt _ _) Hav).
    destruct (Nat.eqb_spec (List.length waitlist) 0) as [E|E]; [lia|].
    reflexivity. }
  destruct (promote_each_spec (Event.id event) now (firstn k waitlist) st
              (skipn k waitlist) Hok)
    as (Hok' & Hkeys & Hw & Hwe & Hlog & Hin & Hj).
  { now rewrite firstn_skipn. }
  set (st' := promote_each st (Event.id event) now (firstn k waitlist)) in *.
  assert (Hfirst : firstn k waitlist <> []).
  { intros E. apply (f_equal (@List.length _)) in E.
    rewrite length_firstn in E. simpl in E. lia. }
  specialize (Hwe Hfirst).
  assert (Hcount : List.length (get_participants st' (Event.id event) None)
                   = (List.length joined + k)%nat).
  { pose proof (status_partition (Event.id event) (participants st')) as H1.
    pose proof (status_partition (Event.id event) (participants st)) as H2.
    rewrite Hkeys in H1. rewrite <- H2 in H1.
    assert (HW' : List.length
                    (filter (of_status (Event.id event) WAITLIST)
                       (participants st'))
                  = (List.length waitlist - k)%nat).
    { rewrite <- (sort_key_length Participant.position).
      rewrite <- get_waitlist_query, Hwe, enumerate_positions_length.
      apply length_skipn. }
    assert (HW : List.length
                   (filter (of_status (Event.id event) WAITLIST)
                      (participants st))
                 = List.length waitlist).
    { unfold waitlist. now rewrite get_waitlist_query, sort_key_length. }
    assert (HJ : List.length
                   (filter (of_status (Event.id event) JOINED)
                      (participants st))
                 = List.length joined).
    { unfold joined. now rewrite get_participants_query, sort_key_length. }
    rewrite get_participants_query, sort_key_length. lia. }
  rewrite Hr. cbn [fst snd]. repeat split.
  - rewrite length_firstn. lia.
  - unfold waitlist. rewrite get_waitlist_query. apply sort_key_sorted.
  - exact Hlog.
  - exact Hin.
  - exact Hwe.
  - exact Hcount.
  - unfold Event.set_current_participants.
    cbn [Event.current_participants]. now rewrite Hcount.
Qed.

Lemma capacity_increase_promotes_in_order_witness :
  ledger_ok waiting_store = true
  /\ 2 < Event.max_participants (sample_event 4 2 FULL)
  /\ map Participant.user_id
       (get_waitlist
          (fst (_handle_capacity_change waiting_store
                  (sample_event 4 2 FULL) 2 60)) "E" None)
     = ["C"%string]
  /\ exists new_log,
       update_log (fst (_handle_capacity_change waiting_store
                          (sample_event 4 2 FULL) 2 60))
       = update_log waiting_store ++ new_log
       /\ map Participant.user_id (filter is_joined new_log)
          = ["A"%string; "B"%string].
Proof.
  assert (H1 : 2 < Event.max_participants (sample_event 4 2 FULL))
    by (simpl; lia).
  pose proof (capacity_increase_promotes_in_order waiting_store
                (sample_event 4 2 FULL) 2 60 eq_refl H1 eq_refl)
    as H.
  destruct H as (_ & _ & (new_log & Hl & Hf) & _ & Hw & _).
  { vm_compute. discriminate. }
  split; [reflexivity|]. split; [exact H1|]. split.
  - change (Event.id (sample_event 4 2 FULL)) with "E"%string in Hw.
    rewrite Hw. reflexivity.
  - exists new_log. split; [exact Hl|]. rewrite Hf. reflexivity.
Defined.

(** ** Capacity decrease *)

Lemma participants_ids_NoDup (st : Store) (event_id : string) :
  unique_ids st = true ->
  NoDup (map Participant.id (get_participants st event_id None)).
Proof.
  intros H. rewrite get_participants_query.
  apply (Permutation_NoDup
           (l := map Participant.id
                   (filter (of_status event_id JOINED) (participants st)))).
  - apply Permutation_map, Permutation_sym, sort_key_perm.
  - apply NoDup_map_filter. now apply distinct_NoDup.
Qed.

Lemma filter_out_one (p : Participant.t) (l : list Participant.t) :
  NoDup (map Participant.id l) -> In p l ->
  S (List.length (filter (fun q => negb (has_id (Participant.id p) q)) l))
  = List.length l.
Proof.
  induction l as [|x l IH]; intros Hnd Hp; [contradiction|].
  cbn [map] in Hnd. apply NoDup_cons_iff in Hnd. destruct Hnd as [Hx Hnd].
  cbn [filter]. destruct (has_id (Participant.id p) x) eqn:E; cbn [negb].
  - rewrite filter_all; [reflexivity|].
    intros r Hr. apply negb_true_iff, has_id_neq.
    apply has_id_eq in E. intros Heq. apply Hx. rewrite E, <- Heq.
    now apply in_map.
  - destruct Hp as [->|Hp].
    + unfold has_id in E. rewrite String.eqb_refl in E. discriminate.
    + cbn [List.length]. f_equal. now apply IH.
Qed.

(** Demoting a joined user of the event. *)
Lemma demote_step (st : Store) (event_id : string) (now : datetime)
    (p : Participant.t) :
  ledger_ok st = true ->
  In p (participants st) ->
  Participant.event_id p = event_id ->
  Participant.status p = JOINED ->
  let n := Z.of_nat (List.length (get_waitlist st event_id None)) + 1 in
  exists st',
    demote_to_waitlist st event_id (Participant.user_id p) now = (st', true)
    /\ participants st'
       = map (replace_doc (Participant.id p) (demoted n p)) (participants st)
    /\ update_log st' = update_log st ++ [demoted n p].
Proof.
  intros Hok Hpin Hpe Hps n. unfold demote_to_waitlist.
  rewrite <- Hpe, (get_participant_by_user_unique st p Hok Hpin), Hps, Hpe.
  fold n. rewrite (update_document_In st p (demoted n p) Hpin eq_refl).
  eexists. split; [reflexivity|]. cbn [fst].
  now rewrite (proj1 (decrement_ledger _ _ _)),
              (proj2 (decrement_ledger _ _ _)).
Qed.

Lemma not_among_cons (d : Participant.t) (chosen : list Participant.t)
    (q : Participant.t) :
  not_among (d :: chosen) q
  = negb (has_id (Participant.id d) q) && not_among chosen q.
Proof.
  unfold not_among. cbn [existsb]. rewrite negb_orb. f_equal. f_equal.
  unfold has_id. apply String.eqb_sym.
Qed.

Lemma filter_filter {A : Type} (f g : A -> bool) (l : list A) :
  filter f (filter g l) = filter (fun x => g x && f x) l.
Proof.
  induction l as [|x l IH]; [reflexivity|].
  cbn [filter]. destruct (g x); cbn [filter andb]; now rewrite IH.
Qed.

Lemma demote_each_spec (event_id : string) (now : datetime)
    (chosen : list Participant.t) :
  forall st : Store,
    ledger_ok st = true ->
    NoDup (map Participant.id chosen) ->
    (forall d, In d chosen ->
       In d (participants st)
       /\ Participant.event_id d = event_id
       /\ Participant.status d = JOINED) ->
    let st' := demote_each st event_id now chosen in
    let n := Z.of_nat (List.length (get_waitlist st event_id None)) in
    let written :=
      enumerate_positions (n + 1)
        (map (Participant.set_status WAITLIST) chosen) in
    ledger_ok st' = true
    /\ map user_key (participants st') = map user_key (participants st)
    /\ update_log st' = update_log st ++ written
    /\ get_participants st' event_id None
       = filter (not_among chosen) (get_participants st event_id None)
    /\ List.length (get_waitlist st' event_id None)
       = (List.length (get_waitlist st event_id None)
          + List.length chosen)%nat
    /\ (forall d, In d written -> In d (participants st'))
    /\ (forall q, In q (participants st) ->
          ~ In (Participant.id q) (map Participant.id chosen) ->
          In q (participants st')).
Proof.
  induction chosen as [|d chosen IH]; intros st Hok Hnd Hin st' n written.
  - unfold st', written. cbn. repeat split; auto.
    + now rewrite app_nil_r.
    + symmetry. now apply filter_all.
    + contradiction.
  - cbn [map] in Hnd. apply NoDup_cons_iff in Hnd. destruct Hnd as [Hd Hnd].
    destruct (Hin d (or_introl eq_refl)) as (Hdin & Hde & Hds).
    pose proof (ledger_ok_unique_ids st Hok) as Hu.
    destruct (demote_step st event_id now d Hok Hdin Hde Hds)
      as (st1 & Hr & Hps1 & Hlog1).
    fold n in Hps1, Hlog1.
    assert (Hids1 : map Participant.id (participants st1)
                    = map Participant.id (participants st)).
    { rewrite Hps1. now apply replace_doc_ids. }
    assert (Hkeys1 : map user_key (participants st1)
                     = map user_key (participants st)).
    { rewrite Hps1. now apply replace_doc_keys. }
    assert (Hok1 : ledger_ok st1 = true).
    { now rewrite (ledger_ok_same_keys st st1 Hids1 Hkeys1). }
    assert (Hj1 : get_participants st1 event_id None
                  = filter (fun q => negb (has_id (Participant.id d) q))
                      (get_participants st event_id None)).
    { rewrite !get_participants_query, Hps1.
      rewrite filter_replace_doc
        by (unfold of_status; simpl; now rewrite andb_false_r).
      symmetry. apply sort_key_filter. }
    assert (Hw1 : List.length (get_waitlist st1 event_id None)
                  = S (List.length (get_waitlist st event_id None))).
    { pose proof (status_partition event_id (participants st1)) as H1.
      pose proof (status_partition event_id (participants st)) as H2.
      rewrite Hkeys1, <- H2 in H1.
      assert (HJ : S (List.length
                        (filter (of_status event_id JOINED)
                           (participants st1)))
                   = List.length
                       (filter (of_status event_id JOINED)
                          (participants st))).
      { rewrite <- (sort_key_length Participant.joined_at
                      (filter _ (participants st1))).
        rewrite <- get_participants_query, Hj1.
        rewrite <- (sort_key_length Participant.joined_at
                      (filter _ (participants st))).
        rewrite <- get_participants_query.
        apply filter_out_one.
        - now apply participants_ids_NoDup.
        - apply get_participants_In. tauto. }
      rewrite !get_waitlist_query, !sort_key_length. lia. }
    assert (Hst' : st' = demote_each st1 event_id now chosen).
    { unfold st', demote_each. cbn [fold_left]. now rewrite Hr. }
    destruct (IH st1 Hok1 Hnd)
      as (Hok' & Hkeys' & Hlog' & Hj' & Hw' & Hwr' & Hkeep').
    { intros c Hc. destruct (Hin c (or_intror Hc)) as (H1 & H2 & H3).
      repeat split; try assumption.
      rewrite Hps1. apply replace_doc_other; [exact H1|].
      intros Heq. apply Hd. rewrite <- Heq. now apply in_map. }
    rewrite <- Hst' in *.
    assert (Hn1 : Z.of_nat (List.length (get_waitlist st1 event_id None))
                  = n + 1).
    { rewrite Hw1. unfold n. lia. }
    rewrite Hn1 in Hlog', Hwr'.
    repeat split.
    + exact Hok'.
    + now rewrite Hkeys'.
    + rewrite Hlog', Hlog1, <- app_assoc. reflexivity.
    + rewrite Hj', Hj1, filter_filter. apply filter_ext.
      intros q. now rewrite not_among_cons.
    + rewrite Hw', Hw1. cbn [List.length]. lia.
    + intros x Hx. unfold written in Hx. cbn [map enumerate_positions] in Hx.
      destruct Hx as [<-|Hx].
      * apply Hkeep'.
        -- rewrite Hps1. now apply replace_doc_In.
        -- exact Hd.
      * now apply Hwr'.
    + intros q Hq Hnot. cbn [map] in Hnot. apply Hkeep'.
      * rewrite Hps1. apply replace_doc_other; [exact Hq|].
        intros Heq. apply Hnot. now left.
      * intros Hc. apply Hnot. now right.
Qed.

(** C4. On a capacity decrease that leaves more joined users than places,
    [_handle_capacity_change] demotes exactly [excess = joined count -
    new_max] users, the first [excess] of the joined records sorted by join
    time, latest first; it writes them in that order with status WAITLIST
    and positions waitlist length + 1, + 2, ...; the joined users left are
    the others, [new_max] of them, and none of them joined later than a
    demoted user.  The new capacity is not negative: it comes from
    [validate_max_participants], which admits 2 to 50. *)
Theorem capacity_decrease_demotes_latest
    (st : Store) (event : Event.t) (old_max_participants : Z)
    (now : datetime) :
  ledger_ok st = true ->
  let joined := get_participants st (Event.id event) None in
  let waitlist := get_waitlist st (Event.id event) None in
  let new_max := Event.max_participants event in
  new_max < old_max_participants ->
  0 <= new_max ->
  new_max < Z.of_nat (List.length joined) ->
  let excess := Z.to_nat (Z.of_nat (List.length joined) - new_max) in
  let chosen :=
    firstn excess (sorted_key_reverse Participant.joined_at joined) in
  let written :=
    enumerate_positions (Z.of_nat (List.length waitlist) + 1)
      (map (Participant.set_status WAITLIST) chosen) in
  let r := _handle_capacity_change st event old_max_participants now in
  List.length chosen = excess
  /\ update_log (fst r) = update_log st ++ written
  /\ (forall d, In d written -> In d (participants (fst r)))
  /\ get_participants (fst r) (Event.id event) None
     = filter (not_among chosen) joined
  /\ Z.of_nat (List.length (get_participants (fst r) (Event.id event) None))
     = new_max
  /\ (forall d q,
        In d chosen ->
        In q (get_participants (fst r) (Event.id event) None) ->
        Participant.joined_at q <= Participant.joined_at d)
  /\ List.length (get_waitlist (fst r) (Event.id event) None)
     = (List.length waitlist + excess)%nat
  /\ Event.current_participants (snd r) = new_max.
Proof.
  intros Hok joined waitlist new_max Hdec Hpos Hover excess chosen written r.
  pose proof (ledger_ok_unique_ids st Hok) as Hu.
  set (sorted := sorted_key_reverse Participant.joined_at joined) in *.
  assert (Hperm : Permutation sorted joined)
    by apply sorted_key_reverse_perm.
  assert (Hlen : List.length chosen = excess).
  { unfold chosen. rewrite length_firstn, (Permutation_length Hperm).
    unfold excess. lia. }
  assert (Hr : r = (demote_each st (Event.id event) now chosen,
                    Event.set_current_participants
                      (Z.of_nat
                         (List.length
                            (get_participants
                               (demote_each st (Event.id event) now chosen)
                               (Event.id event) None))) event)).
  { unfold r, _handle_capacity_change.
    fold joined. fold waitlist. fold new_max.
    rewrite (proj2 (Z.ltb_ge _ _)) by lia.
    rewrite (proj2 (Z.ltb_lt _ _) Hdec), (proj2 (Z.ltb_lt _ _) Hover).
    reflexivity. }
  assert (Hnd : NoDup (map Participant.id chosen)).
  { assert (Hs : NoDup (map Participant.id sorted)).
    { apply (Permutation_NoDup (l := map Participant.id joined)).
      - apply Permutation_map, Permutation_sym, Hperm.
      - now apply participants_ids_NoDup. }
    rewrite <- (firstn_skipn excess sorted), map_app in Hs.
    now apply NoDup_app_remove_r in Hs. }
  assert (Hin : forall d, In d chosen ->
            In d (participants st)
            /\ Participant.event_id d = Event.id event
            /\ Participant.status d = JOINED).
  { intros d Hd. apply get_participants_In.
    apply (Permutation_in _ Hperm). now apply (in_firstn _ excess). }
  destruct (demote_each_spec (Event.id event) now chosen st Hok Hnd Hin)
    as (Hok' & Hkeys & Hlog & Hj & Hw & Hwr & _).
  set (st' := demote_each st (Event.id event) now chosen) in *.
  fold waitlist in Hlog, Hw, Hwr. fold joined in Hj.
  assert (Hcount : Z.of_nat
                     (List.length (get_participants st' (Event.id event) None))
                   = new_max).
  { pose proof (status_partition (Event.id event) (participants st')) as H1.
    pose proof (status_partition (Event.id event) (participants st)) as H2.
    rewrite Hkeys, <- H2 in H1.
    assert (HW' : List.length
                    (filter (of_status (Event.id event) WAITLIST)
                       (participants st'))
                  = (List.length waitlist + List.length chosen)%nat).
    { rewrite <- (sort_key_length Participant.position).
      now rewrite <- get_waitlist_query. }
    assert (HW : List.length
                   (filter (of_status (Event.id event) WAITLIST)
                      (participants st))
                 = List.length waitlist).
    { unfold waitlist. now rewrite get_waitlist_query, sort_key_length. }
    assert (HJ : List.length
                   (filter (of_status (Event.id event) JOINED)
                      (participants st))
                 = List.length joined).
    { unfold joined. now rewrite get_participants_query, sort_key_length. }
    rewrite get_participants_query, sort_key_length. unfold excess in Hlen.
    lia. }
  rewrite Hr. cbn [fst snd]. repeat split.
  - exact Hlen.
  - exact Hlog.
  - exact Hwr.
  - exact Hj.
  - exact Hcount.
  - intros d q Hd Hq. rewrite Hj in Hq. apply filter_In in Hq.
    destruct Hq as [Hqj Hqn].
    apply (sorted_key_reverse_split Participant.joined_at joined excess);
      [exact Hd|].
    fold sorted. apply (Permutation_in _ (Permutation_sym Hperm)) in Hqj.
    rewrite <- (firstn_skipn excess sorted) in Hqj.
    apply in_app_or in Hqj. destruct Hqj as [Hqc|Hqs]; [|exact Hqs].
    exfalso. unfold not_among in Hqn. apply negb_true_iff in Hqn.
    assert (Ht : existsb (has_id (Participant.id q)) chosen = true).
    { apply existsb_exists. exists q. split; [exact Hqc|].
      now apply has_id_eq. }
    congruence.
  - rewrite Hw, Hlen. reflexivity.
  - unfold Event.set_current_participants.
    cbn [Event.current_participants]. exact Hcount.
Qed.

Lemma capacity_decrease_demotes_latest_witness :
  ledger_ok joined_store = true
  /\ Event.max_participants (sample_event 2 3 FULL) < 3
  /\ 0 <= Event.max_participants (sample_event 2 3 FULL)
  /\ map (fun p => (Participant.user_id p, Participant.position p))
       (update_log (fst (_handle_capacity_change joined_store
                           (sample_event 2 3 FULL) 3 60)))
     = [("C"%string, 2)]
  /\ map Participant.user_id
       (get_participants
          (fst (_handle_capacity_change joined_store
                  (sample_event 2 3 FULL) 3 60)) "E" None)
     = ["A"%string; "B"%string].
Proof.
  assert (H1 : Event.max_participants (sample_event 2 3 FULL) < 3)
    by (simpl; lia).
  assert (H2 : 0 <= Event.max_participants (sample_event 2 3 FULL))
    by (simpl; lia).
  pose proof (capacity_decrease_demotes_latest joined_store
                (sample_event 2 3 FULL) 3 60 eq_refl H1 H2 eq_refl)
    as (_ & Hl & _ & Hj & _).
  split; [reflexivity|]. split; [exact H1|]. split; [exact H2|]. split.
  - rewrite Hl. reflexivity.
  - change (Event.id (sample_event 2 3 FULL)) with "E"%string in Hj.
    rewrite Hj. reflexivity.
Defined.

(** ** The reminder sweep *)


Lemma check_reminder_due (reminder_minutes : Z) (now : datetime)
    (st : Store) (sent : list Attempt) (e : Event.t) :
  check_reminder reminder_minutes now (st, sent) e
  = if due reminder_minutes now e
    then (fst (_send_reminder st e now),
          sent ++ [snd (_send_reminder st e now)])
    else (st, sent).
Proof.
  unfold check_reminder, due.
  destruct (Event.reminder_sent e); [reflexivity|].
  destruct (reminder_status (Event.status e)); [|reflexivity].
  cbn [negb andb].
  destruct (should_send_reminder _ _ _ _); [|reflexivity].
  now destruct (_send_reminder st e now).
Qed.












(** * Further properties of the services *)

(** ** Listings *)

Lemma apply_limit_length {A : Type} (n : nat) (l : list A) :
  (List.length (apply_limit (Some (S n)) l) <= S n)%nat.
Proof. unfold apply_limit. rewrite length_firstn. lia. Qed.

Lemma query_limit_In (st : Store) (filters : list Filter) (limit : option nat)
    (p : Participant.t) :
  In p (query_documents st filters limit) ->
  In p (query_documents st filters None).
Proof.
  unfold query_documents, apply_limit.
  destruct limit as [[|n]|]; auto. apply in_firstn.
Qed.

(** X1. [get_participants] and [get_waitlist] return exactly the JOINED,
    respectively WAITLIST, records of the event, each once, in ascending
    order of [joined_at], respectively [position]; a limit of 0 does not
    limit, and a positive limit bounds the length of the result, whose
    records are records of the full listing. *)
Theorem listings_are_exact_and_sorted (st : Store) (event_id : string) :
  let joined := get_participants st event_id None in
  let waitlist := get_waitlist st event_id None in
  Permutation joined (filter (of_status event_id JOINED) (participants st))
  /\ Permutation waitlist
       (filter (of_status event_id WAITLIST) (participants st))
  /\ StronglySorted
       (fun a b => Participant.joined_at a <= Participant.joined_at b) joined
  /\ StronglySorted
       (fun a b => Participant.position a <= Participant.position b) waitlist
  /\ get_participants st event_id (Some 0%nat) = joined
  /\ get_waitlist st event_id (Some 0%nat) = waitlist
  /\ forall n,
       (List.length (get_participants st event_id (Some (S n))) <= S n)%nat
       /\ (List.length (get_waitlist st event_id (Some (S n))) <= S n)%nat
       /\ (forall p, In p (get_participants st event_id (Some (S n))) ->
             In p joined)
       /\ (forall p, In p (get_waitlist st event_id (Some (S n))) ->
             In p waitlist).
Proof.
  intros joined waitlist. unfold joined, waitlist.
  split; [rewrite get_participants_query; apply sort_key_perm|].
  split; [rewrite get_waitlist_query; apply sort_key_perm|].
  split; [rewrite get_participants_query; apply sort_key_sorted|].
  split; [rewrite get_waitlist_query; apply sort_key_sorted|].
  split; [reflexivity|]. split; [reflexivity|].
  intros n. unfold get_participants, get_waitlist. repeat split.
  - rewrite sort_key_length. apply apply_limit_length.
  - rewrite sort_key_length. apply apply_limit_length.
  - intros p Hp. apply sort_key_In. apply sort_key_In in Hp.
    now apply (query_limit_In st _ (Some (S n))).
  - intros p Hp. apply sort_key_In. apply sort_key_In in Hp.
    now apply (query_limit_In st _ (Some (S n))).
Qed.

Lemma listings_are_exact_and_sorted_witness :
  StronglySorted
    (fun a b => Participant.position a <= Participant.position b)
    (get_waitlist streamed_store "E" None)
  /\ (forall p, In p (get_waitlist streamed_store "E" (Some 1%nat)) ->
        In p (get_waitlist streamed_store "E" None)).
Proof.
  pose proof (listings_are_exact_and_sorted streamed_store "E")
    as (_ & _ & _ & Hs & _ & _ & Hn).
  split; [exact Hs|]. apply (Hn 0%nat).
Defined.

(** X2. [is_user_participating] answers yes exactly when the store holds a
    record of the user for the event, JOINED or WAITLIST, and
    [get_participant_by_user] then returns such a record. *)
Theorem is_user_participating_iff_record
    (st : Store) (event_id user_id : string) :
  (is_user_participating st event_id user_id = true
   <-> exists p, In p (participants st)
                 /\ Participant.event_id p = event_id
                 /\ Participant.user_id p = user_id)
  /\ (forall q, get_participant_by_user st event_id user_id = Some q ->
        In q (participants st)
        /\ Participant.event_id q = event_id
        /\ Participant.user_id q = user_id).
Proof.
  assert (Hq : forall q,
            get_participant_by_user st event_id user_id = Some q ->
            In q (participants st)
            /\ Participant.event_id q = event_id
            /\ Participant.user_id q = user_id).
  { intros q Hq. rewrite get_participant_by_user_find in Hq.
    apply find_some in Hq. destruct Hq as [Hin Hf].
    apply of_user_iff in Hf. tauto. }
  split; [|exact Hq]. unfold is_user_participating. split.
  - destruct (get_participant_by_user st event_id user_id) as [q|] eqn:E;
      [|discriminate].
    intros _. exists q. now apply Hq.
  - intros (p & Hp & He & Hu).
    destruct (get_participant_by_user_some st _ _ p Hp He Hu) as (q & -> & _).
    reflexivity.
Qed.

Lemma is_user_participating_iff_record_witness :
  is_user_participating full_store "E" "U3" = true
  /\ is_user_participating full_store "E" "U9" = false.
Proof.
  pose proof (is_user_participating_iff_record full_store "E" "U3")
    as [[_ Hyes] _].
  split.
  - apply Hyes. exists (sample_record "U3" WAITLIST 1 30 "p3").
    cbn. tauto.
  - reflexivity.
Defined.

(** ** Writing and reading an event *)



(** ** The status follows the counter *)

Lemma update_status_open (now : datetime) (e : Event.t) :
  open_status (Event.status e) -> now <= Event.start_time e ->
  Event.status (Event.update_status now e)
  = if Event.max_participants e <=? Event.current_participants e
    then FULL else ACTIVE.
Proof.
  intros Hs Hn. rewrite update_status_status. unfold recompute_status_spec.
  assert (Hf : (Event.start_time e <? now) = false) by (apply Z.ltb_ge; lia).
  destruct (Z.leb_spec (Event.max_participants e)
              (Event.current_participants e)) as [Hc|Hc];
    destruct Hs as [-> | ->];
    repeat match goal with
      | |- context [?a >=? ?b] =>
          let H := fresh in destruct (Z.geb_spec a b) as [H|H]
      | |- context [Event.current_participants e <? ?b] =>
          let H := fresh in
          destruct (Z.ltb_spec (Event.current_participants e) b) as [H|H]
      end; try lia; now rewrite Hf.
Qed.

Lemma decrement_stored (st : Store) (event_id : string) (e : Event.t)
    (now : datetime) :
  get_event st event_id = Some e ->
  get_event (fst (decrement_participant_count st event_id now)) event_id
  = Some (Event.set_updated_at now
            (Event.update_status now
               (Event.set_current_participants
                  (Z.max 0 (Event.current_participants e - 1)) e))).
Proof.
  intros H. unfold decrement_participant_count. rewrite H.
  pose proof (get_event_id _ _ _ H) as Hid.
  set (e1 := Event.update_status now _).
  assert (Hid1 : Event.id e1 = event_id).
  { unfold e1. rewrite update_status_id. exact Hid. }
  destruct (update_event_found st e e1 now) as (st' & Hu & Hg & _).
  { now rewrite Hid1. }
  rewrite Hu. cbn [fst]. now rewrite Hid1 in Hg.
Qed.

(** X4. On an ACTIVE or FULL event whose start time has not passed, the
    status stored by [increment_participant_count] and by
    [decrement_participant_count] is FULL when the new counter has reached
    [max_participants] and ACTIVE when it has not; on an event that is not
    stored both return [False] and change nothing. *)
Theorem counter_change_sets_status
    (st : Store) (event_id : string) (now : datetime) :
  (get_event st event_id = None ->
   increment_participant_count st event_id now = (st, false)
   /\ decrement_participant_count st event_id now = (st, false))
  /\ forall e,
       get_event st event_id = Some e ->
       Event.status e = ACTIVE \/ Event.status e = FULL ->
       now <= Event.start_time e ->
       (exists e',
          get_event (fst (increment_participant_count st event_id now))
            event_id = Some e'
          /\ Event.current_participants e'
             = Event.current_participants e + 1
          /\ Event.status e'
             = if Event.max_participants e
                  <=? Event.current_participants e + 1
               then FULL else ACTIVE)
       /\ exists e',
            get_event (fst (decrement_participant_count st event_id now))
              event_id = Some e'
            /\ Event.current_participants e'
               = Z.max 0 (Event.current_participants e - 1)
            /\ Event.status e'
               = if Event.max_participants e
                    <=? Z.max 0 (Event.current_participants e - 1)
                 then FULL else ACTIVE.
Proof.
  split.
  - intros Hn. unfold increment_participant_count,
      decrement_participant_count. now rewrite Hn.
  - intros e He Hs Hn. split.
    + rewrite (increment_stored st event_id e now He). eexists.
      split; [reflexivity|].
      change (Event.current_participants (Event.set_updated_at now ?x))
        with (Event.current_participants x).
      change (Event.status (Event.set_updated_at now ?x))
        with (Event.status x).
      rewrite update_status_current, update_status_open; auto.
    + rewrite (decrement_stored st event_id e now He). eexists.
      split; [reflexivity|].
      change (Event.current_participants (Event.set_updated_at now ?x))
        with (Event.current_participants x).
      change (Event.status (Event.set_updated_at now ?x))
        with (Event.status x).
      rewrite update_status_current, update_status_open; auto.
Qed.

Lemma counter_change_sets_status_witness :
  get_event full_store "E" = Some (sample_event 2 2 FULL)
  /\ 40 <= Event.start_time (sample_event 2 2 FULL)
  /\ exists e',
       get_event (fst (decrement_participant_count full_store "E" 40)) "E"
       = Some e'
       /\ Event.current_participants e' = 1
       /\ Event.status e' = ACTIVE.
Proof.
  split; [reflexivity|]. split; [simpl; lia|].
  destruct (proj2 (counter_change_sets_status full_store "E" 40)
              (sample_event 2 2 FULL) eq_refl (or_intror eq_refl))
    as [_ H].
  - simpl; lia.
  - exact H.
Defined.

(** X5. An event that [can_accept_participants] is ACTIVE, below capacity
    and not yet started, and [update_status] at the same time changes
    nothing of it but the [updated_at] stamp; a FULL event never accepts. *)
Theorem can_accept_participants_is_stable (now : datetime) (e : Event.t) :
  (can_accept_participants now e = true
   <-> Event.status e = ACTIVE
       /\ Event.current_participants e < Event.max_participants e
       /\ now < Event.start_time e)
  /\ (can_accept_participants now e = true ->
      Event.update_status now e = Event.set_updated_at now e)
  /\ (Event.status e = FULL -> can_accept_participants now e = false).
Proof.
  assert (Hiff : can_accept_participants now e = true
                 <-> Event.status e = ACTIVE
                     /\ Event.current_participants e
                        < Event.max_participants e
                     /\ now < Event.start_time e).
  { unfold can_accept_participants, Event.is_full.
    rewrite !andb_true_iff, negb_true_iff, EventStatus_eqb_eq, Z.leb_gt,
      Z.ltb_lt. tauto. }
  split; [exact Hiff|]. split.
  - intros H. apply Hiff in H. destruct H as (Hs & Hc & Hn).
    unfold Event.update_status, Event.is_full.
    rewrite Hs. rewrite (proj2 (Z.leb_gt _ _) Hc). cbn.
    rewrite Hs. cbn. rewrite (proj2 (Z.ltb_ge _ _)) by lia. reflexivity.
  - intros Hs. unfold can_accept_participants. now rewrite Hs.
Qed.

Lemma can_accept_participants_is_stable_witness :
  can_accept_participants 40 (sample_event 2 1 ACTIVE) = true
  /\ Event.update_status 40 (sample_event 2 1 ACTIVE)
     = Event.set_updated_at 40 (sample_event 2 1 ACTIVE).
Proof.
  split; [reflexivity|].
  apply (proj1 (proj2 (can_accept_participants_is_stable 40
                         (sample_event 2 1 ACTIVE)))).
  reflexivity.
Defined.

(** ** Resequencing twice *)

Lemma renumber_contiguous (waitlist : list Participant.t) :
  forall (st : Store) (i : nat),
    map Participant.position waitlist
    = map Z.of_nat (seq i (List.length waitlist)) ->
    renumber st (Z.of_nat i) waitlist = (st, true).
Proof.
  induction waitlist as [|p rest IH]; intros st i H; [reflexivity|].
  cbn [map List.length seq] in H.
  assert (Hp : Participant.position p = Z.of_nat i) by congruence.
  assert (Hr : map Participant.position rest
               = map Z.of_nat (seq (S i) (List.length rest))) by congruence.
  cbn [renumber]. rewrite Hp, Z.eqb_refl.
  replace (Z.of_nat i + 1) with (Z.of_nat (S i)) by lia.
  now apply IH.
Qed.

(** X6. When the positions of the waitlist are already 1, 2, ..., N,
    [_update_waitlist_positions] writes nothing and returns the store as
    it is; in particular a second call right after a first one changes
    nothing. *)
Theorem update_waitlist_positions_idempotent
    (st : Store) (event_id : string) :
  (map Participant.position (get_waitlist st event_id None)
   = map Z.of_nat (seq 1 (List.length (get_waitlist st event_id None))) ->
   _update_waitlist_positions st event_id = (st, true))
  /\ (unique_ids st = true ->
      let st1 := fst (_update_waitlist_positions st event_id) in
      _update_waitlist_positions st1 event_id = (st1, true)).
Proof.
  split.
  - intros H. unfold _update_waitlist_positions.
    now apply (renumber_contiguous _ st 1).
  - intros Hu st1.
    destruct (update_waitlist_positions_spec st event_id Hu)
      as (st' & Hr & _ & _ & _ & Hw).
    unfold st1. rewrite Hr. cbn [fst].
    unfold _update_waitlist_positions.
    apply (renumber_contiguous _ st' 1).
    rewrite Hw, enumerate_positions_length.
    apply (enumerate_positions_seq _ 1).
Qed.

Lemma update_waitlist_positions_idempotent_witness :
  unique_ids gapped_store = true
  /\ _update_waitlist_positions
       (fst (_update_waitlist_positions gapped_store "E")) "E"
     = (fst (_update_waitlist_positions gapped_store "E"), true).
Proof.
  split; [reflexivity|].
  apply (proj2 (update_waitlist_positions_idempotent gapped_store "E")).
  reflexivity.
Defined.

(** ** Leaving without a promotion *)

Lemma distinct_filter {A B : Type} (eqb : B -> B -> bool) (f : A -> B)
    (P : A -> bool) (l : list A) :
  distinct eqb (map f l) = true -> distinct eqb (map f (filter P l)) = true.
Proof.
  induction l as [|x l IH]; [reflexivity|].
  cbn [map distinct filter]. intros H. apply andb_true_iff in H.
  destruct H as [Hx Hl]. destruct (P x); [|now apply IH].
  cbn [map distinct]. apply andb_true_iff. split; [|now apply IH].
  apply negb_true_iff. apply negb_true_iff in Hx.
  destruct (existsb (eqb (f x)) (map f (filter P l))) eqn:E; [|reflexivity].
  rewrite <- Hx. symmetry. apply existsb_exists in E.
  destruct E as (y & Hy & Hxy). apply existsb_exists. exists y.
  split; [|exact Hxy]. apply in_map_iff in Hy.
  destruct Hy as (z & <- & Hz). apply filter_In in Hz.
  apply in_map. tauto.
Qed.

Lemma delete_document_unique_ids (st : Store) (doc_id : string) :
  unique_ids st = true -> unique_ids (delete_document st doc_id) = true.
Proof. unfold unique_ids, delete_document. cbn. apply distinct_filter. Qed.

Lemma delete_document_ledger_ok (st : Store) (doc_id : string) :
  ledger_ok st = true -> ledger_ok (delete_document st doc_id) = true.
Proof.
  unfold ledger_ok, unique_ids, one_record_per_user, delete_document. cbn.
  intros H. apply andb_true_iff in H. destruct H as [H1 H2].
  apply andb_true_iff. split; now apply distinct_filter.
Qed.

Lemma with_participants_same (st : Store) :
  with_participants (participants st) st = st.
Proof. now destruct st. Qed.

(** The records of a list whose status differs from that of [p] are
    untouched by the removal of [p]. *)
Lemma filter_status_delete (st : Store) (event_id : string)
    (s : ParticipantStatus) (p : Participant.t) :
  unique_ids st = true -> In p (participants st) ->
  Participant.status p <> s ->
  filter (of_status event_id s)
    (filter (fun q => negb (has_id (Participant.id p) q)) (participants st))
  = filter (of_status event_id s) (participants st).
Proof.
  intros Hu Hp Hs. rewrite filter_filter. apply filter_ext_in.
  intros q Hq. destruct (has_id (Participant.id p) q) eqn:E;
    [|reflexivity].
  apply has_id_eq in E.
  assert (q = p) by now apply (unique_ids_inj st).
  subst q. cbn [negb andb]. symmetry.
  destruct (of_status event_id s p) eqn:F; [|reflexivity].
  apply of_status_iff in F. tauto.
Qed.

Lemma filter_comm {A : Type} (f g : A -> bool) (l : list A) :
  filter f (filter g l) = filter g (filter f l).
Proof.
  rewrite !filter_filter. apply filter_ext. intros x. apply andb_comm.
Qed.

(** X7. [leave_event] for a user who has no record on the event fails
    with the not-participating message and leaves the store unchanged. *)
Theorem leave_event_not_participating
    (st : Store) (event_id user_id : string) (now : datetime) :
  (forall p, In p (participants st) ->
     ~ (Participant.event_id p = event_id
        /\ Participant.user_id p = user_id)) ->
  leave_event st event_id user_id now
  = (st, (false, msg_not_participating, None)).
Proof.
  intros H. unfold leave_event.
  now rewrite (get_participant_by_user_none st event_id user_id H).
Qed.

Lemma leave_event_not_participating_witness :
  (forall p, In p (participants full_store) ->
     ~ (Participant.event_id p = "E"%string
        /\ Participant.user_id p = "U9"%string))
  /\ leave_event full_store "E" "U9" 50
     = (full_store, (false, msg_not_participating, None)).
Proof.
  assert (H : forall p, In p (participants full_store) ->
            ~ (Participant.event_id p = "E"%string
               /\ Participant.user_id p = "U9"%string)).
  { intros p Hp [_ Hu]. simpl in Hp.
    repeat (destruct Hp as [<-|Hp]; [discriminate Hu|]). exact Hp. }
  split; [exact H|].
  exact (leave_event_not_participating full_store "E" "U9" 50 H).
Defined.

(** X8. When a waitlisted user leaves, the record is deleted, nobody is
    promoted, the events and the joined users are as before, and the
    others on the waitlist keep their order and get the positions
    1, 2, ... *)
Theorem leave_event_from_waitlist
    (st : Store) (event_id user_id : string) (now : datetime)
    (p : Participant.t) :
  ledger_ok st = true ->
  In p (participants st) ->
  Participant.event_id p = event_id ->
  Participant.user_id p = user_id ->
  Participant.status p = WAITLIST ->
  let r := leave_event st event_id user_id now in
  fst (fst (snd r)) = true
  /\ snd (snd r) = None
  /\ events (fst r) = events st
  /\ (forall q, In q (participants (fst r)) ->
        Participant.id q <> Participant.id p)
  /\ get_waitlist (fst r) event_id None
     = enumerate_positions 1
         (filter (fun q => negb (has_id (Participant.id p) q))
            (get_waitlist st event_id None))
  /\ get_participants (fst r) event_id None
     = get_participants st event_id None.
Proof.
  intros Hok Hp He Hu Hs r.
  pose proof (ledger_ok_unique_ids st Hok) as Hids.
  set (st1 := delete_document st (Participant.id p)).
  assert (Hu1 : unique_ids st1 = true)
    by now apply delete_document_unique_ids.
  destruct (update_waitlist_positions_spec st1 event_id Hu1)
    as (st' & Hr & Hps & Hes & _ & Hw).
  assert (Hw1 : get_waitlist st1 event_id None
                = filter (fun q => negb (has_id (Participant.id p) q))
                    (get_waitlist st event_id None)).
  { rewrite !get_waitlist_query. unfold st1, delete_document. cbn.
    rewrite filter_comm. symmetry. apply sort_key_filter. }
  assert (Hrr : r = (st', (true,
                           msg_left
                             match get_event st' event_id with
                             | Some event => Event.title event
                             | None => "イベント"%string
                             end, None))).
  { unfold r, leave_event. subst event_id user_id.
    rewrite (get_participant_by_user_unique st p Hok Hp), Hs.
    fold st1. now rewrite Hr. }
  rewrite Hrr. cbn [fst snd]. repeat split.
  - exact Hes.
  - intros q Hq Heq. rewrite Hps in Hq. apply in_map_iff in Hq.
    destruct Hq as (x & <- & Hx). rewrite renumbered_id in Heq.
    unfold st1, delete_document in Hx. cbn in Hx. apply filter_In in Hx.
    destruct Hx as [_ Hx]. apply negb_true_iff, has_id_neq in Hx.
    contradiction.
  - now rewrite Hw, Hw1.
  - rewrite !get_participants_query, Hps. f_equal.
    rewrite filter_map_commute by (intros x; apply renumbered_of_status).
    transitivity (filter (of_status event_id JOINED) (participants st1)).
    + rewrite <- (map_id (filter _ (participants st1))) at 2.
      apply map_ext_in. intros q Hq. apply filter_In in Hq.
      destruct Hq as [Hq Hqs]. apply of_status_iff in Hqs.
      apply renumbered_outside. intros Hin. apply in_map_iff in Hin.
      destruct Hin as (x & Hid & Hx). apply get_waitlist_In in Hx.
      destruct Hx as (Hx & _ & Hxs).
      assert (x = q) by now apply (unique_ids_inj st1).
      subst x. destruct Hqs as [_ Hqs]. congruence.
    + unfold st1, delete_document. cbn.
      apply (filter_status_delete st event_id JOINED p Hids Hp).
      congruence.
Qed.

Lemma leave_event_from_waitlist_witness :
  ledger_ok gapped_store = true
  /\ In (sample_record "U3" WAITLIST 1 30 "p3") (participants gapped_store)
  /\ map (fun q => (Participant.user_id q, Participant.position q))
       (get_waitlist (fst (leave_event gapped_store "E" "U3" 60)) "E" None)
     = [("U4"%string, 1); ("U5"%string, 2)].
Proof.
  assert (Hin : In (sample_record "U3" WAITLIST 1 30 "p3")
                  (participants gapped_store)) by (simpl; auto).
  pose proof (leave_event_from_waitlist gapped_store "E" "U3" 60
                (sample_record "U3" WAITLIST 1 30 "p3")
                eq_refl Hin eq_refl eq_refl eq_refl)
    as (_ & _ & _ & _ & Hw & _).
  split; [reflexivity|]. split; [exact Hin|].
  rewrite Hw. reflexivity.
Defined.

(** ** Leaving as a joined user *)

Lemma get_event_events (st st' : Store) (event_id : string) :
  events st' = events st -> get_event st' event_id = get_event st event_id.
Proof. unfold get_event, get_event_document. now intros ->. Qed.

Lemma find_filter {A : Type} (f g : A -> bool) (l : list A) :
  (forall x, In x l -> f x = true -> g x = true) ->
  find f (filter g l) = find f l.
Proof.
  induction l as [|x l IH]; intros H; [reflexivity|].
  cbn [filter find]. destruct (f x) eqn:Hf.
  - rewrite (H x (or_introl eq_refl) Hf). cbn [find]. now rewrite Hf.
  - destruct (g x); cbn [find]; [rewrite Hf|]; apply IH;
      intros y Hy; apply H; now right.
Qed.

Lemma find_all_false {A : Type} (f : A -> bool) (l : list A) :
  (forall x, In x l -> f x = false) -> find f l = None.
Proof.
  induction l as [|x l IH]; intros H; [reflexivity|].
  cbn [find]. rewrite (H x (or_introl eq_refl)). apply IH.
  intros y Hy. apply H. now right.
Qed.

(** The store after the record of a joined user is deleted and the
    counter decremented. *)
Lemma leave_joined_first_steps (st : Store) (event_id : string)
    (now : datetime) (p : Participant.t) :
  ledger_ok st = true -> In p (participants st) ->
  Participant.event_id p = event_id ->
  Participant.status p = JOINED ->
  let st_a :=
    fst (decrement_participant_count
           (delete_document st (Participant.id p)) event_id now) in
  leave_event st event_id (Participant.user_id p) now
  = (let (st2, promoted_user_id) :=
       _promote_from_waitlist st_a event_id now in
     (st2, (true,
            msg_left match get_event st2 event_id with
                     | Some event => Event.title event
                     | None => "イベント"%string
                     end,
            promoted_user_id)))
  /\ participants st_a
     = filter (fun q => negb (has_id (Participant.id p) q)) (participants st)
  /\ update_log st_a = update_log st
  /\ ledger_ok st_a = true
  /\ get_waitlist st_a event_id None = get_waitlist st event_id None
  /\ find (of_status event_id WAITLIST) (participants st_a)
     = find (of_status event_id WAITLIST) (participants st)
  /\ (forall e, get_event st event_id = Some e ->
        exists ea,
          get_event st_a event_id = Some ea
          /\ Event.current_participants ea
             = Z.max 0 (Event.current_participants e - 1))
  /\ (get_event st event_id = None -> events st_a = events st).
Proof.
  intros Hok Hp He Hs st_a.
  pose proof (ledger_ok_unique_ids st Hok) as Hids.
  assert (Hpa : participants st_a
                = filter (fun q => negb (has_id (Participant.id p) q))
                    (participants st)).
  { unfold st_a. now rewrite (proj1 (decrement_ledger _ _ _)). }
  split; [|split; [exact Hpa|split; [|split; [|split; [|split; [|split]]]]]].
  - unfold leave_event. subst event_id.
    now rewrite (get_participant_by_user_unique st p Hok Hp), Hs.
  - unfold st_a. now rewrite (proj2 (decrement_ledger _ _ _)).
  - rewrite <- (delete_document_ledger_ok st (Participant.id p) Hok).
    apply ledger_ok_same_keys; now rewrite Hpa.
  - rewrite !get_waitlist_query, Hpa. f_equal.
    apply (filter_status_delete st event_id WAITLIST p Hids Hp). congruence.
  - rewrite Hpa. apply find_filter. intros x Hx Hf.
    apply negb_true_iff, has_id_neq. intros Heq.
    assert (x = p) by now apply (unique_ids_inj st).
    subst x. apply of_status_iff in Hf. destruct Hf as [_ Hf]. congruence.
  - intros e Hg. unfold st_a.
    rewrite (decrement_stored (delete_document st (Participant.id p))
               event_id e now Hg).
    eexists. split; [reflexivity|].
    change (Event.current_participants (Event.set_updated_at now ?x))
      with (Event.current_participants x).
    now rewrite update_status_current.
  - intros Hn. unfold st_a, decrement_participant_count.
    change (get_event (delete_document st (Participant.id p)) event_id)
      with (get_event st event_id).
    now rewrite Hn.
Qed.

(** X9. When a joined user leaves an event that has nobody waiting, the
    record is deleted and nothing else of the ledger changes, nobody is
    promoted, and the counter of the event is stored as
    [max(0, current - 1)]. *)
Theorem leave_event_with_empty_waitlist
    (st : Store) (event_id user_id : string) (now : datetime)
    (p : Participant.t) :
  ledger_ok st = true ->
  In p (participants st) ->
  Participant.event_id p = event_id ->
  Participant.user_id p = user_id ->
  Participant.status p = JOINED ->
  get_waitlist st event_id None = [] ->
  let r := leave_event st event_id user_id now in
  fst (fst (snd r)) = true
  /\ snd (snd r) = None
  /\ participants (fst r)
     = filter (fun q => negb (has_id (Participant.id p) q)) (participants st)
  /\ update_log (fst r) = update_log st
  /\ forall e, get_event st event_id = Some e ->
       exists e',
         get_event (fst r) event_id = Some e'
         /\ Event.current_participants e'
            = Z.max 0 (Event.current_participants e - 1).
Proof.
  intros Hok Hp He Hu Hs Hw r. subst user_id.
  destruct (leave_joined_first_steps st event_id now p Hok Hp He Hs)
    as (Hl & Hpa & Hlog & _ & _ & Hfind & Hev & _).
  set (st_a := fst (decrement_participant_count
                      (delete_document st (Participant.id p))
                      event_id now)) in *.
  assert (Hnone : _promote_from_waitlist st_a event_id now = (st_a, None)).
  { unfold _promote_from_waitlist.
    rewrite get_waitlist_limit_one, Hfind, find_all_false; [reflexivity|].
    intros x Hx. destruct (of_status event_id WAITLIST x) eqn:F;
      [|reflexivity].
    apply of_status_iff in F.
    assert (Hin : In x (get_waitlist st event_id None))
      by (apply get_waitlist_In; tauto).
    rewrite Hw in Hin. contradiction. }
  unfold r. rewrite Hl, Hnone. cbn [fst snd]. repeat split; assumption.
Qed.

Lemma leave_event_with_empty_waitlist_witness :
  ledger_ok closed_store = true
  /\ In (sample_record "U1" JOINED 0 10 "p1") (participants closed_store)
  /\ get_waitlist closed_store "E" None = []
  /\ participants (fst (leave_event closed_store "E" "U1" 50)) = [].
Proof.
  assert (Hin : In (sample_record "U1" JOINED 0 10 "p1")
                  (participants closed_store)) by (simpl; auto).
  pose proof (leave_event_with_empty_waitlist closed_store "E" "U1" 50
                (sample_record "U1" JOINED 0 10 "p1")
                eq_refl Hin eq_refl eq_refl eq_refl eq_refl)
    as (_ & _ & H & _).
  split; [reflexivity|]. split; [exact Hin|]. split; [reflexivity|].
  rewrite H. reflexivity.
Defined.

(** X10. When a joined user leaves an event that has a waitlist,
    [leave_event] promotes exactly the waitlisted record that the store
    streams first and returns its user; that record becomes JOINED with
    position 0, the record of the leaver is gone, the others on the
    waitlist keep their order with positions 1, 2, ..., and the counter
    ends at [max(0, current - 1) + 1]. *)
Theorem leave_event_promotes_streamed_head
    (st : Store) (event_id user_id : string) (now : datetime)
    (p w : Participant.t) :
  ledger_ok st = true ->
  In p (participants st) ->
  Participant.event_id p = event_id ->
  Participant.user_id p = user_id ->
  Participant.status p = JOINED ->
  find (of_status event_id WAITLIST) (participants st) = Some w ->
  let r := leave_event st event_id user_id now in
  fst (fst (snd r)) = true
  /\ snd (snd r) = Some (Participant.user_id w)
  /\ In w (get_waitlist st event_id None)
  /\ In (promoted w) (participants (fst r))
  /\ (forall q, In q (participants (fst r)) ->
        Participant.id q <> Participant.id p)
  /\ get_waitlist (fst r) event_id None
     = enumerate_positions 1
         (filter (fun q => negb (has_id (Participant.id w) q))
            (get_waitlist st event_id None))
  /\ forall e, get_event st event_id = Some e ->
       exists e',
         get_event (fst r) event_id = Some e'
         /\ Event.current_participants e'
            = Z.max 0 (Event.current_participants e - 1) + 1.
Proof.
  intros Hok Hp He Hu Hs Hfw r. subst user_id.
  destruct (leave_joined_first_steps st event_id now p Hok Hp He Hs)
    as (Hl & Hpa & Hlog & Hoka & Hwa & Hfind & Hev & _).
  set (st_a := fst (decrement_participant_count
                      (delete_document st (Participant.id p))
                      event_id now)) in *.
  pose proof (ledger_ok_unique_ids st_a Hoka) as Hua.
  rewrite Hfw in Hfind.
  pose proof (find_some _ _ Hfind) as [Hwin Hwf].
  apply of_status_iff in Hwf. destruct Hwf as [Hwe Hws].
  set (st_b := mkStore (events st_a)
                 (map (replace_doc (Participant.id w) (promoted w))
                    (participants st_a))
                 (update_log st_a ++ [promoted w])).
  set (st_c := fst (increment_participant_count st_b event_id now)).
  assert (Hpc : participants st_c = participants st_b).
  { unfold st_c. now rewrite (proj1 (increment_ledger _ _ _)). }
  assert (Huc : unique_ids st_c = true).
  { unfold unique_ids. rewrite Hpc. unfold st_b. cbn [participants].
    rewrite replace_doc_ids by reflexivity. exact Hua. }
  assert (Hwc : get_waitlist st_c event_id None
                = filter (fun q => negb (has_id (Participant.id w) q))
                    (get_waitlist st event_id None)).
  { rewrite <- Hwa, !get_waitlist_query, Hpc. unfold st_b.
    cbn [participants].
    rewrite filter_replace_doc
      by (unfold of_status; simpl; now rewrite andb_false_r).
    symmetry. apply sort_key_filter. }
  destruct (update_waitlist_positions_spec st_c event_id Huc)
    as (st' & Hr & Hps & Hes & _ & Hw').
  assert (Hprom : _promote_from_waitlist st_a event_id now
                  = (st', Some (Participant.user_id w))).
  { unfold _promote_from_waitlist.
    rewrite get_waitlist_limit_one, Hfind.
    rewrite (update_document_In st_a w (promoted w) Hwin eq_refl).
    fold st_b. fold st_c. now rewrite Hr. }
  unfold r. rewrite Hl, Hprom. cbn [fst snd].
  split; [reflexivity|]. split; [reflexivity|].
  split; [|split; [|split; [|split]]].
  - apply get_waitlist_In. rewrite Hpa in Hwin. apply filter_In in Hwin.
    tauto.
  - rewrite Hps. apply in_map_iff. exists (promoted w). split.
    + apply renumbered_outside. rewrite Hwc. intros Hin.
      apply in_map_iff in Hin. destruct Hin as (x & Hid & Hx).
      apply filter_In in Hx. destruct Hx as [_ Hx].
      apply negb_true_iff, has_id_neq in Hx. now apply Hx.
    + rewrite Hpc. unfold st_b. cbn [participants].
      now apply replace_doc_In.
  - intros q Hq Heq. rewrite Hps in Hq. apply in_map_iff in Hq.
    destruct Hq as (x & <- & Hx). rewrite renumbered_id in Heq.
    assert (Hidx : In (Participant.id x)
                     (map Participant.id (participants st_a))).
    { rewrite <- (replace_doc_ids (Participant.id w) (promoted w)
                    (participants st_a) eq_refl).
      rewrite Hpc in Hx. now apply in_map. }
    rewrite Heq, Hpa in Hidx. apply in_map_iff in Hidx.
    destruct Hidx as (y & Hid & Hy). apply filter_In in Hy.
    destruct Hy as [_ Hy]. apply negb_true_iff, has_id_neq in Hy.
    contradiction.
  - now rewrite Hw', Hwc.
  - intros e Hg. destruct (Hev e Hg) as (ea & Hga & Hca).
    assert (Hgb : get_event st_b event_id = Some ea).
    { now rewrite (get_event_events st_a st_b event_id eq_refl). }
    rewrite (get_event_events st_c st' event_id Hes). unfold st_c.
    rewrite (increment_stored st_b event_id ea now Hgb).
    eexists. split; [reflexivity|].
    change (Event.current_participants (Event.set_updated_at now ?x))
      with (Event.current_participants x).
    rewrite update_status_current. cbn. now rewrite Hca.
Qed.

Lemma leave_event_promotes_streamed_head_witness :
  ledger_ok full_store = true
  /\ In (sample_record "U1" JOINED 0 10 "p1") (participants full_store)
  /\ find (of_status "E" WAITLIST) (participants full_store)
     = Some (sample_record "U3" WAITLIST 1 30 "p3")
  /\ snd (snd (leave_event full_store "E" "U1" 50)) = Some "U3"%string
  /\ get_waitlist (fst (leave_event full_store "E" "U1" 50)) "E" None = [].
Proof.
  assert (Hin : In (sample_record "U1" JOINED 0 10 "p1")
                  (participants full_store)) by (simpl; auto).
  pose proof (leave_event_promotes_streamed_head full_store "E" "U1" 50
                (sample_record "U1" JOINED 0 10 "p1")
                (sample_record "U3" WAITLIST 1 30 "p3")
                eq_refl Hin eq_refl eq_refl eq_refl eq_refl)
    as (_ & Hr & _ & _ & _ & Hw & _).
  split; [reflexivity|]. split; [exact Hin|]. split; [reflexivity|].
  split; [exact Hr|]. rewrite Hw. reflexivity.
Defined.

(** ** What a join keeps *)

(** The three ways [join_event] ends. *)
Lemma join_event_outcome (st : Store) (event_id user_id user_name : string)
    (now : datetime) (new_id : string) (slot : nat) :
  let r := join_event st event_id user_id user_name now new_id slot in
  (fst r = st /\ fst (fst (snd r)) = false /\ snd (snd r) = None)
  \/ (exists e,
        get_event st event_id = Some e
        /\ get_participant_by_user st event_id user_id = None
        /\ Z.of_nat (List.length (get_participants st event_id None))
           < Event.max_participants e
        /\ r = (fst (increment_participant_count
                       (create_document st slot new_id
                          (Participant.mk event_id user_id user_name JOINED
                             0 now new_id)) event_id now),
                (true, msg_joined (Event.title e),
                 Some (Participant.mk event_id user_id user_name JOINED 0
                         now new_id))))
  \/ (exists e,
        get_event st event_id = Some e
        /\ get_participant_by_user st event_id user_id = None
        /\ Event.max_participants e
           <= Z.of_nat (List.length (get_participants st event_id None))
        /\ let position :=
             Z.of_nat (List.length (get_waitlist st event_id None)) + 1 in
           r = (create_document st slot new_id
                  (Participant.mk event_id user_id user_name WAITLIST
                     position now new_id),
                (true, msg_waitlisted position,
                 Some (Participant.mk event_id user_id user_name WAITLIST
                         position now new_id)))).
Proof.
  intros r.
  destruct (get_event st event_id) as [e|] eqn:He.
  2:{ left. unfold r, join_event. rewrite He. now repeat split. }
  assert (Hblocked : ~ open_status (Event.status e) ->
            fst r = st /\ fst (fst (snd r)) = false /\ snd (snd r) = None).
  { intros Hn. unfold r, join_event, can_user_join. rewrite He.
    destruct (Event.status e) eqn:Hs; cbn; try (now repeat split);
      exfalso; apply Hn; [now left | now right]. }
  destruct (Event.status e) eqn:Hs;
    try (left; apply Hblocked; intros [H|H]; discriminate).
  all: assert (Ho : open_status (Event.status e))
         by (rewrite Hs; first [now left | now right]).
  all: destruct (get_participant_by_user st event_id user_id) as [q|] eqn:Hq;
    [left; unfold r;
     rewrite (join_event_existing st _ _ _ _ _ _ e q He Ho Hq);
     now repeat split|].
  all: destruct (Z.lt_ge_cases
                   (Z.of_nat (List.length (get_participants st event_id None)))
                   (Event.max_participants e)) as [Hc|Hc];
    [right; left; exists e; repeat split; auto;
     unfold r; now rewrite (join_event_direct st _ _ _ _ _ _ e He Ho Hq Hc)
    |right; right; exists e; repeat split; auto;
     unfold r; now rewrite (join_event_waitlist st _ _ _ _ _ _ e He Ho Hq Hc)].
Qed.

Lemma create_document_participants (st : Store) (slot : nat)
    (new_id : string) (p : Participant.t) :
  Participant.id p = new_id ->
  participants (create_document st slot new_id p)
  = firstn slot (participants st) ++ p :: skipn slot (participants st).
Proof. intros <-. unfold create_document. cbn. now destruct p. Qed.

Lemma existsb_false_In {A : Type} (f : A -> bool) (l : list A) :
  existsb f l = false <-> forall x, In x l -> f x = false.
Proof.
  split.
  - intros H x Hx. destruct (f x) eqn:E; [|reflexivity].
    rewrite <- H. symmetry. apply existsb_exists. now exists x.
  - intros H. destruct (existsb f l) eqn:E; [|reflexivity].
    apply existsb_exists in E. destruct E as (x & Hx & Hf).
    now rewrite (H x Hx) in Hf.
Qed.

Lemma distinct_insert {A : Type} (eqb : A -> A -> bool) (x : A)
    (l : list A) :
  (forall a b, eqb a b = eqb b a) ->
  distinct eqb l = true ->
  (forall y, In y l -> eqb x y = false) ->
  forall n, distinct eqb (firstn n l ++ x :: skipn n l) = true.
Proof.
  intros Hsym. induction l as [|y l IH]; intros Hd Hx n.
  - rewrite firstn_nil, skipn_nil. reflexivity.
  - destruct n as [|n].
    + cbn [firstn skipn app].
      change (distinct eqb (x :: y :: l))
        with (negb (existsb (eqb x) (y :: l)) && distinct eqb (y :: l)).
      rewrite Hd.
      rewrite (proj2 (existsb_false_In (eqb x) (y :: l)) Hx). reflexivity.
    + cbn [firstn skipn app distinct] in *.
      apply andb_true_iff in Hd. destruct Hd as [Hy Hd].
      apply negb_true_iff in Hy.
      apply andb_true_iff. split.
      * apply negb_true_iff. apply existsb_false_In. intros z Hz.
        apply in_app_or in Hz. destruct Hz as [Hz|[<-|Hz]].
        -- apply (proj1 (existsb_false_In _ _) Hy). now apply (in_firstn _ n).
        -- rewrite Hsym. apply Hx. now left.
        -- apply (proj1 (existsb_false_In _ _) Hy). now apply (in_skipn _ n).
      * apply IH; [exact Hd|]. intros z Hz. apply Hx. now right.
Qed.

Lemma insert_map {A B : Type} (f : A -> B) (x : A) (l : list A) (n : nat) :
  map f (firstn n l ++ x :: skipn n l)
  = firstn n (map f l) ++ f x :: skipn n (map f l).
Proof. now rewrite map_app, firstn_map, skipn_map. Qed.

Lemma filter_insert {A : Type} (f : A -> bool) (x : A) (l : list A)
    (n : nat) :
  Permutation (filter f (firstn n l ++ x :: skipn n l)) (filter f (x :: l)).
Proof.
  rewrite filter_app. cbn [filter]. destruct (f x).
  - rewrite <- Permutation_middle. apply perm_skip.
    rewrite <- filter_app. now rewrite firstn_skipn.
  - rewrite <- filter_app. now rewrite firstn_skipn.
Qed.

Lemma filter_insert_out {A : Type} (f : A -> bool) (x : A) (l : list A)
    (n : nat) :
  f x = false ->
  filter f (firstn n l ++ x :: skipn n l) = filter f l.
Proof.
  intros H. rewrite filter_app. cbn [filter]. rewrite H.
  rewrite <- filter_app. now rewrite firstn_skipn.
Qed.

(** X11. [join_event] keeps the ledger well formed: when the document ids
    are distinct and no user has two records on an event, and the id the
    store generates is new, the same holds afterwards, whatever the
    outcome; a second record for a user is never created. *)
Theorem join_event_keeps_ledger_ok
    (st : Store) (event_id user_id user_name : string) (now : datetime)
    (new_id : string) (slot : nat) :
  ledger_ok st = true ->
  existsb (has_id new_id) (participants st) = false ->
  ledger_ok (fst (join_event st event_id user_id user_name now new_id slot))
  = true.
Proof.
  intros Hok Hfresh.
  assert (Hins : forall s pos,
            get_participant_by_user st event_id user_id = None ->
            forall st',
              participants st'
              = participants
                  (create_document st slot new_id
                     (Participant.mk event_id user_id user_name s pos now
                        new_id)) ->
              ledger_ok st' = true).
  { intros s pos Hnone st' Hps.
    rewrite (create_document_participants st slot new_id
               (Participant.mk event_id user_id user_name s pos now new_id)
               eq_refl) in Hps.
    unfold ledger_ok in *. apply andb_true_iff in Hok.
    destruct Hok as [H1 H2]. unfold unique_ids, one_record_per_user in *.
    rewrite Hps, !insert_map. apply andb_true_iff. split.
    - apply distinct_insert; [apply String.eqb_sym | exact H1 |].
      intros y Hy. apply in_map_iff in Hy. destruct Hy as (q & <- & Hq).
      cbn. rewrite String.eqb_sym.
      apply (proj1 (existsb_false_In _ _) Hfresh q Hq).
    - apply distinct_insert; [apply key_eqb_sym | exact H2 |].
      intros y Hy. apply in_map_iff in Hy. destruct Hy as (q & <- & Hq).
      rewrite get_participant_by_user_find in Hnone.
      pose proof (find_none _ _ Hnone q Hq) as Hf.
      unfold of_user in Hf. cbn in Hf. rewrite andb_true_r in Hf.
      unfold key_eqb, user_key. cbn.
      now rewrite (String.eqb_sym event_id), (String.eqb_sym user_id). }
  destruct (join_event_outcome st event_id user_id user_name now new_id slot)
    as [[-> _]|[(e & _ & Hn & _ & ->)|(e & _ & Hn & _ & ->)]].
  - exact Hok.
  - cbn [fst]. apply (Hins JOINED 0 Hn).
    now rewrite (proj1 (increment_ledger _ _ _)).
  - cbn [fst]. eapply (Hins WAITLIST); [exact Hn | reflexivity].
Qed.

Lemma join_event_keeps_ledger_ok_witness :
  ledger_ok full_store = true
  /\ existsb (has_id "p4") (participants full_store) = false
  /\ ledger_ok (fst (join_event full_store "E" "U4" "Dana" 40 "p4" 1))
     = true.
Proof.
  split; [reflexivity|]. split; [reflexivity|].
  now apply (join_event_keeps_ledger_ok full_store "E" "U4" "Dana" 40 "p4" 1).
Defined.

Lemma update_status_max (now : datetime) (e : Event.t) :
  Event.max_participants (Event.update_status now e)
  = Event.max_participants e.
Proof.
  unfold Event.update_status.
  repeat match goal with |- context [if ?c then _ else _] => destruct c end;
    reflexivity.
Qed.

(** X12. [join_event] never takes the number of JOINED records of the
    event above [max_participants] when it was not above before, and it
    keeps the stored counter equal to that number when it was equal
    before; the capacity itself is not changed. *)
Theorem join_event_keeps_capacity_and_counter
    (st : Store) (event_id user_id user_name : string) (now : datetime)
    (new_id : string) (slot : nat) (e : Event.t) :
  get_event st event_id = Some e ->
  let r := join_event st event_id user_id user_name now new_id slot in
  let count :=
    fun s => Z.of_nat (List.length (get_participants s event_id None)) in
  exists e',
    get_event (fst r) event_id = Some e'
    /\ Event.max_participants e' = Event.max_participants e
    /\ (count st <= Event.max_participants e ->
        count (fst r) <= Event.max_participants e)
    /\ (Event.current_participants e = count st ->
        Event.current_participants e' = count (fst r)).
Proof.
  intros He r count.
  destruct (join_event_outcome st event_id user_id user_name now new_id slot)
    as [[Hr _]|[(e1 & He1 & _ & Hc & Hr)|(e1 & He1 & _ & Hc & Hr)]];
    fold r in Hr.
  - exists e. rewrite Hr. auto.
  - rewrite He in He1. injection He1 as <-.
    set (p := Participant.mk event_id user_id user_name JOINED 0 now new_id)
      in *.
    set (st1 := create_document st slot new_id p) in *.
    assert (Hcount : count (fst r) = count st + 1).
    { unfold count. rewrite Hr. cbn [fst].
      rewrite (get_participants_participants st1 _ event_id None
                 (proj1 (increment_ledger _ _ _))).
      rewrite !get_participants_query, !sort_key_length.
      unfold st1.
      rewrite (create_document_participants st slot new_id p eq_refl).
      rewrite (Permutation_length (filter_insert _ p _ slot)).
      cbn [filter].
      replace (of_status event_id JOINED p) with true.
      - cbn [List.length]. lia.
      - symmetry. apply of_status_iff. now split. }
    rewrite Hr. cbn [fst].
    rewrite (increment_stored st1 event_id e now He).
    eexists. split; [reflexivity|].
    change (Event.max_participants (Event.set_updated_at now ?x))
      with (Event.max_participants x).
    change (Event.current_participants (Event.set_updated_at now ?x))
      with (Event.current_participants x).
    rewrite update_status_max, update_status_current.
    rewrite Hr in Hcount. cbn [fst] in Hcount.
    cbn [Event.max_participants Event.current_participants
         Event.set_current_participants].
    split; [reflexivity|]. split.
    + intros _. unfold count in *. lia.
    + intros Hcur. unfold count in *. lia.
  - rewrite He in He1. injection He1 as <-. cbn zeta in Hr.
    set (p := Participant.mk event_id user_id user_name WAITLIST _ now new_id)
      in *.
    assert (Hcount : count (fst r) = count st).
    { unfold count. rewrite Hr. cbn [fst].
      rewrite !get_participants_query, !sort_key_length.
      rewrite (create_document_participants st slot new_id p eq_refl).
      rewrite filter_insert_out; [reflexivity|].
      unfold of_status. cbn. now rewrite andb_false_r. }
    exists e. rewrite Hcount. rewrite Hr. cbn [fst]. auto.
Qed.

Lemma join_event_keeps_capacity_and_counter_witness :
  get_event sample_store "E" = Some (sample_event 2 0 ACTIVE)
  /\ exists e',
       get_event (fst (join_event sample_store "E" "U1" "Ann" 10 "p1" 0)) "E"
       = Some e'
       /\ Event.max_participants e' = 2.
Proof.
  split; [reflexivity|].
  destruct (join_event_keeps_capacity_and_counter sample_store "E" "U1" "Ann"
              10 "p1" 0 (sample_event 2 0 ACTIVE) eq_refl)
    as (e' & Hg & Hm & _).
  exists e'. split; [exact Hg | exact Hm].
Defined.

(** ** The back of the line *)

Lemma positions_strictly_sorted (l : list Participant.t) :
  forall i : nat,
    map Participant.position l = map Z.of_nat (seq i (List.length l)) ->
    StronglySorted
      (fun a b => Participant.position a < Participant.position b) l.
Proof.
  induction l as [|p rest IH]; intros i H; [constructor|].
  cbn [map List.length seq] in H.
  assert (Hp : Participant.position p = Z.of_nat i) by congruence.
  assert (Hr : map Participant.position rest
               = map Z.of_nat (seq (S i) (List.length rest))) by congruence.
  constructor; [now apply (IH (S i))|].
  rewrite Forall_forall. intros z Hz.
  apply (in_map Participant.position) in Hz. rewrite Hr in Hz.
  apply in_map_iff in Hz. destruct Hz as (k & Hk & Hin).
  apply in_seq in Hin. lia.
Qed.

(** X13. A user who is put on the waitlist by [join_event] goes to the
    back of it: when the positions were 1, 2, ..., N the waitlist
    afterwards is the old one followed by the new record, and whatever
    the outcome of the join the positions are 1, 2, ... again. *)
Theorem join_event_appends_to_waitlist
    (st : Store) (event_id user_id user_name : string) (now : datetime)
    (new_id : string) (slot : nat) :
  let before := get_waitlist st event_id None in
  map Participant.position before
  = map Z.of_nat (seq 1 (List.length before)) ->
  let r := join_event st event_id user_id user_name now new_id slot in
  let after := get_waitlist (fst r) event_id None in
  map Participant.position after = map Z.of_nat (seq 1 (List.length after))
  /\ forall p, snd (snd r) = Some p ->
       (Participant.status p = WAITLIST -> after = before ++ [p])
       /\ (Participant.status p = JOINED -> after = before).
Proof.
  intros before Hpos r after.
  destruct (join_event_outcome st event_id user_id user_name now new_id slot)
    as [(Hr & _ & Hn)|[(e & _ & _ & _ & Hr)|(e & _ & _ & _ & Hr)]];
    fold r in Hr; try fold r in Hn.
  - unfold after. rewrite Hr. fold before. split; [exact Hpos|].
    intros p Hp. congruence.
  - set (p := Participant.mk event_id user_id user_name JOINED 0 now new_id)
      in *.
    assert (Hafter : after = before).
    { unfold after, before. rewrite Hr. cbn [fst].
      rewrite (get_waitlist_participants _ _ event_id None
                 (proj1 (increment_ledger _ _ _))).
      rewrite !get_waitlist_query.
      rewrite (create_document_participants st slot new_id p eq_refl).
      rewrite filter_insert_out; [reflexivity|].
      unfold of_status. cbn. now rewrite andb_false_r. }
    rewrite Hafter. split; [exact Hpos|].
    intros q Hq. rewrite Hr in Hq. cbn [snd] in Hq. injection Hq as <-.
    split; [discriminate | reflexivity].
  - cbn zeta in Hr. fold before in Hr.
    set (p := Participant.mk event_id user_id user_name WAITLIST
                (Z.of_nat (List.length before) + 1) now new_id) in *.
    assert (Hseq : map Participant.position (before ++ [p])
                   = map Z.of_nat (seq 1 (List.length (before ++ [p])))).
    { rewrite map_app, Hpos, length_app. cbn [List.length map].
      rewrite Nat.add_1_r, seq_S, map_app. cbn [map]. do 2 f_equal.
      cbn. lia. }
    assert (Hafter : after = before ++ [p]).
    { unfold after. rewrite Hr. cbn [fst]. rewrite get_waitlist_query.
      rewrite (create_document_participants st slot new_id p eq_refl).
      apply sort_key_unique.
      - rewrite (filter_insert _ p _ slot). cbn [filter].
        replace (of_status event_id WAITLIST p) with true
          by (symmetry; apply of_status_iff; now split).
        rewrite <- Permutation_cons_append. apply perm_skip.
        unfold before. rewrite get_waitlist_query.
        apply Permutation_sym, sort_key_perm.
      - apply (positions_strictly_sorted _ 1 Hseq). }
    rewrite Hafter. split; [exact Hseq|].
    intros q Hq. rewrite Hr in Hq. cbn [snd] in Hq. injection Hq as <-.
    split; [reflexivity | discriminate].
Qed.

Lemma join_event_appends_to_waitlist_witness :
  map Participant.position (get_waitlist full_store "E" None)
  = map Z.of_nat (seq 1 (List.length (get_waitlist full_store "E" None)))
  /\ map Participant.user_id
       (get_waitlist (fst (join_event full_store "E" "U4" "Dana" 40 "a4" 0))
          "E" None)
     = ["U3"%string; "U4"%string].
Proof.
  split; [reflexivity|].
  destruct (join_event_appends_to_waitlist full_store "E" "U4" "Dana" 40
              "a4" 0 eq_refl) as [_ H].
  destruct (H (Participant.mk "E" "U4" "Dana" WAITLIST 2 40 "a4") eq_refl)
    as [Hw _].
  rewrite (Hw eq_refl). reflexivity.
Defined.

(** ** Joining and leaving again *)

Lemma find_insert {A : Type} (f : A -> bool) (x : A) (l : list A) (n : nat) :
  (forall y, In y l -> f y = false) -> f x = true ->
  find f (firstn n l ++ x :: skipn n l) = Some x.
Proof.
  intros Hl Hx.
  assert (H1 : forall y, In y (firstn n l) -> f y = false)
    by (intros y Hy; apply Hl; now apply (in_firstn _ n)).
  induction (firstn n l) as [|y l1 IH]; cbn [app find].
  - now rewrite Hx.
  - rewrite (H1 y (or_introl eq_refl)). apply IH.
    intros z Hz. apply H1. now right.
Qed.

(** X14. A user who is put on the waitlist and leaves again leaves no
    trace: with a waitlist whose positions are 1, 2, ..., N and a new
    document id, [leave_event] after [join_event] returns the store
    exactly as it was before the join, promotes nobody and writes
    nothing. *)
Theorem join_then_leave_restores_store
    (st : Store) (event_id user_id user_name : string)
    (now later : datetime) (new_id : string) (slot : nat) (e : Event.t) :
  get_event st event_id = Some e ->
  Event.status e = ACTIVE \/ Event.status e = FULL ->
  (forall p, In p (participants st) ->
     ~ (Participant.event_id p = event_id
        /\ Participant.user_id p = user_id)) ->
  Event.max_participants e
  <= Z.of_nat (List.length (get_participants st event_id None)) ->
  existsb (has_id new_id) (participants st) = false ->
  map Participant.position (get_waitlist st event_id None)
  = map Z.of_nat (seq 1 (List.length (get_waitlist st event_id None))) ->
  leave_event
    (fst (join_event st event_id user_id user_name now new_id slot))
    event_id user_id later
  = (st, (true, msg_left (Event.title e), None)).
Proof.
  intros He Hs Hno Hc Hfresh Hpos.
  pose proof (get_participant_by_user_none st event_id user_id Hno) as Hnone.
  rewrite (join_event_waitlist st _ _ _ _ _ _ e He Hs Hnone Hc). cbn [fst].
  set (p := Participant.mk event_id user_id user_name WAITLIST _ now new_id).
  set (st1 := create_document st slot new_id p).
  assert (Hps1 : participants st1
                 = firstn slot (participants st)
                   ++ p :: skipn slot (participants st))
    by apply (create_document_participants st slot new_id p eq_refl).
  assert (Hget : get_participant_by_user st1 event_id user_id = Some p).
  { rewrite get_participant_by_user_find, Hps1. apply find_insert.
    - rewrite get_participant_by_user_find in Hnone.
      intros y Hy. apply (find_none _ _ Hnone y Hy).
    - apply of_user_iff. now split. }
  assert (Hdel : delete_document st1 (Participant.id p) = st).
  { unfold delete_document. rewrite Hps1, filter_app. cbn [filter].
    unfold has_id at 2. rewrite String.eqb_refl. cbn [negb].
    rewrite <- filter_app, firstn_skipn.
    rewrite filter_all.
    - unfold st1, create_document, with_participants. cbn.
      now destruct st.
    - intros q Hq. apply negb_true_iff.
      apply (proj1 (existsb_false_In _ _) Hfresh q Hq). }
  unfold leave_event. rewrite Hget. cbn [Participant.status p].
  rewrite Hdel. unfold _update_waitlist_positions.
  assert (Hren : renumber st 1 (get_waitlist st event_id None) = (st, true))
    by apply (renumber_contiguous _ st 1 Hpos).
  rewrite Hren. cbn [fst]. now rewrite He.
Qed.

Lemma join_then_leave_restores_store_witness :
  get_event full_store "E" = Some (sample_event 2 2 FULL)
  /\ existsb (has_id "a4") (participants full_store) = false
  /\ leave_event (fst (join_event full_store "E" "U4" "Dana" 40 "a4" 1))
       "E" "U4" 50
     = (full_store,
        (true, msg_left (Event.title (sample_event 2 2 FULL)), None)).
Proof.
  split; [reflexivity|]. split; [reflexivity|].
  apply (join_then_leave_restores_store full_store "E" "U4" "Dana" 40 50
           "a4" 1 (sample_event 2 2 FULL) eq_refl (or_intror eq_refl)).
  - intros p Hp [_ Hu]. simpl in Hp.
    repeat (destruct Hp as [<-|Hp]; [discriminate Hu|]). exact Hp.
  - vm_compute. discriminate.
  - reflexivity.
  - reflexivity.
Defined.

(** ** Deleting the participants of an event *)

Lemma delete_documents_fold (chosen : list Participant.t) :
  forall st : Store,
    forallb has_doc_id chosen = true ->
    fold_left
      (fun st participant_data =>
         if String.eqb (Participant.id participant_data) EmptyString then st
         else delete_document st (Participant.id participant_data))
      chosen st
    = with_participants (filter (not_among chosen) (participants st)) st.
Proof.
  induction chosen as [|d chosen IH]; intros st Hid.
  - cbn [fold_left]. rewrite filter_all by reflexivity.
    symmetry. apply with_participants_same.
  - cbn [forallb] in Hid. apply andb_true_iff in Hid.
    destruct Hid as [Hd Hid]. cbn [fold_left].
    unfold has_doc_id in Hd. apply negb_true_iff in Hd. rewrite Hd.
    rewrite (IH _ Hid). unfold delete_document, with_participants.
    cbn [participants events update_log]. f_equal.
    rewrite filter_filter. apply filter_ext. intros q.
    now rewrite not_among_cons.
Qed.

Lemma of_event_query (st : Store) (event_id : string) :
  query_documents st [event_id_eq event_id] None
  = filter (of_event event_id) (participants st).
Proof.
  unfold query_documents, apply_limit. apply filter_ext. intros p.
  unfold of_event. cbn [forallb matches]. apply andb_true_r.
Qed.

Lemma delete_all_participants_spec (st : Store) (event_id : string) :
  unique_ids st = true ->
  forallb has_doc_id (participants st) = true ->
  fst (delete_all_participants st event_id)
  = with_participants
      (filter (fun p => negb (of_event event_id p)) (participants st)) st.
Proof.
  intros Hu Hid. unfold delete_all_participants. cbn [fst].
  rewrite of_event_query. rewrite delete_documents_fold.
  - f_equal. apply filter_ext_in. intros q Hq. unfold not_among. f_equal.
    destruct (of_event event_id q) eqn:Hev.
    + apply existsb_exists. exists q. split.
      * apply filter_In. now split.
      * now apply has_id_eq.
    + destruct (existsb _ _) eqn:E; [|reflexivity].
      apply existsb_exists in E. destruct E as (c & Hc & Hcq).
      apply filter_In in Hc. destruct Hc as [Hc Hce].
      apply has_id_eq in Hcq.
      assert (c = q) by now apply (unique_ids_inj st).
      subst c. congruence.
  - rewrite forallb_forall in *. intros x Hx. apply Hid.
    apply filter_In in Hx. tauto.
Qed.

(** X15. [delete_all_participants] removes every record of the event,
    joined or waiting, and nothing else: the records of the other events
    stay, in their order, and neither the events nor the log of updates
    change.  Document ids are keys and are not empty, as in the store. *)
Theorem delete_all_participants_removes_event_records
    (st : Store) (event_id : string) :
  unique_ids st = true ->
  forallb has_doc_id (participants st) = true ->
  let r := delete_all_participants st event_id in
  snd r = true
  /\ participants (fst r)
     = filter (fun p => negb (of_event event_id p)) (participants st)
  /\ get_participants (fst r) event_id None = []
  /\ get_waitlist (fst r) event_id None = []
  /\ (forall other, other <> event_id ->
        get_participants (fst r) other None = get_participants st other None
        /\ get_waitlist (fst r) other None = get_waitlist st other None)
  /\ events (fst r) = events st
  /\ update_log (fst r) = update_log st.
Proof.
  intros Hu Hid r.
  assert (Hr : fst r
               = with_participants
                   (filter (fun p => negb (of_event event_id p))
                      (participants st)) st)
    by now apply delete_all_participants_spec.
  assert (Hnone : forall s,
            filter (of_status event_id s)
              (filter (fun p => negb (of_event event_id p)) (participants st))
            = []).
  { intros s. rewrite filter_filter. generalize (participants st).
    intros l. induction l as [|p l IH]; [reflexivity|].
    cbn [filter]. unfold of_status at 1, of_event at 1.
    cbn [forallb matches].
    destruct (String.eqb (Participant.event_id p) event_id);
      cbn [negb andb]; exact IH. }
  assert (Hsame : forall other s, other <> event_id ->
            filter (of_status other s)
              (filter (fun p => negb (of_event event_id p)) (participants st))
            = filter (of_status other s) (participants st)).
  { intros other s Hne. rewrite filter_filter. apply filter_ext.
    intros p. destruct (of_status other s p) eqn:E.
    - apply of_status_iff in E. destruct E as [E _].
      unfold of_event. rewrite E.
      apply String.eqb_neq in Hne. now rewrite Hne.
    - apply andb_false_r. }
  split; [reflexivity|].
  rewrite Hr. unfold with_participants. cbn [participants events update_log].
  split; [reflexivity|].
  rewrite !get_participants_query, !get_waitlist_query.
  cbn [participants]. rewrite !Hnone.
  split; [reflexivity|]. split; [reflexivity|].
  split; [|split; reflexivity].
  intros other Hne.
  rewrite !get_participants_query, !get_waitlist_query.
  cbn [participants]. now rewrite !Hsame.
Qed.

Lemma delete_all_participants_removes_event_records_witness :
  map Participant.id
    (participants (fst (delete_all_participants two_events_store "E")))
  = ["q1"%string]
  /\ get_participants (fst (delete_all_participants two_events_store "E"))
       "F" None
     = get_participants two_events_store "F" None.
Proof.
  pose proof (delete_all_participants_removes_event_records two_events_store
                "E" eq_refl eq_refl) as (_ & Hp & _ & _ & Ho & _).
  split.
  - rewrite Hp. reflexivity.
  - apply Ho. discriminate.
Defined.

(** ** The recipients of a reminder *)

Lemma send_reminder_attempt (st : Store) (e : Event.t) (now : datetime) :
  participants (fst (_send_reminder st e now)) = participants st
  /\ snd (_send_reminder st e now)
     = reminder (Event.id e)
         (map Participant.user_id (get_participants st (Event.id e) None)).
Proof.
  unfold _send_reminder.
  destruct (get_participants st (Event.id e) None) eqn:E; cbn [fst snd];
    (split; [apply update_event_ledger | reflexivity]).
Qed.

(** The attempt [a] is addressed to the joined users of [st0]. *)
Lemma check_reminder_recipients (reminder_minutes : Z) (now : datetime)
    (st0 : Store) (snapshot : list Event.t) :
  forall acc : Store * list Attempt,
    participants (fst acc) = participants st0 ->
    Forall
      (fun a =>
         a = reminder (attempt_event a)
               (map Participant.user_id
                  (get_participants st0 (attempt_event a) None)))
      (snd acc) ->
    let r := fold_left (check_reminder reminder_minutes now) snapshot acc in
    participants (fst r) = participants st0
    /\ Forall
         (fun a =>
            a = reminder (attempt_event a)
                  (map Participant.user_id
                     (get_participants st0 (attempt_event a) None)))
         (snd r).
Proof.
  induction snapshot as [|e rest IH]; intros [st sent] Hp Hs r.
  - unfold r. cbn. auto.
  - unfold r. cbn [fold_left]. apply IH; rewrite check_reminder_due;
      cbn [fst snd] in *; destruct (due reminder_minutes now e);
      cbn [fst snd]; try assumption.
    + destruct (send_reminder_attempt st e now) as [H1 _]. congruence.
    + apply Forall_app. split; [assumption|]. constructor; [|constructor].
      destruct (send_reminder_attempt st e now) as [_ H2]. rewrite H2.
      cbn [attempt_event]. f_equal. f_equal.
      now apply get_participants_participants.
Qed.

(** X16. A sweep of [check_reminders] changes no participant record, and
    every reminder it attempts is addressed to the users [get_participants]
    lists for the event, in the order of that listing: a user receives it
    if and only if the user has a JOINED record on the event, so nobody on
    the waitlist does. *)
Theorem reminders_are_addressed_to_joined_users
    (reminder_minutes : Z) (guilds : list string) (now : datetime)
    (st : Store) :
  let r := check_reminders reminder_minutes guilds now st in
  participants (fst r) = participants st
  /\ forall event_id recipients,
       In (reminder event_id recipients) (snd r) ->
       recipients
       = map Participant.user_id (get_participants st event_id None)
       /\ forall user_id,
            In user_id recipients
            <-> exists p,
                  In p (participants st)
                  /\ Participant.event_id p = event_id
                  /\ Participant.status p = JOINED
                  /\ Participant.user_id p = user_id.
Proof.
  intros r.
  assert (H : participants (fst r) = participants st
              /\ Forall
                   (fun a =>
                      a = reminder (attempt_event a)
                            (map Participant.user_id
                               (get_participants st (attempt_event a) None)))
                   (snd r)).
  { unfold r, check_reminders.
    assert (G : forall acc : Store * list Attempt,
              participants (fst acc) = participants st ->
              Forall
                (fun a =>
                   a = reminder (attempt_event a)
                         (map Participant.user_id
                            (get_participants st (attempt_event a) None)))
                (snd acc) ->
              let r0 :=
                fold_left
                  (fun acc guild =>
                     fold_left (check_reminder reminder_minutes now)
                       (get_all_events (fst acc) guild) acc)
                  guilds acc in
              participants (fst r0) = participants st
              /\ Forall
                   (fun a =>
                      a = reminder (attempt_event a)
                            (map Participant.user_id
                               (get_participants st (attempt_event a) None)))
                   (snd r0)).
    { induction guilds as [|g gs IH]; intros acc Hp Hs r0.
      - unfold r0. cbn. auto.
      - unfold r0. cbn [fold_left].
        destruct (check_reminder_recipients reminder_minutes now st
                    (get_all_events (fst acc) g) acc Hp Hs) as [Hp' Hs'].
        now apply IH. }
    apply G; [reflexivity | constructor]. }
  destruct H as [Hp Hs]. split; [exact Hp|].
  intros event_id recipients Hin.
  rewrite Forall_forall in Hs. specialize (Hs _ Hin).
  cbn [attempt_event] in Hs.
  assert (Hr : recipients
               = map Participant.user_id (get_participants st event_id None))
    by congruence.
  split; [exact Hr|].
  intros user_id. rewrite Hr, in_map_iff. split.
  - intros (p & Hu & Hp0). apply get_participants_In in Hp0.
    exists p. tauto.
  - intros (p & Hp0 & He & Hst & Hu). exists p. split; [exact Hu|].
    apply get_participants_In. tauto.
Qed.

Lemma reminders_are_addressed_to_joined_users_witness :
  snd (check_reminders 30 ["G"%string] 1500000000 reminder_store)
  = [reminder "E" ["U1"%string]]
  /\ (forall user_id,
        In user_id ["U1"%string]
        <-> exists p,
              In p (participants reminder_store)
              /\ Participant.event_id p = "E"%string
              /\ Participant.status p = JOINED
              /\ Participant.user_id p = user_id).
Proof.
  assert (Hsent : snd (check_reminders 30 ["G"%string] 1500000000
                         reminder_store)
                  = [reminder "E" ["U1"%string]]) by reflexivity.
  split; [exact Hsent|].
  apply (reminders_are_addressed_to_joined_users 30 ["G"%string] 1500000000
           reminder_store).
  rewrite Hsent. now left.
Defined.

(** ** The commands of the event manager *)

Lemma can_manage_event_iff (user_id : string) (event : Event.t)
    (guild : option Guild) :
  fst (can_manage_event user_id event guild) = true
  <-> may_manage user_id event guild.
Proof.
  unfold can_manage_event, may_manage.
  destruct (String.eqb_spec user_id (Event.creator_id event)) as [E|E].
  - cbn. tauto.
  - destruct guild as [g|].
    + destruct (g user_id) as [[|]|] eqn:G; cbn [fst]; split.
      * intros _. right. now exists g.
      * reflexivity.
      * discriminate.
      * intros [H|(g0 & H1 & H2)]; [contradiction|]. congruence.
      * discriminate.
      * intros [H|(g0 & H1 & H2)]; [contradiction|]. congruence.
    + cbn [fst]. split; [discriminate|].
      intros [H|(g0 & H1 & H2)]; [contradiction | discriminate].
Qed.


Lemma can_manage_event_grant (user_id : string) (event : Event.t)
    (guild : option Guild) :
  may_manage user_id event guild ->
  can_manage_event user_id event guild = (true, EmptyString).
Proof.
  intros H. apply can_manage_event_iff in H. revert H.
  unfold can_manage_event.
  destruct (String.eqb user_id (Event.creator_id event)); cbn [fst];
    [reflexivity|].
  destruct guild as [g|]; [|discriminate].
  destruct (g user_id) as [[|]|]; cbn [fst]; congruence.
Qed.




(** X18. [close_event] by a creator or an administrator on an ACTIVE or
    FULL event stores it as CLOSED and touches neither the participants
    nor another event; from then on every [join_event] on it is refused
    with the message that recruitment has ended and changes nothing.  In
    every other case (no permission, or the event CLOSED, CANCELLED or
    COMPLETED already) the command changes nothing. *)
Theorem close_event_stops_joins
    (st : Store) (user_id : string) (guild : option Guild)
    (event_id : string) (event : Event.t) (now : datetime) :
  get_event st event_id = Some event ->
  let r := EventManager.close_event st user_id guild event_id now in
  (may_manage user_id event guild -> open_status (Event.status event) ->
   get_event (fst r) event_id
   = Some (Event.set_updated_at now (Event.set_status CLOSED event))
   /\ participants (fst r) = participants st
   /\ update_log (fst r) = update_log st
   /\ (forall other, other <> event_id ->
         get_event (fst r) other = get_event st other)
   /\ (forall joiner joiner_name later new_id slot,
         join_event (fst r) event_id joiner joiner_name later new_id slot
         = (fst r, (false, msg_recruitment_closed, None))))
  /\ (~ (may_manage user_id event guild /\ open_status (Event.status event)) ->
      fst r = st).
Proof.
  intros Hget r. pose proof (get_event_id _ _ _ Hget) as Hid.
  split.
  - intros Hm Hopen.
    destruct (update_event_found st event
                (Event.set_updated_at now (Event.set_status CLOSED event))
                now)
      as (st' & Hu & Hg & Hp & Hl & _ & Hother).
    { cbn [Event.id Event.set_updated_at Event.set_status].
      now rewrite Hid. }
    cbn [Event.id Event.set_updated_at Event.set_status] in Hg, Hother.
    rewrite Hid in Hg, Hother.
    assert (Hr : fst r = st').
    { unfold r, EventManager.close_event.
      rewrite Hget, (can_manage_event_grant _ _ _ Hm). cbn [negb].
      destruct Hopen as [Hs|Hs]; rewrite Hs, Hu; reflexivity. }
    rewrite Hr. repeat split; try assumption.
    intros joiner joiner_name later new_id slot.
    unfold join_event, can_user_join. rewrite Hg. reflexivity.
  - intros Hn. unfold r, EventManager.close_event. rewrite Hget.
    destruct (can_manage_event user_id event guild) as [b reason] eqn:Hc.
    destruct b; [|reflexivity]. cbn [negb].
    assert (Hm : may_manage user_id event guild).
    { apply can_manage_event_iff. now rewrite Hc. }
    destruct (Event.status event) eqn:Hs; try reflexivity;
      exfalso; apply Hn; (split; [exact Hm|]); unfold open_status; auto.
Qed.

Lemma close_event_stops_joins_witness :
  (let r := EventManager.close_event full_store "C" None "E" 60 in
   option_map Event.status (get_event (fst r) "E") = Some CLOSED
   /\ fst (fst (snd (join_event (fst r) "E" "U9" "U9" 70 "p9" 0))) = false)
  /\ fst (EventManager.close_event closed_store "C" None "E" 60)
     = closed_store.
Proof.
  pose proof (close_event_stops_joins full_store "C" None "E"
                (sample_event 2 2 FULL) 60 eq_refl) as [Hyes _].
  pose proof (close_event_stops_joins closed_store "C" None "E"
                (sample_event 2 1 CLOSED) 60 eq_refl) as [_ Hno].
  split.
  - destruct (Hyes (or_introl eq_refl) (or_intror eq_refl))
      as (H1 & _ & _ & _ & H2).
    cbv zeta. split; [now rewrite H1|].
    now rewrite (H2 "U9"%string "U9"%string 70 "p9"%string 0%nat).
  - apply Hno. intros [_ [H|H]]; discriminate.
Defined.

(** ** The completion sweep *)









(** ** Capacity changes and edits *)

(** Moving records between the two lists of an event keeps their total. *)
Lemma status_counts (st st' : Store) (event_id : string) :
  map user_key (participants st') = map user_key (participants st) ->
  (List.length (get_participants st' event_id None)
   + List.length (get_waitlist st' event_id None))%nat
  = (List.length (get_participants st event_id None)
     + List.length (get_waitlist st event_id None))%nat.
Proof.
  intros Hkeys.
  pose proof (status_partition event_id (participants st')) as H1.
  pose proof (status_partition event_id (participants st)) as H2.
  rewrite Hkeys, <- H2 in H1.
  rewrite !get_participants_query, !get_waitlist_query.
  assert (E1 : List.length
                 (sort_key Participant.joined_at
                    (filter (of_status event_id JOINED) (participants st')))
               = List.length
                   (filter (of_status event_id JOINED) (participants st')))
    by apply sort_key_length.
  assert (E2 : List.length
                 (sort_key Participant.position
                    (filter (of_status event_id WAITLIST) (participants st')))
               = List.length
                   (filter (of_status event_id WAITLIST) (participants st')))
    by apply sort_key_length.
  assert (E3 : List.length
                 (sort_key Participant.joined_at
                    (filter (of_status event_id JOINED) (participants st)))
               = List.length
                   (filter (of_status event_id JOINED) (participants st)))
    by apply sort_key_length.
  assert (E4 : List.length
                 (sort_key Participant.position
                    (filter (of_status event_id WAITLIST) (participants st)))
               = List.length
                   (filter (of_status event_id WAITLIST) (participants st)))
    by apply sort_key_length.
  lia.
Qed.

Lemma promote_each_count (st : Store) (event_id : string) (now : datetime)
    (k : nat) :
  ledger_ok st = true ->
  (k <= List.length (get_waitlist st event_id None))%nat ->
  let st' :=
    promote_each st event_id now
      (firstn k (get_waitlist st event_id None)) in
  ledger_ok st' = true
  /\ map user_key (participants st') = map user_key (participants st)
  /\ List.length (get_participants st' event_id None)
     = (List.length (get_participants st event_id None) + k)%nat.
Proof.
  intros Hok Hk st'.
  destruct (promote_each_spec event_id now
              (firstn k (get_waitlist st event_id None)) st
              (skipn k (get_waitlist st event_id None)) Hok)
    as (Hok' & Hkeys & Hw & _).
  { now rewrite firstn_skipn. }
  fold st' in Hok', Hkeys, Hw.
  split; [exact Hok'|]. split; [exact Hkeys|].
  pose proof (status_counts st st' event_id Hkeys) as Hc.
  apply (f_equal (@List.length _)) in Hw.
  rewrite !length_map, length_skipn in Hw. lia.
Qed.

Lemma demote_each_count (st : Store) (event_id : string) (now : datetime)
    (k : nat) :
  ledger_ok st = true ->
  (k <= List.length (get_participants st event_id None))%nat ->
  let st' :=
    demote_each st event_id now
      (firstn k
         (sorted_key_reverse Participant.joined_at
            (get_participants st event_id None))) in
  ledger_ok st' = true
  /\ map user_key (participants st') = map user_key (participants st)
  /\ List.length (get_participants st' event_id None)
     = (List.length (get_participants st event_id None) - k)%nat.
Proof.
  intros Hok Hk st'.
  pose proof (ledger_ok_unique_ids st Hok) as Hu.
  set (joined := get_participants st event_id None) in *.
  set (sorted := sorted_key_reverse Participant.joined_at joined) in *.
  assert (Hperm : Permutation sorted joined)
    by apply sorted_key_reverse_perm.
  assert (Hlen : List.length (firstn k sorted) = k).
  { rewrite length_firstn, (Permutation_length Hperm). lia. }
  assert (Hnd : NoDup (map Participant.id (firstn k sorted))).
  { assert (Hs : NoDup (map Participant.id sorted)).
    { apply (Permutation_NoDup (l := map Participant.id joined)).
      - apply Permutation_map, Permutation_sym, Hperm.
      - now apply participants_ids_NoDup. }
    rewrite <- (firstn_skipn k sorted), map_app in Hs.
    now apply NoDup_app_remove_r in Hs. }
  assert (Hin : forall d, In d (firstn k sorted) ->
            In d (participants st)
            /\ Participant.event_id d = event_id
            /\ Participant.status d = JOINED).
  { intros d Hd. apply get_participants_In.
    apply (Permutation_in _ Hperm). now apply (in_firstn _ k). }
  destruct (demote_each_spec event_id now (firstn k sorted) st Hok Hnd Hin)
    as (Hok' & Hkeys & _ & _ & Hw & _).
  fold st' in Hok', Hkeys, Hw.
  split; [exact Hok'|]. split; [exact Hkeys|].
  pose proof (status_counts st st' event_id Hkeys) as Hc.
  fold joined in Hc. lia.
Qed.

(** X20. When the records are well formed, the new capacity is not
    negative and the event held no more joined users than its old
    capacity, [_handle_capacity_change] leaves no more joined users than
    the new capacity: after an increase their number is
    [min (new_max, joined + waiting)], so no place stays empty while
    somebody waits; after a decrease or with the capacity unchanged it is
    [min (new_max, joined)].  No record is added or dropped, the records
    stay well formed, and the counter of the returned event is that
    number. *)
Theorem capacity_change_respects_capacity
    (st : Store) (event : Event.t) (old_max_participants : Z)
    (now : datetime) :
  ledger_ok st = true ->
  0 <= Event.max_participants event ->
  Z.of_nat (List.length (get_participants st (Event.id event) None))
  <= old_max_participants ->
  let joined :=
    Z.of_nat (List.length (get_participants st (Event.id event) None)) in
  let waiting :=
    Z.of_nat (List.length (get_waitlist st (Event.id event) None)) in
  let r := _handle_capacity_change st event old_max_participants now in
  let joined' :=
    Z.of_nat (List.length (get_participants (fst r) (Event.id event) None)) in
  ledger_ok (fst r) = true
  /\ map user_key (participants (fst r)) = map user_key (participants st)
  /\ joined'
     = (if old_max_participants <? Event.max_participants event
        then Z.min (Event.max_participants event) (joined + waiting)
        else Z.min (Event.max_participants event) joined)
  /\ joined' <= Event.max_participants event
  /\ Event.current_participants (snd r) = joined'.
Proof.
  intros Hok Hpos Hfit joined waiting r joined'.
  set (new_max := Event.max_participants event) in *.
  set (event_id := Event.id event) in *.
  assert (H : exists st1,
            r = (st1,
                 Event.set_current_participants
                   (Z.of_nat
                      (List.length (get_participants st1 event_id None)))
                   event)
            /\ ledger_ok st1 = true
            /\ map user_key (participants st1)
               = map user_key (participants st)
            /\ Z.of_nat (List.length (get_participants st1 event_id None))
               = (if old_max_participants <? new_max
                  then Z.min new_max (joined + waiting)
                  else Z.min new_max joined)).
  { unfold r, _handle_capacity_change.
    fold event_id. fold new_max.
    change (Z.of_nat (List.length (get_participants st event_id None)))
      with joined.
    destruct (old_max_participants <? new_max) eqn:Hinc.
    - apply Z.ltb_lt in Hinc.
      assert (Hav : (0 <? new_max - joined) = true)
        by (apply Z.ltb_lt; lia).
      rewrite Hav. cbn [andb].
      destruct (Nat.eqb_spec
                  (List.length (get_waitlist st event_id None)) 0)
        as [E|E]; cbn [negb].
      + eexists. split; [reflexivity|]. split; [exact Hok|].
        split; [reflexivity|].
        fold joined. unfold waiting. rewrite E. cbn [Z.of_nat]. lia.
      + set (k := Z.to_nat
                    (Z.min (new_max - joined)
                       (Z.of_nat
                          (List.length (get_waitlist st event_id None))))).
        assert (Hk : (k <= List.length (get_waitlist st event_id None))%nat)
          by (unfold k; lia).
        destruct (promote_each_count st event_id now k Hok Hk)
          as (Hok' & Hkeys & Hc).
        eexists. split; [reflexivity|]. split; [exact Hok'|].
        split; [exact Hkeys|].
        rewrite Hc. unfold k, waiting. fold joined. lia.
    - apply Z.ltb_ge in Hinc.
      destruct (new_max <? old_max_participants) eqn:Hdec.
      + destruct (new_max <? joined) eqn:Hover.
        * apply Z.ltb_lt in Hover.
          set (k := Z.to_nat (joined - new_max)).
          assert (Hk : (k <= List.length
                              (get_participants st event_id None))%nat)
            by (unfold k, joined; lia).
          destruct (demote_each_count st event_id now k Hok Hk)
            as (Hok' & Hkeys & Hc).
          eexists. split; [reflexivity|]. split; [exact Hok'|].
          split; [exact Hkeys|].
          rewrite Hc. unfold k. fold joined. unfold joined in *. lia.
        * apply Z.ltb_ge in Hover.
          eexists. split; [reflexivity|]. split; [exact Hok|].
          split; [reflexivity|]. fold joined. lia.
      + apply Z.ltb_ge in Hdec.
        eexists. split; [reflexivity|]. split; [exact Hok|].
        split; [reflexivity|]. fold joined. lia. }
  destruct H as (st1 & Hr & Hok' & Hkeys & Hc).
  unfold joined'. rewrite Hr. cbn [fst snd].
  split; [exact Hok'|]. split; [exact Hkeys|]. split; [exact Hc|].
  split; [|reflexivity].
  rewrite Hc. destruct (old_max_participants <? new_max); lia.
Qed.

Lemma capacity_change_respects_capacity_witness :
  List.length
    (get_participants
       (fst (_handle_capacity_change waiting_store (sample_event 4 2 FULL)
               2 60)) "E" None)
  = 4%nat
  /\ List.length
       (get_participants
          (fst (_handle_capacity_change joined_store (sample_event 2 3 FULL)
                  3 60)) "E" None)
     = 2%nat.
Proof.
  assert (H1 : 0 <= Event.max_participants (sample_event 4 2 FULL))
    by (simpl; lia).
  assert (H2 : Z.of_nat
                 (List.length
                    (get_participants waiting_store
                       (Event.id (sample_event 4 2 FULL)) None)) <= 2)
    by (vm_compute; discriminate).
  pose proof (capacity_change_respects_capacity waiting_store
                (sample_event 4 2 FULL) 2 60 eq_refl H1 H2)
    as (_ & _ & Hup & _).
  assert (H3 : 0 <= Event.max_participants (sample_event 2 3 FULL))
    by (simpl; lia).
  assert (H4 : Z.of_nat
                 (List.length
                    (get_participants joined_store
                       (Event.id (sample_event 2 3 FULL)) None)) <= 3)
    by (vm_compute; discriminate).
  pose proof (capacity_change_respects_capacity joined_store
                (sample_event 2 3 FULL) 3 60 eq_refl H3 H4)
    as (_ & _ & Hdown & _).
  cbv zeta in Hup, Hdown.
  change (Event.id (sample_event 4 2 FULL)) with "E"%string in Hup.
  change (Event.id (sample_event 2 3 FULL)) with "E"%string in Hdown.
  split; apply Nat2Z.inj; [rewrite Hup | rewrite Hdown]; reflexivity.
Defined.














